(** * Foot-pressure analysis engine

    A shallow embedding of [foot_pressure_web/backend/analyzer_engine.py]
    (class [FootPressureAnalyzer]) together with the properties of its
    pipeline: ingestion, noise filtering, centre of pressure, left/right
    separation, zone distribution and arch classification.  Around the
    pipeline it covers what is handed to the visualization
    ([get_visualization_data], [_draw_visualization_details]),
    [convert_numpy_to_native] and its counterpart in the desktop engine,
    the upload handler of [foot_pressure_web/backend/main.py], and
    [create_json_data] of the test-data scripts.

    Modelling conventions.
    - A numpy 2-D integer array is a list of rows, [list (list Z)]; the
      empty array [np.array([])] is the empty list.  Cells are mathematical
      integers: sensor readings and their sums are assumed to stay inside
      numpy's int64, where no wrap-around happens.
    - numpy float64 values (percentages, centroids, arch index, the products
      [height * ratio] and the quotient [cols / 3]) are exact rationals [Q],
      and the properties below are about the exact values.  Module
      [Float64] recomputes in IEEE binary64 the expressions on which a
      decision of the engine depends; the last but one section checks that
      both agree on the range of values of a pressure mat.
    - [scipy.ndimage] routines ([binary_opening], [label], [find_objects],
      [center_of_mass]) are modelled by executable definitions that follow
      the library's documented behaviour for the arguments the engine uses:
      a 3x3 structuring element with border value 0, and labelling with
      the default structuring element (cells that share an edge), numbered
      in raster order.  [label_one_component] relates the number of
      features to connectedness.
    - Python dictionaries with string keys are [gmap string _]; the parsed
      JSON object keeps its insertion order (an association list) because
      [sorted] is stable.
    - Exceptions are values of [exn]; a computation that may raise returns
      a [result].  Logging is not modelled.
    - The values of an analysis result as Python sees them (numpy scalars
      and arrays next to native values) are the type [pyval].
    - Drawing is modelled by the list of calls made on the matplotlib
      axes.  Rendering ([get_visualization_as_base64]) and [json.loads]
      are parameters of the upload handler: its properties hold whatever
      they return.
    - The entries of [VISUALIZATION] are those of [config.py], as for the
      analysis parameters; no property depends on their values. *)

From Stdlib Require Import ZArith QArith Qround Qabs Lqa List Bool Lia String Ascii.
From Stdlib Require Import DecimalString DecimalPos Permutation.
From Stdlib Require Import Floats.PrimFloat Floats.SpecFloat Floats.FloatOps Uint63.
From stdpp Require Import base gmap strings list.

Set Warnings "-inexact-float".

Open Scope Z_scope.

(** ** Configuration ([config.py]) *)

Module Config.

(** [ANALYSIS_PARAMS['noise_threshold']] *)
Definition noise_threshold : Z := 5.

(** [FOOT_TYPE_CRITERIA['high_arch']] and [FOOT_TYPE_CRITERIA['normal']] *)
Definition high_arch : Q := 21 # 100.
Definition normal : Q := 26 # 100.

(** [VISUALIZATION['regions']] *)
Definition hindfoot_ratio : Q := 3 # 10.
Definition midfoot_ratio : Q := 4 # 10.

End Config.

(** ** Arrays *)

Definition grid := list (list Z).
Definition mask := list (list bool).
Definition labels := list (list nat).

Definition nrows {A} (a : list (list A)) : nat := length a.

Definition ncols {A} (a : list (list A)) : nat :=
  match a with
  | [] => 0%nat
  | row :: _ => length row
  end.

(** [a.size] *)
Definition np_size {A} (a : list (list A)) : nat := (nrows a * ncols a)%nat.

(** Every row has the length of the first one: the array is a proper
    2-D numpy array. *)
Definition rectangular {A} (a : list (list A)) : bool :=
  forallb (fun row => Nat.eqb (length row) (ncols a)) a.

(** [a[r, c]], with a default outside the array. *)
Definition at2 {A} (d : A) (a : list (list A)) (r c : Z) : A :=
  if (0 <=? r) && (0 <=? c)
  then nth (Z.to_nat c) (nth (Z.to_nat r) a []) d
  else d.

Definition in_bounds (R C : nat) (r c : Z) : bool :=
  (0 <=? r) && (r <? Z.of_nat R) && (0 <=? c) && (c <? Z.of_nat C).

(** The [R] x [C] array whose cell [(r, c)] is [f r c]. *)
Definition tabulate {A} (R C : nat) (f : Z -> Z -> A) : list (list A) :=
  map (fun r => map (fun c => f (Z.of_nat r) (Z.of_nat c)) (seq 0 C)) (seq 0 R).

(** [range(n)] as integers, and all index pairs in raster order. *)
Definition zrange (n : nat) : list Z := map Z.of_nat (seq 0 n).

Definition indices (R C : nat) : list (Z * Z) :=
  flat_map (fun r => map (fun c => (r, c)) (zrange C)) (zrange R).

Definition zsum (l : list Z) : Z := foldr Z.add 0 l.

(** [min] and [max] of a non-empty sequence [x :: xs]. *)
Definition list_min (x : Z) (xs : list Z) : Z := foldr Z.min x xs.
Definition list_max (x : Z) (xs : list Z) : Z := foldr Z.max x xs.

(** [np.sum(a)] *)
Definition np_sum (a : grid) : Z := zsum (map zsum a).

(** [np.max(a)] for a non-empty array. *)
Definition np_max (a : grid) : Z :=
  match concat a with
  | [] => 0
  | x :: xs => foldr Z.max x xs
  end.

(** [np.where(a > t, a, 0)] *)
Definition np_where_gt (t : Z) (a : grid) : grid :=
  map (map (fun v => if t <? v then v else 0)) a.

(** [a > 0] *)
Definition gt_zero (a : grid) : mask := map (map (fun v => 0 <? v)) a.

(** [a * m] for a boolean array [m] ([True] is 1 and [False] is 0). *)
Definition mul_mask (a : grid) (m : mask) : grid :=
  zip_with (zip_with (fun v (b : bool) => v * Z.b2z b)) a m.

(** [a[start:stop, :]] for non-negative bounds. *)
Definition row_slice (a : grid) (start stop : Z) : grid :=
  take (Z.to_nat (stop - start)) (drop (Z.to_nat start) a).

(** ** Exact arithmetic for float64 values *)

Definition Qltb (x y : Q) : bool := negb (Qle_bool y x).

(** [int(q)]: truncation toward zero. *)
Definition int_of_Q (q : Q) : Z := Z.quot (Qnum q) (Z.pos (Qden q)).

(** ** scipy.ndimage *)

Module Ndimage.

(** [np.ones((3, 3))] as the list of offsets from the centre. *)
Definition ones3x3 : list (Z * Z) :=
  [(-1, -1); (-1, 0); (-1, 1); (0, -1); (0, 0); (0, 1); (1, -1); (1, 0); (1, 1)].

(** [generate_binary_structure(2, 1)]: the default of [label]. *)
Definition cross : list (Z * Z) := [(-1, 0); (0, -1); (0, 1); (1, 0)].

(** [binary_erosion(input, structure)], border value 0. *)
Definition binary_erosion (input : mask) (structure : list (Z * Z)) : mask :=
  tabulate (nrows input) (ncols input)
    (fun r c => forallb (fun d => at2 false input (r + d.1) (c + d.2)) structure).

(** [binary_dilation(input, structure)], border value 0. *)
Definition binary_dilation (input : mask) (structure : list (Z * Z)) : mask :=
  tabulate (nrows input) (ncols input)
    (fun r c => existsb (fun d => at2 false input (r - d.1) (c - d.2)) structure).

(** [binary_opening(input, structure)]: erosion, then dilation. *)
Definition binary_opening (input : mask) (structure : list (Z * Z)) : mask :=
  binary_dilation (binary_erosion input structure) structure.

(** One step of region growing inside [input]: keep the region and add
    the foreground cells that touch it along an edge. *)
Definition grow (input region : mask) : mask :=
  tabulate (nrows input) (ncols input)
    (fun r c =>
       at2 false input r c &&
       (at2 false region r c ||
        existsb (fun d => at2 false region (r + d.1) (c + d.2)) cross)).

Fixpoint flood (n : nat) (input region : mask) : mask :=
  match n with
  | O => region
  | S k => flood k input (grow input region)
  end.

(** The connected component of the foreground cell [(r, c)]: the region
    grown from it cannot grow more than [size] times. *)
Definition component (input : mask) (r c : Z) : mask :=
  flood (np_size input) input
    (tabulate (nrows input) (ncols input) (fun r' c' => (r' =? r) && (c' =? c))).

Definition label_step (input : mask) (acc : labels * nat) (p : Z * Z)
  : labels * nat :=
  let '(lab, n) := acc in
  if at2 false input p.1 p.2 && Nat.eqb (at2 0%nat lab p.1 p.2) 0
  then
    let comp := component input p.1 p.2 in
    (tabulate (nrows input) (ncols input)
       (fun r c => if at2 false comp r c then S n else at2 0%nat lab r c),
     S n)
  else acc.

(** [label(input)]: the labelled array and the number of features.
    Components are numbered from 1 in the order in which a raster scan
    meets their first cell; the background is 0. *)
Definition label (input : mask) : labels * nat :=
  fold_left (label_step input)
    (indices (nrows input) (ncols input))
    (tabulate (nrows input) (ncols input) (fun _ _ => 0%nat), 0%nat).

Record slice := { start : Z; stop : Z }.

Definition rows_of (lab : labels) (k : nat) : list Z :=
  List.filter (fun r => existsb (fun c => Nat.eqb (at2 0%nat lab r c) k)
                     (zrange (ncols lab)))
    (zrange (nrows lab)).

Definition cols_of (lab : labels) (k : nat) : list Z :=
  List.filter (fun c => existsb (fun r => Nat.eqb (at2 0%nat lab r c) k)
                     (zrange (nrows lab)))
    (zrange (ncols lab)).

(** [find_objects(lab)[k - 1]]: the bounding slices (rows, columns) of
    label [k], or [None] when the label does not occur. *)
Definition find_objects (lab : labels) (k : nat) : option (slice * slice) :=
  match rows_of lab k, cols_of lab k with
  | r0 :: rs, c0 :: cs =>
      Some ({| start := list_min r0 rs; stop := list_max r0 rs + 1 |},
            {| start := list_min c0 cs; stop := list_max c0 cs + 1 |})
  | _, _ => None
  end.

(** Weighted centroid of the cells selected by [sel]. *)
Definition centroid (a : grid) (sel : Z -> Z -> bool) : Q * Q :=
  let cells := List.filter (fun p => sel p.1 p.2) (indices (nrows a) (ncols a)) in
  let normalizer := zsum (map (fun p => at2 0 a p.1 p.2) cells) in
  let row_moment := zsum (map (fun p => p.1 * at2 0 a p.1 p.2) cells) in
  let col_moment := zsum (map (fun p => p.2 * at2 0 a p.1 p.2) cells) in
  (Qdiv (inject_Z row_moment) (inject_Z normalizer),
   Qdiv (inject_Z col_moment) (inject_Z normalizer)).

(** [center_of_mass(a)] *)
Definition center_of_mass (a : grid) : Q * Q := centroid a (fun _ _ => true).

(** [center_of_mass(a, lab, k)] *)
Definition center_of_mass_label (a : grid) (lab : labels) (k : nat) : Q * Q :=
  centroid a (fun r c => Nat.eqb (at2 0%nat lab r c) k).

End Ndimage.

(** ** Python values used at ingestion *)

(** The exception classes that ingestion can raise. *)
Inductive exn := ValueError | TypeError | KeyError | IndexError | AttributeError.

Inductive result (A : Type) :=
| Ok (a : A)
| Raise (e : exn).

Arguments Ok {A} a.
Arguments Raise {A} e.

#[global] Instance result_ret : MRet result := fun _ a => Ok a.

#[global] Instance result_bind : MBind result := fun _ _ f m =>
  match m with
  | Ok a => f a
  | Raise e => Raise e
  end.

#[local] Set Warnings "-register-all".

(** The value produced by [json.loads]; a dictionary keeps its items in
    insertion order. *)
Inductive json :=
| JNull
| JBool (b : bool)
| JInt (n : Z)
| JFloat (q : Q)
| JStr (s : string)
| JList (l : list json)
| JDict (items : list (string * json)).

(** Python truthiness: [not v] is [negb (truthy v)]. *)
Definition truthy (v : json) : bool :=
  match v with
  | JNull => false
  | JBool b => b
  | JInt n => negb (n =? 0)
  | JFloat q => negb (Qeq_bool q 0)
  | JStr s => negb (String.eqb s "")
  | JList l => negb (Nat.eqb (length l) 0)
  | JDict items => negb (Nat.eqb (length items) 0)
  end.

Fixpoint assoc (key : string) (items : list (string * json)) : option json :=
  match items with
  | [] => None
  | (k, v) :: rest => if String.eqb k key then Some v else assoc key rest
  end.

(** [v.get(key)]: only a dictionary has the method. *)
Definition dict_get (v : json) (key : string) : result json :=
  match v with
  | JDict items => Ok (default JNull (assoc key items))
  | _ => Raise AttributeError
  end.

(** [v.keys()] *)
Definition dict_keys (v : json) : result (list string) :=
  match v with
  | JDict items => Ok (map fst items)
  | _ => Raise AttributeError
  end.

(** [v[key]] for a key of the dictionary [v]. *)
Definition dict_item (v : json) (key : string) : result json :=
  match v with
  | JDict items =>
      match assoc key items with
      | Some x => Ok x
      | None => Raise KeyError
      end
  | _ => Raise TypeError
  end.

(** [s.split(sep)] for a non-empty separator: [skip] counts the
    characters of a matched separator that are still to be dropped, [cur]
    is the current piece in reverse. *)
Fixpoint split_aux (sep : string) (skip : nat) (cur : list ascii) (s : string)
  : list string :=
  match s with
  | EmptyString => [string_of_list_ascii (rev cur)]
  | String ch rest =>
      match skip with
      | S k => split_aux sep k cur rest
      | O =>
          if String.prefix sep s
          then string_of_list_ascii (rev cur)
                 :: split_aux sep (String.length sep - 1) [] rest
          else split_aux sep 0 (ch :: cur) rest
      end
  end.

Definition py_split (s sep : string) : list string := split_aux sep 0 [] s.

(** [v.split(sep)]: only a string has the method. *)
Definition str_split (v : json) (sep : string) : result (list string) :=
  match v with
  | JStr s => Ok (py_split s sep)
  | _ => Raise AttributeError
  end.

(** [l[i]] on a Python list. *)
Definition list_item {A} (l : list A) (i : nat) : result A :=
  match nth_error l i with
  | Some x => Ok x
  | None => Raise IndexError
  end.

Definition is_space (c : ascii) : bool :=
  let n := nat_of_ascii c in
  Nat.eqb n 32 || (Nat.leb 9 n && Nat.leb n 13).

Fixpoint lstrip (s : string) : string :=
  match s with
  | EmptyString => EmptyString
  | String c rest => if is_space c then lstrip rest else s
  end.

Definition strip (s : string) : string :=
  let t := lstrip s in
  string_of_list_ascii
    (rev (list_ascii_of_string (lstrip (string_of_list_ascii (rev (list_ascii_of_string t)))))).

Definition digit_of (c : ascii) : option Z :=
  let n := nat_of_ascii c in
  if Nat.leb 48 n && Nat.leb n 57 then Some (Z.of_nat (n - 48)) else None.

(** Decimal digits, with single underscores allowed between digits. *)
Fixpoint digits (acc : Z) (after_digit : bool) (s : string) : option Z :=
  match s with
  | EmptyString => if after_digit then Some acc else None
  | String c rest =>
      if Ascii.eqb c "_"
      then if after_digit then digits acc false rest else None
      else match digit_of c with
           | Some d => digits (10 * acc + d) true rest
           | None => None
           end
  end.

(** [int(s)] for a string of ASCII characters; [ValueError] otherwise. *)
Definition py_int (s : string) : result Z :=
  let t := strip s in
  let parsed :=
    match t with
    | String "-" rest => Z.opp <$> digits 0 false rest
    | String "+" rest => digits 0 false rest
    | _ => digits 0 false t
    end in
  match parsed with
  | Some n => Ok n
  | None => Raise ValueError
  end.

(** Stable insertion by key, as [sorted(..., key=...)] orders its items. *)
Fixpoint insert_by {A} (x : Z * A) (l : list (Z * A)) : list (Z * A) :=
  match l with
  | [] => [x]
  | y :: l' => if x.1 <=? y.1 then x :: l else y :: insert_by x l'
  end.

Definition sorted_by {A} (l : list (Z * A)) : list A :=
  map snd (foldr insert_by [] l).

(** [np.array(m)] for a list of lists of integers; a ragged list is
    refused (numpy 1.24 and later raise [ValueError]). *)
Definition np_array (m : list (list Z)) : result grid :=
  if rectangular m then Ok m else Raise ValueError.

(** ** The analyzer object *)

(** An entry of [foot_types]: [{'type': ..., 'value': ..., 'score': ...}]. *)
Record FootType := {
  ft_type : string;
  ft_value : Q;
  ft_score : Q
}.

Record Zones := {
  hind : Ndimage.slice;
  mid : Ndimage.slice;
  fore : Ndimage.slice
}.

(** [analysis_results] as filled by [_prepare_final_results]. *)
Record Results := {
  res_distribution : gmap string Q;
  res_foot_types : gmap string FootType;
  res_final_bbox : option (Z * Z);
  res_zones : option Zones;
  res_cop : option (Q * Q)
}.

(** The attributes of [FootPressureAnalyzer] that the pipeline reads or
    writes. *)
Record Analyzer := {
  filename : string;
  json_data : json;
  pressure_array : grid;
  cleaned_array : grid;
  left_foot : grid;
  right_foot : grid;
  distribution : gmap string Q;
  foot_types : gmap string FootType;
  final_bbox : option (Z * Z);
  pressure_data : option grid;
  cop : option (Q * Q);
  analysis_results : option Results;
  error_message : option string
}.

(** [FootPressureAnalyzer(json_data, filename)] *)
Definition __init__ (json_data : json) (filename : string) : Analyzer :=
  {| filename := filename;
     json_data := json_data;
     pressure_array := [];
     cleaned_array := [];
     left_foot := [];
     right_foot := [];
     distribution := ∅;
     foot_types := ∅;
     final_bbox := None;
     pressure_data := None;
     cop := None;
     analysis_results := None;
     error_message := None |}.

Definition set_pressure_array (a : grid) (self : Analyzer) : Analyzer :=
  {| filename := filename self; json_data := json_data self;
     pressure_array := a; cleaned_array := cleaned_array self;
     left_foot := left_foot self; right_foot := right_foot self;
     distribution := distribution self; foot_types := foot_types self;
     final_bbox := final_bbox self; pressure_data := pressure_data self;
     cop := cop self; analysis_results := analysis_results self;
     error_message := error_message self |}.

Definition set_pressure_data (a : option grid) (self : Analyzer) : Analyzer :=
  {| filename := filename self; json_data := json_data self;
     pressure_array := pressure_array self; cleaned_array := cleaned_array self;
     left_foot := left_foot self; right_foot := right_foot self;
     distribution := distribution self; foot_types := foot_types self;
     final_bbox := final_bbox self; pressure_data := a;
     cop := cop self; analysis_results := analysis_results self;
     error_message := error_message self |}.

Definition set_cleaned_array (a : grid) (self : Analyzer) : Analyzer :=
  {| filename := filename self; json_data := json_data self;
     pressure_array := pressure_array self; cleaned_array := a;
     left_foot := left_foot self; right_foot := right_foot self;
     distribution := distribution self; foot_types := foot_types self;
     final_bbox := final_bbox self; pressure_data := pressure_data self;
     cop := cop self; analysis_results := analysis_results self;
     error_message := error_message self |}.

Definition set_feet (l r : grid) (self : Analyzer) : Analyzer :=
  {| filename := filename self; json_data := json_data self;
     pressure_array := pressure_array self; cleaned_array := cleaned_array self;
     left_foot := l; right_foot := r;
     distribution := distribution self; foot_types := foot_types self;
     final_bbox := final_bbox self; pressure_data := pressure_data self;
     cop := cop self; analysis_results := analysis_results self;
     error_message := error_message self |}.

Definition set_distribution (d : gmap string Q) (self : Analyzer) : Analyzer :=
  {| filename := filename self; json_data := json_data self;
     pressure_array := pressure_array self; cleaned_array := cleaned_array self;
     left_foot := left_foot self; right_foot := right_foot self;
     distribution := d; foot_types := foot_types self;
     final_bbox := final_bbox self; pressure_data := pressure_data self;
     cop := cop self; analysis_results := analysis_results self;
     error_message := error_message self |}.

Definition set_foot_types (t : gmap string FootType) (self : Analyzer) : Analyzer :=
  {| filename := filename self; json_data := json_data self;
     pressure_array := pressure_array self; cleaned_array := cleaned_array self;
     left_foot := left_foot self; right_foot := right_foot self;
     distribution := distribution self; foot_types := t;
     final_bbox := final_bbox self; pressure_data := pressure_data self;
     cop := cop self; analysis_results := analysis_results self;
     error_message := error_message self |}.

Definition set_final_bbox (b : option (Z * Z)) (self : Analyzer) : Analyzer :=
  {| filename := filename self; json_data := json_data self;
     pressure_array := pressure_array self; cleaned_array := cleaned_array self;
     left_foot := left_foot self; right_foot := right_foot self;
     distribution := distribution self; foot_types := foot_types self;
     final_bbox := b; pressure_data := pressure_data self;
     cop := cop self; analysis_results := analysis_results self;
     error_message := error_message self |}.

Definition set_cop (p : option (Q * Q)) (self : Analyzer) : Analyzer :=
  {| filename := filename self; json_data := json_data self;
     pressure_array := pressure_array self; cleaned_array := cleaned_array self;
     left_foot := left_foot self; right_foot := right_foot self;
     distribution := distribution self; foot_types := foot_types self;
     final_bbox := final_bbox self; pressure_data := pressure_data self;
     cop := p; analysis_results := analysis_results self;
     error_message := error_message self |}.

Definition set_analysis_results (r : option Results) (self : Analyzer) : Analyzer :=
  {| filename := filename self; json_data := json_data self;
     pressure_array := pressure_array self; cleaned_array := cleaned_array self;
     left_foot := left_foot self; right_foot := right_foot self;
     distribution := distribution self; foot_types := foot_types self;
     final_bbox := final_bbox self; pressure_data := pressure_data self;
     cop := cop self; analysis_results := r;
     error_message := error_message self |}.

Definition set_error_message (m : option string) (self : Analyzer) : Analyzer :=
  {| filename := filename self; json_data := json_data self;
     pressure_array := pressure_array self; cleaned_array := cleaned_array self;
     left_foot := left_foot self; right_foot := right_foot self;
     distribution := distribution self; foot_types := foot_types self;
     final_bbox := final_bbox self; pressure_data := pressure_data self;
     cop := cop self; analysis_results := analysis_results self;
     error_message := m |}.

(** ** Ingestion: [_process_input_data] *)

(** [int(x.split('_')[1])], the sort key of a row identifier. *)
Definition sort_key (x : string) : result Z :=
  part ← list_item (py_split x "_") 1;
  py_int part.

(** The body of the [try] block once [pressure_rows] is known to be
    truthy: sort the keys, parse every row, build the array. *)
Definition parse_rows (pressure_rows : json) : result grid :=
  keys ← dict_keys pressure_rows;
  keyed ← mapM (fun x => k ← sort_key x; mret (k, x)) keys;
  let sorted_keys := sorted_by keyed in
  pressure_matrix ←
    mapM (fun key =>
            v ← dict_item pressure_rows key;
            cells ← str_split v ", ";
            mapM py_int cells)
         sorted_keys;
  np_array pressure_matrix.

(** [except (ValueError, TypeError, KeyError)] *)
Definition caught (e : exn) : bool :=
  match e with
  | ValueError | TypeError | KeyError => true
  | IndexError | AttributeError => false
  end.

Definition _process_input_data (self : Analyzer) : result Analyzer :=
  match dict_get (json_data self) "RawPressureByRows" with
  | Raise e => if caught e then Ok (set_pressure_array [] self) else Raise e
  | Ok pressure_rows =>
      if negb (truthy pressure_rows)
      then Ok (set_pressure_array [] self)
      else
        match parse_rows pressure_rows with
        | Ok a => Ok (set_pressure_data (Some a) (set_pressure_array a self))
        | Raise e => if caught e then Ok (set_pressure_array [] self) else Raise e
        end
  end.

(** ** Noise filter: [_filter_noise] *)

(** The computation of [_filter_noise] on a non-empty [pressure_array]. *)
Definition filter_array (pressure_array : grid) : grid :=
  if np_max pressure_array =? 0
  then pressure_array
  else
    let thresholded := np_where_gt Config.noise_threshold pressure_array in
    mul_mask thresholded
      (Ndimage.binary_opening (gt_zero thresholded) Ndimage.ones3x3).

Definition _filter_noise (self : Analyzer) : Analyzer :=
  if Nat.eqb (np_size (pressure_array self)) 0
  then self
  else set_cleaned_array (filter_array (pressure_array self)) self.

(** ** Centre of pressure: [_calculate_cop] *)

Definition _calculate_cop (self : Analyzer) : Analyzer :=
  if Nat.eqb (np_size (cleaned_array self)) 0 || (np_sum (cleaned_array self) =? 0)
  then set_cop None self
  else set_cop (Some (Ndimage.center_of_mass (cleaned_array self))) self.

(** ** Foot separation: [_separate_feet] *)

(** [mask[labeled_array == k] = True] *)
Definition mark (m : mask) (labeled_array : labels) (k : nat) : mask :=
  tabulate (nrows labeled_array) (ncols labeled_array)
    (fun r c => Nat.eqb (at2 0%nat labeled_array r c) k || at2 false m r c).

(** The body of the loop of lines 207-211 on the pair
    [(left_mask, right_mask)], for the item [(i, com)] of
    [enumerate(coms)]. *)
Definition assign_step (labeled_array : labels) (mid_col : Z)
    (masks : mask * mask) (icom : nat * (Q * Q)) : mask * mask :=
  let '(i, com) := icom in
  if Qltb com.2 (inject_Z mid_col)
  then (mark masks.1 labeled_array (S i), masks.2)
  else (masks.1, mark masks.2 labeled_array (S i)).

(** The general case (lines 204-212): every component goes as a whole to
    the side on which its centre of mass lies. *)
Definition assign_by_centroid (array : grid) (labeled_array : labels)
    (num_features : nat) (mid_col : Z) : grid * grid :=
  let zeros := tabulate (nrows array) (ncols array) (fun _ _ => false) in
  let coms := map (fun i => Ndimage.center_of_mass_label array labeled_array (S i))
                (seq 0 num_features) in
  let '(left_mask, right_mask) :=
    fold_left (assign_step labeled_array mid_col)
      (zip (seq 0 num_features) coms)
      (zeros, zeros) in
  (mul_mask array left_mask, mul_mask array right_mask).

(** The two halves of label 1 on either side of [mid_col] (lines 197-201). *)
Definition forced_split (array : grid) (labeled_array : labels) (mid_col : Z)
  : grid * grid :=
  let left_mask :=
    tabulate (nrows array) (ncols array)
      (fun r c => (c <? mid_col) && Nat.eqb (at2 0%nat labeled_array r c) 1) in
  let right_mask :=
    tabulate (nrows array) (ncols array)
      (fun r c => (mid_col <=? c) && Nat.eqb (at2 0%nat labeled_array r c) 1) in
  (mul_mask array left_mask, mul_mask array right_mask).

(** The test of line 196 on the column slice of the single object. *)
Definition spans_center (obj_min_col obj_max_col mid_col : Z) (cols : nat) : bool :=
  (obj_min_col <? mid_col) && (mid_col <? obj_max_col)
  && Qltb (Qdiv (inject_Z (Z.of_nat cols)) (inject_Z 3))
          (inject_Z (obj_max_col - obj_min_col)).

(** [_separate_feet]; [find_objects(labeled_array)[0]] is a pair of slices
    whenever [num_features == 1] (see [find_objects_single]), so the
    branch [None] below stands for no execution of the method. *)
Definition _separate_feet (array : grid) : grid * grid :=
  if np_sum array =? 0 then ([], [])
  else
    let cols := ncols array in
    let mid_col := Z.of_nat cols / 2 in
    let '(labeled_array, num_features) := Ndimage.label (gt_zero array) in
    let general := assign_by_centroid array labeled_array num_features mid_col in
    if Nat.eqb num_features 1
    then
      match Ndimage.find_objects labeled_array 1 with
      | Some (_, obj_cols) =>
          let obj_min_col := Ndimage.start obj_cols in
          let obj_max_col := Ndimage.stop obj_cols in
          if spans_center obj_min_col obj_max_col mid_col cols
          then
            let '(left_foot, right_foot) := forced_split array labeled_array mid_col in
            if (0 <? np_sum left_foot) && (0 <? np_sum right_foot)
            then (left_foot, right_foot)
            else general
          else general
      | None => general
      end
    else general.

(** ** Zones and distribution *)

Definition _get_foot_zone_indices (foot_bbox : option (Z * Z)) (total_rows : Z)
  : option Zones :=
  match foot_bbox with
  | None => None
  | Some (min_r, max_r) =>
      let height := max_r - min_r + 1 in
      if height <? 3 then None
      else
        let hind_end :=
          min_r + int_of_Q (Qmult (inject_Z height) Config.hindfoot_ratio) in
        let mid_end :=
          hind_end + int_of_Q (Qmult (inject_Z height) Config.midfoot_ratio) in
        Some {| hind := {| Ndimage.start := min_r; Ndimage.stop := hind_end |};
                mid := {| Ndimage.start := hind_end; Ndimage.stop := mid_end |};
                fore := {| Ndimage.start := mid_end; Ndimage.stop := max_r + 1 |} |}
  end.

(** [zones.items()], in insertion order. *)
Definition zones_items (zones : Zones) : list (string * Ndimage.slice) :=
  [("hind", hind zones); ("mid", mid zones); ("fore", fore zones)]%string.

(** The local function [get_virtual_footprint]. *)
Definition get_virtual_footprint (foot_array : grid) : option (Z * Z) :=
  if np_sum foot_array =? 0 then None
  else
    let rows_with_pressure :=
      List.filter
        (fun r => existsb (fun v => 0 <? v) (nth (Z.to_nat r) foot_array []))
        (zrange (nrows foot_array)) in
    match rows_with_pressure with
    | [] => None
    | r0 :: rs => Some (list_min r0 rs, list_max r0 rs)
    end.

Definition upper (c : ascii) : ascii :=
  let n := nat_of_ascii c in
  if Nat.leb 97 n && Nat.leb n 122 then ascii_of_nat (n - 32) else c.

(** [f"{prefix}{zone_name[0].upper()}"] *)
Definition zone_key (prefix zone_name : string) : string :=
  match zone_name with
  | EmptyString => prefix
  | String c _ => prefix +:+ String (upper c) EmptyString
  end.

(** [(np.sum(foot_array[start:stop, :]) / foot_total) * 100] *)
Definition percentage (foot_array : grid) (idx : Ndimage.slice) (foot_total : Z) : Q :=
  Qmult
    (Qdiv (inject_Z (np_sum (row_slice foot_array (Ndimage.start idx) (Ndimage.stop idx))))
          (inject_Z foot_total))
    (inject_Z 100).

(** The loops of lines 238-241 on the distribution dictionary. *)
Definition fill_distribution (zones : Zones) (feet : list (string * grid))
    (d : gmap string Q) : gmap string Q :=
  fold_left
    (fun d (side : string * grid) =>
       let '(prefix, foot_array) := side in
       let foot_total := np_sum foot_array in
       if foot_total =? 0 then d
       else
         fold_left
           (fun d (zone : string * Ndimage.slice) =>
              let '(zone_name, idx) := zone in
              <[zone_key prefix zone_name := percentage foot_array idx foot_total]> d)
           (zones_items zones) d)
    feet d.

Definition _calculate_pressure_distribution (self : Analyzer) : Analyzer :=
  let '(l, r) := _separate_feet (cleaned_array self) in
  let self := set_feet l r self in
  let left_bbox := get_virtual_footprint (left_foot self) in
  let right_bbox := get_virtual_footprint (right_foot self) in
  match omap id [left_bbox; right_bbox] with
  | [] => self
  | b :: bs =>
      let all_min_r := list_min b.1 (map fst bs) in
      let all_max_r := list_max b.2 (map snd bs) in
      let self := set_final_bbox (Some (all_min_r, all_max_r)) self in
      if np_sum (left_foot self) + np_sum (right_foot self) =? 0 then self
      else
        match _get_foot_zone_indices (final_bbox self)
                (Z.of_nat (nrows (pressure_array self))) with
        | None => self
        | Some zones =>
            set_distribution
              (fill_distribution zones
                 [("L"%string, left_foot self); ("R"%string, right_foot self)]
                 (distribution self))
              self
        end
  end.

(** ** Arch classification *)

Definition HIGH_ARCH : string := "요족 (High Arch)".
Definition NORMAL : string := "정상 (Normal)".
Definition FLAT_FOOT : string := "평발 (Flat Foot)".
Definition NO_DATA : string := "데이터 없음".
Definition LEFT : string := "왼쪽".
Definition RIGHT : string := "오른쪽".

Definition _classify_arch (ratio : Q) : string :=
  if Qle_bool ratio Config.high_arch then HIGH_ARCH
  else if Qle_bool ratio Config.normal then NORMAL
  else FLAT_FOOT.

(** Rounding to the nearest integer, ties to even. *)
Definition round_half_even (q : Q) : Z :=
  let f := Qfloor q in
  match Qcompare (Qminus q (inject_Z f)) (1 # 2) with
  | Lt => f
  | Gt => f + 1
  | Eq => if Z.even f then f else f + 1
  end.

(** [round(q, 1)] *)
Definition round1 (q : Q) : Q :=
  Qdiv (inject_Z (round_half_even (Qmult q (inject_Z 10)))) (inject_Z 10).

Definition _calculate_arch_score (arch_index : Q) : Q :=
  let high := Config.high_arch in
  let normal := Config.normal in
  let ideal := Qdiv (Qplus high normal) (inject_Z 2) in
  let width := Qdiv (Qminus normal high) (inject_Z 2) in
  if negb (Qeq_bool width (inject_Z 0))
  then
    let raw :=
      Qminus (inject_Z 100)
        (Qmult (Qdiv (Qabs (Qminus arch_index ideal)) width) (inject_Z 50)) in
    round1 (if Qltb (inject_Z 0) raw then raw else inject_Z 0)
  else if Qeq_bool arch_index ideal then inject_Z 100 else inject_Z 0.

(** The loop of lines 245-252 on the [foot_types] dictionary. *)
Definition fill_foot_types (zones : Zones) (left_foot right_foot : grid)
    (t : gmap string FootType) : gmap string FootType :=
  fold_left
    (fun t (side : string * string) =>
       let '(prefix, name) := side in
       let foot_array := if String.eqb prefix "L" then left_foot else right_foot in
       let foot_total := np_sum foot_array in
       if foot_total =? 0
       then <[name := {| ft_type := NO_DATA;
                         ft_value := inject_Z 0;
                         ft_score := inject_Z 0 |}]> t
       else
         let mid_pressure :=
           np_sum (row_slice foot_array (Ndimage.start (mid zones))
                     (Ndimage.stop (mid zones))) in
         let arch_index := Qdiv (inject_Z mid_pressure) (inject_Z foot_total) in
         <[name := {| ft_type := _classify_arch arch_index;
                      ft_value := arch_index;
                      ft_score := _calculate_arch_score arch_index |}]> t)
    [("L"%string, LEFT); ("R"%string, RIGHT)] t.

Definition _analyze_foot_type (self : Analyzer) : Analyzer :=
  match _get_foot_zone_indices (final_bbox self)
          (Z.of_nat (nrows (pressure_array self))) with
  | None => self
  | Some zones =>
      set_foot_types
        (fill_foot_types zones (left_foot self) (right_foot self) (foot_types self))
        self
  end.

Definition _prepare_final_results (self : Analyzer) : Analyzer :=
  set_analysis_results
    (Some {| res_distribution := distribution self;
             res_foot_types := foot_types self;
             res_final_bbox := final_bbox self;
             res_zones := _get_foot_zone_indices (final_bbox self)
                            (Z.of_nat (nrows (pressure_array self)));
             res_cop := cop self |})
    self.

(** ** The pipeline: [run_analysis] *)

(** The text of an exception, reduced to the name of its class. *)
Definition exn_text (e : exn) : string :=
  match e with
  | ValueError => "ValueError"
  | TypeError => "TypeError"
  | KeyError => "KeyError"
  | IndexError => "IndexError"
  | AttributeError => "AttributeError"
  end.

(** The message of line 87. *)
Definition no_data_message (filename : string) : string :=
  "'" +:+ filename +:+ "'에 데이터가 없거나 형식이 잘못되었습니다.".

(** The message of line 96. *)
Definition failure_message (e : exn) : string :=
  "분석 실행 중 오류 발생: " +:+ exn_text e.

(** The stages that follow the emptiness test (lines 89-93). *)
Definition stages (self : Analyzer) : Analyzer :=
  _prepare_final_results
    (_analyze_foot_type
       (_calculate_pressure_distribution
          (_calculate_cop
             (_filter_noise self)))).

(** [run_analysis]: the returned flag and the analyzer afterwards. *)
Definition run_analysis (self : Analyzer) : bool * Analyzer :=
  match _process_input_data self with
  | Raise e => (false, set_error_message (Some (failure_message e)) self)
  | Ok self =>
      if Nat.eqb (np_size (pressure_array self)) 0
      then (false, set_error_message (Some (no_data_message (filename self))) self)
      else (true, stages self)
  end.

(** ** Visualization data: [get_visualization_data] *)

Module Visualization.
(** [VISUALIZATION['figsize']], ['cmap'], ['interpolation'] and
    ['gaussian_sigma'] *)
Definition figsize : Z * Z := (8, 10).
Definition cmap : string := "plasma".
Definition interpolation : string := "bilinear".
Definition gaussian_sigma : Q := 1 # 2.
End Visualization.

(** The dictionary returned by [get_visualization_data]. *)
Record VisConfig := {
  cfg_figsize : Z * Z;
  cfg_cmap : string;
  cfg_interpolation : string;
  cfg_gaussian_sigma : Q
}.

Record VisData := {
  vd_pressure_data : grid;
  vd_analysis_results : option Results;
  vd_config : VisConfig
}.

(** Truthiness of an attribute that is [None] or a string. *)
Definition str_truthy (s : option string) : bool :=
  match s with
  | Some s => negb (String.eqb s "")
  | None => false
  end.

Definition get_visualization_data (self : Analyzer) : option VisData :=
  if str_truthy (error_message self) then None
  else
    Some {| vd_pressure_data := cleaned_array self;
            vd_analysis_results := analysis_results self;
            vd_config := {| cfg_figsize := Visualization.figsize;
                            cfg_cmap := Visualization.cmap;
                            cfg_interpolation := Visualization.interpolation;
                            cfg_gaussian_sigma := Visualization.gaussian_sigma |} |}.

(** ** Drawing: [_draw_visualization_details] *)

Module Style.
(** [VISUALIZATION['CENTER_LINE_COLOR']], ['CENTER_LINE_STYLE'],
    ['CENTER_LINE_WIDTH'], ['COP_MARKER'], ['COP_COLOR'] and
    ['COP_MARKER_SIZE'] *)
Definition CENTER_LINE_COLOR : string := "white".
Definition CENTER_LINE_STYLE : string := ":".
Definition CENTER_LINE_WIDTH : Q := 3 # 2.
Definition COP_MARKER : string := "x".
Definition COP_COLOR : string := "red".
Definition COP_MARKER_SIZE : Z := 12.
End Style.

(** A call on the axes of the figure. *)
Inductive artist :=
| axvline (x : Q) (color linestyle : string) (linewidth : Q)
| axhline (y : Q) (color linestyle : string) (linewidth : Q)
| plot (x y : Q) (marker color : string) (markersize markeredgewidth : Z).

(** [_draw_visualization_details]: the calls it makes on [ax], in order. *)
Definition _draw_visualization_details (vis_data : VisData) : list artist :=
  let pressure_data := vd_pressure_data vis_data in
  match vd_analysis_results vis_data with
  | None => []
  | Some results =>
      if Nat.eqb (np_size pressure_data) 0 then []
      else
        let rows := Z.of_nat (nrows pressure_data) in
        let cols := Z.of_nat (ncols pressure_data) in
        let mid_col := cols / 2 in
        [axvline (Qminus (inject_Z mid_col) (1 # 2))
           Style.CENTER_LINE_COLOR Style.CENTER_LINE_STYLE Style.CENTER_LINE_WIDTH;
         axhline (Qminus (Qdiv (inject_Z rows) (inject_Z 2)) (1 # 2))
           Style.CENTER_LINE_COLOR Style.CENTER_LINE_STYLE Style.CENTER_LINE_WIDTH]
        ++ match res_final_bbox results, res_zones results with
           | Some _, Some zones =>
               [axhline (Qminus (inject_Z (Ndimage.start (mid zones))) (1 # 2))
                  "white" "--" (inject_Z 1);
                axhline (Qminus (inject_Z (Ndimage.start (fore zones))) (1 # 2))
                  "white" "--" (inject_Z 1)]
           | _, _ => []
           end
        ++ match res_cop results with
           | Some (cop_y, cop_x) =>
               [plot cop_x cop_y Style.COP_MARKER Style.COP_COLOR Style.COP_MARKER_SIZE 2]
           | None => []
           end
  end.

(** ** Native Python values: [convert_numpy_to_native] *)

(** A numpy scalar ([np.generic]): [np.bool_], [np.int64], [np.float64]. *)
Inductive scalar :=
| SBool (b : bool)
| SInt (z : Z)
| SFloat (q : Q).

(** A numpy array: a scalar (dimension 0) or a sequence of arrays. *)
Inductive ndarray :=
| Nd0 (x : scalar)
| NdSeq (items : list ndarray).

(** The Python values that an analysis result holds. *)
Inductive pyval :=
| PyNone
| PyBool (b : bool)
| PyInt (z : Z)
| PyFloat (q : Q)
| PyStr (s : string)
| PyList (l : list pyval)
| PyTuple (l : list pyval)
| PyDict (items : list (string * pyval))
| NpGeneric (x : scalar)
| NpArray (a : ndarray).

(** [x.item()] *)
Definition item (x : scalar) : pyval :=
  match x with
  | SBool b => PyBool b
  | SInt z => PyInt z
  | SFloat q => PyFloat q
  end.

(** [a.tolist()] *)
Fixpoint tolist (a : ndarray) : pyval :=
  match a with
  | Nd0 x => item x
  | NdSeq items => PyList (map tolist items)
  end.

(** [convert_numpy_to_native] of the web backend: dictionaries, lists and
    tuples are converted element by element, a numpy scalar by [item()],
    an array by [tolist()]; anything else is returned as it is. *)
Fixpoint convert_numpy_to_native (data : pyval) : pyval :=
  match data with
  | PyDict items =>
      PyDict (map (fun kv => let '(key, value) := kv in
                             (key, convert_numpy_to_native value)) items)
  | PyList l => PyList (map convert_numpy_to_native l)
  | PyTuple l => PyTuple (map convert_numpy_to_native l)
  | NpGeneric x => item x
  | NpArray a => tolist a
  | _ => data
  end.

(** ** The upload endpoint ([main.py]) *)

(** [s.endswith(suffix)] *)
Definition endswith (s suffix : string) : bool :=
  Nat.leb (String.length suffix) (String.length s)
  && String.eqb (String.substring (String.length s - String.length suffix)
                   (String.length suffix) s) suffix.

(** What the handler gives back: the JSON body of a 200 response, or the
    [HTTPException] it raises. *)
Inductive response :=
| Response (body : pyval)
| HTTPException (status_code : Z) (detail : string).

Definition BAD_FILE_TYPE : string := "잘못된 파일 타입입니다. .json 파일을 업로드해주세요.".
Definition UNKNOWN_ANALYSIS_ERROR : string := "알 수 없는 분석 오류가 발생했습니다.".
Definition NO_VISUALIZATION_DATA : string := "시각화 데이터 생성에 실패했습니다.".
Definition NO_IMAGE : string := "시각화 이미지 생성에 실패했습니다.".
Definition INTERNAL_ERROR : string := "서버 내부에서 예상치 못한 오류가 발생했습니다.".

Section Endpoint.

(** [json.loads(contents.decode('utf-8'))]; [None] when it raises. *)
Variable json_loads : string -> option json.

(** [get_visualization_as_base64], which renders with matplotlib: what it
    returns ([None] or the encoded image), or [None] when it raises. *)
Variable get_visualization_as_base64 : VisData -> option (option string).

(** The Python value of [analysis_results], with whatever numpy scalars
    it holds. *)
Variable results_value : option Results -> pyval.

(** [analyze_pressure_data]; [filename] is [file.filename], which may be
    [None]. *)
Definition analyze_pressure_data (filename : option string) (contents : string)
  : response :=
  match filename with
  | None => HTTPException 500 INTERNAL_ERROR
  | Some name =>
      if negb (endswith name ".json") then HTTPException 400 BAD_FILE_TYPE
      else
        match json_loads contents with
        | None => HTTPException 500 INTERNAL_ERROR
        | Some json_data =>
            let '(ok, analyzer) := run_analysis (__init__ json_data name) in
            if negb ok
            then
              HTTPException 500
                (if str_truthy (error_message analyzer)
                 then default UNKNOWN_ANALYSIS_ERROR (error_message analyzer)
                 else UNKNOWN_ANALYSIS_ERROR)
            else
              match get_visualization_data analyzer with
              | None => HTTPException 500 NO_VISUALIZATION_DATA
              | Some vis_data =>
                  match get_visualization_as_base64 vis_data with
                  | None => HTTPException 500 INTERNAL_ERROR
                  | Some image_base64 =>
                      if str_truthy image_base64
                      then
                        Response
                          (convert_numpy_to_native
                             (PyDict
                                [("analysis_results"%string,
                                  results_value (vd_analysis_results vis_data));
                                 ("image_base64"%string,
                                  PyStr (default ""%string image_base64))]))
                      else HTTPException 500 NO_IMAGE
                  end
              end
        end
  end.

End Endpoint.

(** ** The desktop engine ([footPressureProject_20250729/src/analyzer_engine.py]) *)

Module Desktop.

(** The converter of the desktop engine has no case for tuples. *)
Fixpoint convert_numpy_to_native (data : pyval) : pyval :=
  match data with
  | PyDict items =>
      PyDict (map (fun kv => let '(key, value) := kv in
                             (key, convert_numpy_to_native value)) items)
  | PyList l => PyList (map convert_numpy_to_native l)
  | NpGeneric x => item x
  | NpArray a => tolist a
  | _ => data
  end.

End Desktop.

(** ** The test-data scripts ([scripts/create_advanced_test_data.py]) *)

(** [str(z)] for an integer: its decimal digits, with a minus sign for a
    negative number. *)
Definition py_str (z : Z) : string := NilZero.string_of_int (Z.to_int z).

(** [sep.join(l)] *)
Fixpoint py_join (sep : string) (l : list string) : string :=
  match l with
  | [] => ""
  | [x] => x
  | x :: rest => x +:+ sep +:+ py_join sep rest
  end.

(** [create_json_data] of the test-data scripts, up to the document it
    dumps: the rows of [pressure_matrix.astype(int)], joined by [", "]
    and keyed [Row_0], [Row_1], ... *)
Definition create_json_data (pressure_matrix : list (list Q)) : json :=
  JDict [("FrameCounter"%string, JInt 1);
         ("RawPressureByRows"%string,
          JDict (imap (fun i row =>
                         ("Row_" +:+ py_str (Z.of_nat i),
                          JStr (py_join ", " (map (fun v => py_str (int_of_Q v)) row))))
                   pressure_matrix))].

(** ** The float64 operations of the engine, bit for bit

    The definitions of this module compute with IEEE binary64 values as
    numpy does.  They are used to check, on the range of values a
    pressure mat produces, that the exact arithmetic used above takes the
    same decisions as the floating-point code. *)

Module Float64.

(** [float(z)] for an integer below 2^53. *)
Definition of_Z (z : Z) : float := PrimFloat.of_uint63 (Uint63.of_Z z).

(** [int(x)]: truncation toward zero of a finite float. *)
Definition to_int (x : float) : Z :=
  match Prim2SF x with
  | S754_finite s m e =>
      let magnitude := if 0 <=? e then Z.pos m * 2 ^ e else Z.pos m / 2 ^ (- e) in
      if s then - magnitude else magnitude
  | _ => 0
  end.

(** [int(height * hind_ratio)] and [int(height * mid_ratio)] of
    [_get_foot_zone_indices]. *)
Definition hind_rows (height : Z) : Z := to_int (PrimFloat.mul (of_Z height) 0.3%float).
Definition mid_rows (height : Z) : Z := to_int (PrimFloat.mul (of_Z height) 0.4%float).

(** [_classify_arch] on a float64 ratio. *)
Definition classify (ratio : float) : string :=
  if PrimFloat.leb ratio 0.21%float then HIGH_ARCH
  else if PrimFloat.leb ratio 0.26%float then NORMAL
  else FLAT_FOOT.

(** [(obj_max_col - obj_min_col) > cols / 3] *)
Definition wider_than_third (width cols : Z) : bool :=
  PrimFloat.ltb (PrimFloat.div (of_Z cols) (of_Z 3)) (of_Z width).

(** [(zone_sum / foot_total) * 100] *)
Definition percentage (zone_sum foot_total : Z) : float :=
  PrimFloat.mul (PrimFloat.div (of_Z zone_sum) (of_Z foot_total)) 100%float.

(** The three percentages of a foot lie in [0, 100] and their sum is
    within 1e-6 of 100. *)
Definition percentages_ok (hind_sum mid_sum fore_sum : Z) : bool :=
  let total := hind_sum + mid_sum + fore_sum in
  let h := percentage hind_sum total in
  let m := percentage mid_sum total in
  let f := percentage fore_sum total in
  let sum := PrimFloat.add (PrimFloat.add h m) f in
  forallb (fun p => PrimFloat.leb 0%float p && PrimFloat.leb p 100%float) [h; m; f]
  && PrimFloat.leb (PrimFloat.abs (PrimFloat.sub sum 100%float)) 0.000001%float.

End Float64.

(** ** Sample inputs *)

(** A JSON document whose rows are the given comma-separated strings,
    keyed [Row_0], [Row_1], ... (at most ten rows). *)
Definition row_name (i : nat) : string :=
  "Row_" +:+ String (ascii_of_nat (48 + i)) EmptyString.

Definition document (rows : list string) : json :=
  JDict [("RawPressureByRows"%string,
          JDict (imap (fun i s => (row_name i, JStr s)) rows))].

(** A cleaned grid in which two touching feet form one blob across the
    midline of six columns. *)
Definition merged_blob : grid :=
  [[0; 0; 0; 0; 0; 0];
   [0; 9; 8; 7; 9; 0];
   [0; 9; 8; 7; 9; 0];
   [0; 9; 8; 7; 9; 0];
   [0; 9; 8; 7; 9; 0];
   [0; 0; 0; 0; 0; 0]].

(** A raw frame: a 3x3 block of readings, an isolated reading and a
    sub-threshold reading. *)
Definition noisy_frame : grid :=
  [[9; 9; 9; 0; 0; 0];
   [9; 9; 9; 0; 7; 0];
   [9; 9; 9; 0; 0; 0];
   [0; 0; 0; 0; 0; 3]].

(** An upload of a 10x10 frame without any pressure. *)
Definition zero_document : json :=
  document (replicate 10 "0, 0, 0, 0, 0, 0, 0, 0, 0, 0"%string).

(** An upload in which two feet of four rows touch at the midline. *)
Definition two_feet_document : json :=
  document ["0, 0, 0, 0, 0, 0"; "0, 9, 8, 7, 9, 0"; "0, 9, 8, 7, 9, 0";
            "0, 9, 8, 7, 9, 0"; "0, 9, 8, 7, 9, 0"; "0, 0, 0, 0, 0, 0"]%string.

(** The zones of the bounding box of rows 1 to 4. *)
Definition zones_1_4 : Zones :=
  {| hind := {| Ndimage.start := 1; Ndimage.stop := 2 |};
     mid := {| Ndimage.start := 2; Ndimage.stop := 3 |};
     fore := {| Ndimage.start := 3; Ndimage.stop := 5 |} |}.

(** A mask in the shape of a U: one component that a raster scan meets
    as two separate columns first. *)
Definition u_shape : mask :=
  [[true; false; true];
   [true; false; true];
   [true; true; true]].

(** Two blocks that touch only at a corner: two components. *)
Definition corner_blocks : mask :=
  [[true; true; false; false];
   [true; true; false; false];
   [false; false; true; true];
   [false; false; true; true]].

(** A cleaned grid with one foot on each side of the midline. *)
Definition feet_apart : grid :=
  [[9; 9; 0; 0; 0; 0];
   [9; 9; 0; 0; 8; 8];
   [0; 0; 0; 0; 8; 8]].

(** A raw frame of two rows. *)
Definition thin_frame : grid :=
  [[9; 9; 9; 9];
   [9; 9; 9; 9]].

(** An upload of that frame. *)
Definition thin_document : json :=
  document ["9, 9, 9, 9"; "9, 9, 9, 9"]%string.

(** A matrix of float readings as the test-data scripts build them. *)
Definition generated_matrix : list (list Q) :=
  [[inject_Z 0; 15 # 2; inject_Z 12];
   [inject_Z 9; inject_Z 0; 7 # 4]].

(** The rows of an upload whose members are not in the order of their
    numbers, and the same rows in order. *)
Definition rows_10_2 : list (string * json) :=
  [("Row_10"%string, JStr "3, 4"); ("Row_2"%string, JStr "1, 2")].

Definition rows_2_10 : list (string * json) :=
  [("Row_2"%string, JStr "1, 2"); ("Row_10"%string, JStr "3, 4")].

(** An upload whose row identifier has no underscore. *)
Definition unnumbered_document : json :=
  JDict [("RawPressureByRows"%string, JDict [("Row0"%string, JStr "1, 2")])].

(** A result that holds numpy values: a list of [np.int64] and an
    array. *)
Definition numpy_results : pyval :=
  PyDict [("rows_with_pressure"%string, PyList [NpGeneric (SInt 1); NpGeneric (SInt 4)]);
          ("pressure_data"%string,
           NpArray (NdSeq [NdSeq [Nd0 (SInt 0); Nd0 (SInt 9)];
                           NdSeq [Nd0 (SInt 8); Nd0 (SInt 0)]]))].

(** The upload [two_feet_document] with every reading doubled. *)
Definition two_feet_doubled : json :=
  document ["0, 0, 0, 0, 0, 0"; "0, 18, 16, 14, 18, 0"; "0, 18, 16, 14, 18, 0";
            "0, 18, 16, 14, 18, 0"; "0, 18, 16, 14, 18, 0"; "0, 0, 0, 0, 0, 0"]%string.

(** ** Predicates on arrays used in the statements *)

(** All cells are non-negative: as a property of the cells read by
    [at2], and as a test on the rows. *)
Definition nonneg (a : grid) : Prop := forall r c, 0 <= at2 0 a r c.

Definition all_nonneg (a : grid) : bool := forallb (forallb (Z.leb 0)) a.

(** [b] is a proper 2-D array of the shape of [a]. *)
Definition shaped {A B} (a : list (list A)) (b : list (list B)) : Prop :=
  rectangular b = true /\ nrows b = nrows a /\ ncols b = ncols a.

(** All cells are zero. *)
Definition all_zero (a : grid) : bool := forallb (forallb (Z.eqb 0)) a.

(** Two cells that share an edge. *)
Definition adjacent (p q : Z * Z) : Prop :=
  (p.1 = q.1 /\ (p.2 = q.2 + 1 \/ q.2 = p.2 + 1))
  \/ (p.2 = q.2 /\ (p.1 = q.1 + 1 \/ q.1 = p.1 + 1)).

(** [q] is reached from [p] by steps between adjacent foreground cells. *)
Inductive connected (m : mask) : Z * Z -> Z * Z -> Prop :=
| connected_refl p :
    at2 false m p.1 p.2 = true -> connected m p p
| connected_step p q r :
    connected m p q -> adjacent q r -> at2 false m r.1 r.2 = true ->
    connected m p r.

(** The foreground is not empty and any two of its cells are connected:
    the mask is exactly one (4-connected) component. *)
Definition one_component (m : mask) : Prop :=
  (exists p, at2 false m p.1 p.2 = true)
  /\ forall p q, at2 false m p.1 p.2 = true -> at2 false m q.1 q.2 = true ->
                 connected m p q.

(** The number of cells of a mask. *)
Definition count_cells (m : mask) : nat :=
  length (List.filter (fun p => at2 false m p.1 p.2) (indices (nrows m) (ncols m))).

(** The two masks of the general case of [_separate_feet] after the
    labels [1 .. k] have been assigned (the loop of lines 207-211 stopped
    after [k] rounds). *)
Definition assign_upto (array : grid) (labeled_array : labels) (mid_col : Z)
    (k : nat) : mask * mask :=
  fold_left (assign_step labeled_array mid_col)
    (map (fun i => (i, Ndimage.center_of_mass_label array labeled_array (S i))) (seq 0 k))
    (tabulate (nrows array) (ncols array) (fun _ _ => false),
     tabulate (nrows array) (ncols array) (fun _ _ => false)).

(** The invariant of the raster scan of [label]: the labelled array has
    the shape of the input, labels stay within [0, n], only foreground
    cells are labelled, and the cells in [seen] that are foreground are
    labelled. *)
Definition label_inv (input : mask) (seen : Z * Z -> Prop) (acc : labels * nat) : Prop :=
  shaped input acc.1
  /\ (forall r c, (at2 0%nat acc.1 r c <= acc.2)%nat)
  /\ (forall r c, at2 0%nat acc.1 r c <> 0%nat -> at2 false input r c = true)
  /\ (forall r c, seen (r, c) -> at2 false input r c = true ->
                  at2 0%nat acc.1 r c <> 0%nat).

(** The 3x3 window centred at [(r0, c0)] lies inside the array and all
    its readings exceed [t]. *)
Definition block_above (t : Z) (a : grid) (r0 c0 : Z) : Prop :=
  forall dr dc, -1 <= dr <= 1 -> -1 <= dc <= 1 -> t < at2 0 a (r0 + dr) (c0 + dc).

(** The cell [(r, c)] belongs to such a window. *)
Definition covered (t : Z) (a : grid) (r c : Z) : Prop :=
  exists r0 c0, r0 - 1 <= r <= r0 + 1 /\ c0 - 1 <= c <= c0 + 1 /\ block_above t a r0 c0.

(** The entry that [_analyze_foot_type] writes for a foot, next to the
    midfoot percentage [pct] of the same side in the distribution: the
    no-data entry for a foot without pressure, and otherwise the arch
    index (the midfoot share of the foot's pressure) with its type and
    score. *)
Definition foot_entry (foot_array : grid) (zones : Zones) (e : FootType)
    (pct : option Q) : Prop :=
  if np_sum foot_array =? 0
  then e = {| ft_type := NO_DATA; ft_value := inject_Z 0; ft_score := inject_Z 0 |}
       /\ pct = None
  else
    ft_value e =
      Qdiv (inject_Z (np_sum (row_slice foot_array (Ndimage.start (mid zones))
                                (Ndimage.stop (mid zones)))))
           (inject_Z (np_sum foot_array))
    /\ (inject_Z 0 <= ft_value e <= inject_Z 1)%Q
    /\ ft_type e = _classify_arch (ft_value e)
    /\ ft_score e = _calculate_arch_score (ft_value e)
    /\ pct = Some (Qmult (ft_value e) (inject_Z 100)).

(** A character of a decimal numeral. *)
Definition numeral_char (c : ascii) : bool :=
  Ascii.eqb c "-" || (Nat.leb 48 (nat_of_ascii c) && Nat.leb (nat_of_ascii c) 57).

(** No numpy scalar or array occurs in the value. *)
Fixpoint is_native (v : pyval) : bool :=
  match v with
  | PyDict items => forallb (fun kv => let '(_, value) := kv in is_native value) items
  | PyList l => forallb is_native l
  | PyTuple l => forallb is_native l
  | NpGeneric _ => false
  | NpArray _ => false
  | _ => true
  end.

(** No tuple occurs in the value. *)
Fixpoint tuple_free (v : pyval) : bool :=
  match v with
  | PyDict items => forallb (fun kv => let '(_, value) := kv in tuple_free value) items
  | PyList l => forallb tuple_free l
  | PyTuple _ => false
  | _ => true
  end.

(** The calls that draw the zone boundaries and the centre of pressure. *)
Definition zone_lines (zones : Zones) : list artist :=
  [axhline (Qminus (inject_Z (Ndimage.start (mid zones))) (1 # 2)) "white" "--" (inject_Z 1);
   axhline (Qminus (inject_Z (Ndimage.start (fore zones))) (1 # 2)) "white" "--" (inject_Z 1)].

Definition cop_marker (p : Q * Q) : list artist :=
  [plot p.2 p.1 Style.COP_MARKER Style.COP_COLOR Style.COP_MARKER_SIZE 2].

(** The array [a * k]. *)
Definition scale (k : Z) (a : grid) : grid := map (map (fun v => v * k)) a.

(** Every reading is zero (or below) or above the noise threshold. *)
Definition clear_of_noise (a : grid) : bool :=
  forallb (forallb (fun v => (v <=? 0) || (Config.noise_threshold <? v))) a.

(** Two points, or two foot-type entries, with the same values. *)
Definition same_point (p q : Q * Q) : Prop := (p.1 == q.1)%Q /\ (p.2 == q.2)%Q.

Definition same_entry (e1 e2 : FootType) : Prop :=
  ft_type e1 = ft_type e2
  /\ (ft_value e1 == ft_value e2)%Q
  /\ (ft_score e1 == ft_score e2)%Q.

(** * Properties *)

(** ** Tactics *)

(** Boolean comparisons in hypotheses become propositions. *)
Ltac zb :=
  repeat match goal with
  | H : (_ && _) = true |- _ => apply andb_true_iff in H; destruct H
  | H : (_ || _) = false |- _ => apply orb_false_iff in H; destruct H
  | H : negb _ = true |- _ => apply negb_true_iff in H
  | H : negb _ = false |- _ => apply negb_false_iff in H
  | H : (_ <=? _) = true |- _ => apply Z.leb_le in H
  | H : (_ <=? _) = false |- _ => apply Z.leb_gt in H
  | H : (_ <? _) = true |- _ => apply Z.ltb_lt in H
  | H : (_ <? _) = false |- _ => apply Z.ltb_ge in H
  | H : (_ =? _) = true |- _ => apply Z.eqb_eq in H
  | H : (_ =? _) = false |- _ => apply Z.eqb_neq in H
  | H : Nat.eqb _ _ = true |- _ => apply Nat.eqb_eq in H
  | H : Nat.eqb _ _ = false |- _ => apply Nat.eqb_neq in H
  end.

(** Projections of an analyzer built by the setters. *)
Ltac proj_simpl :=
  cbn [filename json_data pressure_array cleaned_array left_foot right_foot
       distribution foot_types final_bbox pressure_data cop analysis_results
       error_message set_pressure_array set_pressure_data set_cleaned_array
       set_feet set_distribution set_foot_types set_final_bbox set_cop
       set_analysis_results set_error_message fst snd] in *.

(** The cases of a lookup in a dictionary built by insertions. *)
Ltac insert_cases H :=
  repeat (apply lookup_insert_Some in H; destruct H as [[_ <-] | [_ H]]);
  try (rewrite lookup_empty in H; discriminate H).

(** ** Arrays *)

Section Arrays.

Context {A : Type}.
Implicit Types (a b : list (list A)) (d : A).

Lemma in_bounds_spec R C r c :
  in_bounds R C r c = true <-> 0 <= r < Z.of_nat R /\ 0 <= c < Z.of_nat C.
Proof.
  unfold in_bounds. rewrite !andb_true_iff, !Z.leb_le, !Z.ltb_lt. lia.
Qed.

Lemma nth_map_seq {B} (g : nat -> B) (n i : nat) (e : B) :
  (i < n)%nat -> nth i (map g (seq 0 n)) e = g i.
Proof.
  intros Hi. rewrite nth_indep with (d' := g 0%nat) by (rewrite length_map, length_seq; lia).
  rewrite map_nth. f_equal. rewrite seq_nth; lia.
Qed.

Lemma at2_tabulate d R C (f : Z -> Z -> A) r c :
  at2 d (tabulate R C f) r c = if in_bounds R C r c then f r c else d.
Proof.
  unfold at2, tabulate.
  destruct (in_bounds R C r c) eqn:Hb.
  - apply in_bounds_spec in Hb. destruct Hb as [[Hr0 Hr] [Hc0 Hc]].
    destruct (Z.leb_spec 0 r), (Z.leb_spec 0 c); try lia. simpl.
    rewrite nth_map_seq by lia. rewrite nth_map_seq by lia.
    rewrite !Z2Nat.id by lia. reflexivity.
  - destruct (Z.leb_spec 0 r), (Z.leb_spec 0 c); simpl; try reflexivity.
    destruct (Nat.lt_ge_cases (Z.to_nat r) R) as [Hr | Hr].
    + rewrite nth_map_seq by lia.
      destruct (Nat.lt_ge_cases (Z.to_nat c) C) as [Hc | Hc].
      * assert (in_bounds R C r c = true) by (apply in_bounds_spec; lia). congruence.
      * apply nth_overflow. rewrite length_map, length_seq. lia.
    + rewrite (nth_overflow (map _ _)) by (rewrite length_map, length_seq; lia).
      destruct (Z.to_nat c); reflexivity.
Qed.

Lemma nrows_tabulate R C (f : Z -> Z -> A) : nrows (tabulate R C f) = R.
Proof. unfold nrows, tabulate. rewrite length_map, length_seq. reflexivity. Qed.

Lemma ncols_tabulate R C (f : Z -> Z -> A) :
  ncols (tabulate R C f) = match R with O => 0%nat | S _ => C end.
Proof.
  unfold ncols, tabulate. destruct R; simpl; [reflexivity|].
  rewrite length_map, length_seq. reflexivity.
Qed.

Lemma rectangular_spec a :
  rectangular a = true <-> (forall row, In row a -> length row = ncols a).
Proof.
  unfold rectangular. rewrite forallb_forall. split; intros H row Hin.
  - apply Nat.eqb_eq. auto.
  - apply Nat.eqb_eq. auto.
Qed.

Lemma rectangular_tabulate R C (f : Z -> Z -> A) : rectangular (tabulate R C f) = true.
Proof.
  apply rectangular_spec. intros row Hin. rewrite ncols_tabulate.
  unfold tabulate in Hin. apply in_map_iff in Hin. destruct Hin as [i [<- Hi]].
  rewrite length_map, length_seq. apply in_seq in Hi. destruct R; [lia | reflexivity].
Qed.

(** Outside its bounds an array reads as the default. *)
Lemma at2_outside d a r c :
  rectangular a = true -> in_bounds (nrows a) (ncols a) r c = false -> at2 d a r c = d.
Proof.
  intros Hrect Hb. unfold at2.
  destruct (Z.leb_spec 0 r), (Z.leb_spec 0 c); simpl; try reflexivity.
  destruct (Nat.lt_ge_cases (Z.to_nat r) (nrows a)) as [Hr | Hr].
  - assert (Hlen : length (nth (Z.to_nat r) a []) = ncols a).
    { apply (proj1 (rectangular_spec a) Hrect). apply nth_In. exact Hr. }
    apply nth_overflow. rewrite Hlen.
    destruct (Nat.lt_ge_cases (Z.to_nat c) (ncols a)) as [Hc | Hc]; [|lia].
    assert (in_bounds (nrows a) (ncols a) r c = true) by (apply in_bounds_spec; lia).
    congruence.
  - rewrite (nth_overflow a) by exact Hr. destruct (Z.to_nat c); reflexivity.
Qed.

(** A rectangular array is the table of its cells. *)
Lemma tabulate_at2 d a :
  rectangular a = true -> tabulate (nrows a) (ncols a) (at2 d a) = a.
Proof.
  intros Hrect. unfold tabulate, nrows.
  apply nth_ext with (d := []) (d' := []).
  - rewrite length_map, length_seq. reflexivity.
  - intros i Hi. rewrite length_map, length_seq in Hi.
    rewrite nth_map_seq by exact Hi.
    assert (Hlen : length (nth i a []) = ncols a).
    { apply (proj1 (rectangular_spec a) Hrect). apply nth_In. exact Hi. }
    apply nth_ext with (d := d) (d' := d).
    + rewrite length_map, length_seq. symmetry. exact Hlen.
    + intros j Hj. rewrite length_map, length_seq in Hj.
      rewrite nth_map_seq by exact Hj. unfold at2.
      destruct (Z.leb_spec 0 (Z.of_nat i)), (Z.leb_spec 0 (Z.of_nat j)); try lia.
      simpl. rewrite !Nat2Z.id. reflexivity.
Qed.

(** Two rectangular arrays of one shape with the same cells are equal. *)
Lemma array_ext d a b :
  rectangular a = true -> rectangular b = true ->
  nrows a = nrows b -> ncols a = ncols b ->
  (forall r c, in_bounds (nrows a) (ncols a) r c = true -> at2 d a r c = at2 d b r c) ->
  a = b.
Proof.
  intros Ha Hb Hr Hc Hcell.
  rewrite <- (tabulate_at2 d a Ha), <- (tabulate_at2 d b Hb), <- Hr, <- Hc.
  unfold tabulate. apply map_ext_in. intros i Hi. apply map_ext_in. intros j Hj.
  apply Hcell. apply in_bounds_spec. apply in_seq in Hi. apply in_seq in Hj. lia.
Qed.

Lemma tabulate_ext R C (f g : Z -> Z -> A) :
  (forall r c, in_bounds R C r c = true -> f r c = g r c) ->
  tabulate R C f = tabulate R C g.
Proof.
  intros H. unfold tabulate. apply map_ext_in. intros i Hi. apply map_ext_in.
  intros j Hj. apply H. apply in_bounds_spec. apply in_seq in Hi. apply in_seq in Hj. lia.
Qed.

End Arrays.

(** ** Element-wise operations and sums *)

Lemma nth_map_default {A B} (f : A -> B) (l : list A) (n : nat) (d : A) (e : B) :
  e = f d -> nth n (map f l) e = f (nth n l d).
Proof. intros ->. apply map_nth. Qed.

Lemma at2_map {A B} (f : A -> B) (d : A) (a : list (list A)) r c :
  at2 (f d) (map (map f) a) r c = f (at2 d a r c).
Proof.
  unfold at2. destruct ((0 <=? r) && (0 <=? c)); [|reflexivity].
  rewrite (nth_map_default (map f) a _ []) by reflexivity. apply map_nth.
Qed.

Lemma nrows_map {A B} (f : A -> B) (a : list (list A)) :
  nrows (map (map f) a) = nrows a.
Proof. unfold nrows. apply length_map. Qed.

Lemma ncols_map {A B} (f : A -> B) (a : list (list A)) :
  ncols (map (map f) a) = ncols a.
Proof. destruct a; simpl; [reflexivity | apply length_map]. Qed.

Lemma rectangular_map {A B} (f : A -> B) (a : list (list A)) :
  rectangular a = true -> rectangular (map (map f) a) = true.
Proof.
  intros Ha. apply rectangular_spec. intros row Hin.
  apply in_map_iff in Hin. destruct Hin as [row' [<- Hin]].
  rewrite length_map, ncols_map. apply (proj1 (rectangular_spec a) Ha). exact Hin.
Qed.

Lemma nth_zip_with {A B C} (f : A -> B -> C) (l : list A) (k : list B) n d1 d2 :
  (forall x, f x d2 = f d1 d2) -> (forall y, f d1 y = f d1 d2) ->
  nth n (zip_with f l k) (f d1 d2) = f (nth n l d1) (nth n k d2).
Proof.
  intros H1 H2. revert k n. induction l as [|x l IH]; intros k n.
  - simpl. destruct n; simpl; symmetry; apply H2.
  - destruct k as [|y k]; simpl.
    + destruct n; simpl; symmetry; apply H1.
    + destruct n; simpl; [reflexivity | apply IH].
Qed.

Lemma at2_mul_mask (a : grid) (m : mask) r c :
  at2 0 (mul_mask a m) r c = at2 0 a r c * Z.b2z (at2 false m r c).
Proof.
  unfold at2, mul_mask. destruct ((0 <=? r) && (0 <=? c)); [|reflexivity].
  set (g := fun v (b : bool) => v * Z.b2z b).
  change (@nil Z) with (zip_with g [] []).
  rewrite nth_zip_with.
  - change 0 with (g 0 false) at 1. rewrite nth_zip_with; [reflexivity | |].
    + intros x. unfold g. simpl. lia.
    + intros y. unfold g. simpl. lia.
  - intros x. destruct x; reflexivity.
  - intros y. reflexivity.
Qed.

Lemma nrows_mul_mask (a : grid) (m : mask) :
  nrows m = nrows a -> nrows (mul_mask a m) = nrows a.
Proof. unfold nrows, mul_mask. intros H. rewrite length_zip_with. lia. Qed.

Lemma rectangular_mul_mask (a : grid) (m : mask) :
  rectangular a = true -> rectangular m = true ->
  nrows m = nrows a -> ncols m = ncols a ->
  rectangular (mul_mask a m) = true /\ ncols (mul_mask a m) = ncols a.
Proof.
  intros Ha Hm Hr Hc.
  assert (Hrows : forall row, In row (mul_mask a m) -> length row = ncols a).
  { intros row Hin. unfold mul_mask in Hin.
    apply In_nth with (d := []) in Hin. destruct Hin as [i [Hi <-]].
    rewrite length_zip_with in Hi.
    set (g := fun v (b : bool) => v * Z.b2z b).
    change (@nil Z) with (zip_with g [] []).
    rewrite nth_zip_with; [| intros x; destruct x; reflexivity | reflexivity].
    rewrite length_zip_with.
    rewrite (proj1 (rectangular_spec a) Ha (nth i a [])) by (apply nth_In; unfold nrows in *; lia).
    rewrite (proj1 (rectangular_spec m) Hm (nth i m [])) by (apply nth_In; unfold nrows in *; lia).
    lia. }
  assert (Hcols : ncols (mul_mask a m) = ncols a).
  { destruct a as [|ra a'], m as [|rm m']; simpl in *; try reflexivity; try discriminate.
    rewrite length_zip_with. lia. }
  split; [|exact Hcols].
  apply rectangular_spec. intros row Hin. rewrite Hcols. auto.
Qed.

Lemma cell_of_In {A} (d : A) (a : list (list A)) row v :
  In row a -> In v row -> exists r c, at2 d a r c = v /\ 0 <= r /\ 0 <= c.
Proof.
  intros Hrow Hv.
  apply In_nth with (d := []) in Hrow. destruct Hrow as [i [Hi Hrow]].
  apply In_nth with (d := d) in Hv. destruct Hv as [j [Hj Hv]].
  exists (Z.of_nat i), (Z.of_nat j). unfold at2.
  destruct (Z.leb_spec 0 (Z.of_nat i)), (Z.leb_spec 0 (Z.of_nat j)); try lia.
  simpl. rewrite !Nat2Z.id, Hrow, Hv. repeat split; lia.
Qed.

Lemma zsum_nonneg (l : list Z) : (forall v, In v l -> 0 <= v) -> 0 <= zsum l.
Proof.
  induction l as [|x l IH]; simpl; intros H; [lia|].
  assert (0 <= x) by (apply H; left; reflexivity).
  assert (0 <= zsum l) by (apply IH; intros v Hv; apply H; right; exact Hv).
  lia.
Qed.

Lemma zsum_ge_nth (l : list Z) (n : nat) :
  (forall v, In v l -> 0 <= v) -> nth n l 0 <= zsum l.
Proof.
  revert n. induction l as [|x l IH]; intros n H; simpl.
  - destruct n; lia.
  - assert (0 <= x) by (apply H; left; reflexivity).
    assert (Hl : forall v, In v l -> 0 <= v) by (intros v Hv; apply H; right; exact Hv).
    pose proof (zsum_nonneg l Hl). destruct n; [lia|].
    specialize (IH n Hl). lia.
Qed.

Lemma zsum_zero (l : list Z) : (forall v, In v l -> v = 0) -> zsum l = 0.
Proof.
  induction l as [|x l IH]; simpl; intros H; [reflexivity|].
  rewrite (H x) by (left; reflexivity). rewrite IH; [reflexivity|].
  intros v Hv. apply H. right. exact Hv.
Qed.

Lemma row_sums_nonneg (a : grid) :
  nonneg a -> forall s, In s (map zsum a) -> 0 <= s.
Proof.
  intros Ha s Hs. apply in_map_iff in Hs. destruct Hs as [row [<- Hrow]].
  apply zsum_nonneg. intros v Hv.
  destruct (cell_of_In 0 a row v Hrow Hv) as [r [c [<- _]]]. apply Ha.
Qed.

Lemma np_sum_nonneg (a : grid) : nonneg a -> 0 <= np_sum a.
Proof. intros Ha. apply zsum_nonneg. apply row_sums_nonneg. exact Ha. Qed.

(** The sum of a non-negative array bounds each of its cells. *)
Lemma np_sum_ge_cell (a : grid) r c : nonneg a -> at2 0 a r c <= np_sum a.
Proof.
  intros Ha. pose proof (np_sum_nonneg a Ha) as Hsum.
  unfold at2. destruct ((0 <=? r) && (0 <=? c)); [|exact Hsum].
  set (i := Z.to_nat r). set (j := Z.to_nat c).
  destruct (Nat.lt_ge_cases i (length a)) as [Hi | Hi].
  - transitivity (zsum (nth i a [])).
    + apply zsum_ge_nth. intros v Hv.
      destruct (cell_of_In 0 a (nth i a []) v (nth_In a [] Hi) Hv) as [r' [c' [<- _]]].
      apply Ha.
    + unfold np_sum. rewrite <- (map_nth zsum a [] i).
      change (zsum []) with 0. apply zsum_ge_nth. apply row_sums_nonneg. exact Ha.
  - rewrite (nth_overflow a) by exact Hi. destruct j; exact Hsum.
Qed.

Lemma np_sum_zero (a : grid) : (forall r c, at2 0 a r c = 0) -> np_sum a = 0.
Proof.
  intros Ha. apply zsum_zero. intros s Hs.
  apply in_map_iff in Hs. destruct Hs as [row [<- Hrow]].
  apply zsum_zero. intros v Hv.
  destruct (cell_of_In 0 a row v Hrow Hv) as [r [c [<- _]]]. apply Ha.
Qed.

Lemma at2_forall {A} (P : A -> Prop) (d : A) (a : list (list A)) :
  P d -> (forall row, In row a -> forall v, In v row -> P v) ->
  forall r c, P (at2 d a r c).
Proof.
  intros Hd H r c. unfold at2. destruct ((0 <=? r) && (0 <=? c)); [|exact Hd].
  destruct (Nat.lt_ge_cases (Z.to_nat r) (length a)) as [Hi | Hi].
  - pose proof (nth_In a [] Hi) as Hrow.
    destruct (Nat.lt_ge_cases (Z.to_nat c) (length (nth (Z.to_nat r) a []))) as [Hj | Hj].
    + apply (H _ Hrow). apply nth_In. exact Hj.
    + rewrite nth_overflow by exact Hj. exact Hd.
  - rewrite (nth_overflow a) by exact Hi. destruct (Z.to_nat c); exact Hd.
Qed.

Lemma all_nonneg_spec (a : grid) : all_nonneg a = true -> nonneg a.
Proof.
  unfold all_nonneg. rewrite forallb_forall. intros H r c.
  apply (at2_forall (fun v => 0 <= v) 0 a); [lia|].
  intros row Hrow v Hv. specialize (H row Hrow). rewrite forallb_forall in H.
  apply Z.leb_le. apply H. exact Hv.
Qed.

Lemma all_zero_spec (a : grid) : all_zero a = true -> forall r c, at2 0 a r c = 0.
Proof.
  unfold all_zero. rewrite forallb_forall. intros H r c.
  apply (at2_forall (fun v => v = 0) 0 a); [reflexivity|].
  intros row Hrow v Hv. specialize (H row Hrow). rewrite forallb_forall in H.
  symmetry. apply Z.eqb_eq. apply H. exact Hv.
Qed.

(** ** Zones *)

Lemma int_of_Q_scaled (h n : Z) (d : positive) :
  0 <= h -> 0 <= n -> int_of_Q (Qmult (inject_Z h) (n # d)) = (h * n) / Z.pos d.
Proof.
  intros Hh Hn. unfold int_of_Q. simpl.
  rewrite Z.quot_div_nonneg by lia. reflexivity.
Qed.

Lemma zones_of_bbox (min_r max_r total_rows : Z) :
  3 <= max_r - min_r + 1 ->
  _get_foot_zone_indices (Some (min_r, max_r)) total_rows =
  Some {| hind := {| Ndimage.start := min_r;
                     Ndimage.stop := min_r + (max_r - min_r + 1) * 3 / 10 |};
          mid := {| Ndimage.start := min_r + (max_r - min_r + 1) * 3 / 10;
                    Ndimage.stop := min_r + (max_r - min_r + 1) * 3 / 10
                                    + (max_r - min_r + 1) * 4 / 10 |};
          fore := {| Ndimage.start := min_r + (max_r - min_r + 1) * 3 / 10
                                      + (max_r - min_r + 1) * 4 / 10;
                     Ndimage.stop := max_r + 1 |} |}.
Proof.
  intros Hh. unfold _get_foot_zone_indices.
  destruct (Z.ltb_spec (max_r - min_r + 1) 3); [lia|].
  unfold Config.hindfoot_ratio, Config.midfoot_ratio.
  rewrite !int_of_Q_scaled by lia. reflexivity.
Qed.

Lemma zone_bounds (h : Z) :
  3 <= h ->
  0 <= h * 3 / 10 /\ 1 <= h * 4 / 10 /\ h * 3 / 10 + h * 4 / 10 < h /\
  (4 <= h -> 1 <= h * 3 / 10).
Proof.
  intros Hh.
  pose proof (Z.div_mod (h * 3) 10 ltac:(lia)) as E3.
  pose proof (Z.mod_pos_bound (h * 3) 10 ltac:(lia)) as B3.
  pose proof (Z.div_mod (h * 4) 10 ltac:(lia)) as E4.
  pose proof (Z.mod_pos_bound (h * 4) 10 ltac:(lia)) as B4.
  repeat split; try lia.
Qed.

(** C4, the claim at its smallest bounding box: with three rows the
    hindfoot zone is empty, so [hind.start < hind.stop] fails. *)
Lemma zone_chain_fails_for_three_rows :
  3 <= 2 - 0 + 1 /\
  exists zones,
    _get_foot_zone_indices (Some (0, 2)) 3 = Some zones /\
    ~ (Ndimage.start (hind zones) < Ndimage.stop (hind zones)
       /\ Ndimage.stop (hind zones) <= Ndimage.start (mid zones)
       /\ Ndimage.start (mid zones) < Ndimage.stop (mid zones)
       /\ Ndimage.stop (mid zones) <= Ndimage.start (fore zones)
       /\ Ndimage.start (fore zones) < Ndimage.stop (fore zones)
       /\ Ndimage.stop (hind zones) = Ndimage.start (mid zones)
       /\ Ndimage.stop (mid zones) = Ndimage.start (fore zones)
       /\ Ndimage.stop (fore zones) = 2 + 1).
Proof.
  split; [lia|].
  exists {| hind := {| Ndimage.start := 0; Ndimage.stop := 0 |};
            mid := {| Ndimage.start := 0; Ndimage.stop := 1 |};
            fore := {| Ndimage.start := 1; Ndimage.stop := 3 |} |}.
  split; [reflexivity|]. simpl. lia.
Qed.

(** C4 (amended): for a bounding box of at least three rows the zones are
    defined and ordered [hind.start <= hind.stop <= mid.start < mid.stop
    <= fore.start < fore.stop], with [hind.stop = mid.start],
    [mid.stop = fore.start] and [fore.stop = max_row + 1]; the hindfoot
    zone is non-empty, [hind.start < hind.stop], as soon as the box has
    four rows. *)
Theorem zone_monotonicity (min_r max_r total_rows : Z) :
  3 <= max_r - min_r + 1 ->
  exists zones,
    _get_foot_zone_indices (Some (min_r, max_r)) total_rows = Some zones
    /\ Ndimage.start (hind zones) <= Ndimage.stop (hind zones)
    /\ Ndimage.stop (hind zones) <= Ndimage.start (mid zones)
    /\ Ndimage.start (mid zones) < Ndimage.stop (mid zones)
    /\ Ndimage.stop (mid zones) <= Ndimage.start (fore zones)
    /\ Ndimage.start (fore zones) < Ndimage.stop (fore zones)
    /\ Ndimage.stop (hind zones) = Ndimage.start (mid zones)
    /\ Ndimage.stop (mid zones) = Ndimage.start (fore zones)
    /\ Ndimage.stop (fore zones) = max_r + 1
    /\ (4 <= max_r - min_r + 1 ->
        Ndimage.start (hind zones) < Ndimage.stop (hind zones)).
Proof.
  intros Hh. eexists. split; [apply zones_of_bbox; exact Hh|]. simpl.
  destruct (zone_bounds (max_r - min_r + 1) Hh) as (H3 & H4 & Hlt & H3').
  repeat split; lia.
Qed.

Lemma zone_monotonicity_witness :
  exists zones,
    _get_foot_zone_indices (Some (0, 9)) 10 = Some zones
    /\ Ndimage.start (hind zones) <= Ndimage.stop (hind zones)
    /\ Ndimage.stop (hind zones) <= Ndimage.start (mid zones)
    /\ Ndimage.start (mid zones) < Ndimage.stop (mid zones)
    /\ Ndimage.stop (mid zones) <= Ndimage.start (fore zones)
    /\ Ndimage.start (fore zones) < Ndimage.stop (fore zones)
    /\ Ndimage.stop (hind zones) = Ndimage.start (mid zones)
    /\ Ndimage.stop (mid zones) = Ndimage.start (fore zones)
    /\ Ndimage.stop (fore zones) = 9 + 1
    /\ (4 <= 9 - 0 + 1 ->
        Ndimage.start (hind zones) < Ndimage.stop (hind zones)).
Proof. apply (zone_monotonicity 0 9 10). lia. Defined.

(** ** Arch classification *)

Lemma Qle_bool_false (x y : Q) : Qle_bool x y = false <-> (y < x)%Q.
Proof.
  split; intros H.
  - apply Qnot_le_lt. intros Hle. apply Qle_bool_iff in Hle. congruence.
  - destruct (Qle_bool x y) eqn:E; [|reflexivity].
    apply Qle_bool_iff in E. exfalso. exact (Qlt_not_le _ _ H E).
Qed.

Lemma Qlt_le_absurd (x y : Q) : (x < y)%Q -> (y <= x)%Q -> False.
Proof. intros H1 H2. exact (Qlt_not_le _ _ H1 H2). Qed.

Ltac arch_case :=
  solve [ assumption | reflexivity | discriminate | split; assumption
        | exfalso; eauto using Qlt_le_absurd
        | match goal with H : _ /\ _ |- _ => destruct H end;
          exfalso; eauto using Qlt_le_absurd ].

(** C7: with the thresholds 0.21 and 0.26 the classifier answers
    high-arch exactly for [index <= 0.21], normal exactly for
    [0.21 < index <= 0.26] and flat exactly for [index > 0.26]; 0.21 is
    high-arch, 0.26 is normal and 0.2600001 is flat. *)
Theorem classify_arch_boundaries :
  (forall index : Q,
      (_classify_arch index = HIGH_ARCH <-> (index <= 21 # 100)%Q)
      /\ (_classify_arch index = NORMAL <->
          ((21 # 100) < index)%Q /\ (index <= 26 # 100)%Q)
      /\ (_classify_arch index = FLAT_FOOT <-> ((26 # 100) < index)%Q))
  /\ _classify_arch (21 # 100) = HIGH_ARCH
  /\ _classify_arch (26 # 100) = NORMAL
  /\ _classify_arch (2600001 # 10000000) = FLAT_FOOT.
Proof.
  split; [|repeat split; reflexivity].
  intros index. unfold _classify_arch, Config.high_arch, Config.normal.
  destruct (Qle_bool index (21 # 100)) eqn:E1.
  - pose proof (proj1 (Qle_bool_iff _ _) E1) as H1.
    assert (H2 : (index <= 26 # 100)%Q).
    { eapply Qle_trans; [exact H1|]. unfold Qle. simpl. lia. }
    split; [|split]; (split; intros H); arch_case.
  - pose proof (proj1 (Qle_bool_false _ _) E1) as H1.
    destruct (Qle_bool index (26 # 100)) eqn:E2.
    + pose proof (proj1 (Qle_bool_iff _ _) E2) as H2.
      split; [|split]; (split; intros H); arch_case.
    + pose proof (proj1 (Qle_bool_false _ _) E2) as H2.
      split; [|split]; (split; intros H); arch_case.
Qed.

(** ** Shapes *)

Lemma ncols_tabulate_like {A B} (a : list (list A)) (f : Z -> Z -> B) :
  ncols (tabulate (nrows a) (ncols a) f) = ncols a.
Proof. rewrite ncols_tabulate. destruct a; reflexivity. Qed.

Lemma shaped_tabulate {A B} (a : list (list A)) (f : Z -> Z -> B) :
  shaped a (tabulate (nrows a) (ncols a) f).
Proof.
  repeat split.
  - apply rectangular_tabulate.
  - apply nrows_tabulate.
  - apply ncols_tabulate_like.
Qed.

Lemma shaped_trans {A B C} (a : list (list A)) (b : list (list B)) (c : list (list C)) :
  shaped a b -> shaped b c -> shaped a c.
Proof. intros (? & ? & ?) (? & ? & ?). repeat split; congruence. Qed.

Lemma shaped_map {A B} (f : A -> B) (a : list (list A)) :
  rectangular a = true -> shaped a (map (map f) a).
Proof.
  intros Ha. repeat split.
  - apply rectangular_map. exact Ha.
  - apply nrows_map.
  - apply ncols_map.
Qed.

Lemma shaped_mul_mask (a : grid) (m : mask) :
  rectangular a = true -> shaped a m -> shaped a (mul_mask a m).
Proof.
  intros Ha (Hm & Hr & Hc).
  destruct (rectangular_mul_mask a m Ha Hm Hr Hc) as [H1 H2].
  repeat split; [exact H1 | apply nrows_mul_mask; exact Hr | exact H2].
Qed.

Lemma shaped_in_bounds {A B} (a : list (list A)) (b : list (list B)) r c :
  shaped a b -> in_bounds (nrows b) (ncols b) r c = in_bounds (nrows a) (ncols a) r c.
Proof. intros (_ & -> & ->). reflexivity. Qed.

Lemma at2_inside {A} (d : A) (a : list (list A)) r c :
  rectangular a = true -> at2 d a r c <> d -> in_bounds (nrows a) (ncols a) r c = true.
Proof.
  intros Ha Hne. destruct (in_bounds (nrows a) (ncols a) r c) eqn:E; [reflexivity|].
  exfalso. apply Hne. apply at2_outside; assumption.
Qed.

Lemma shaped_ext {A B} (d : B) (x : list (list A)) (a b : list (list B)) :
  shaped x a -> shaped x b -> (forall r c, at2 d a r c = at2 d b r c) -> a = b.
Proof.
  intros (Ha & Har & Hac) (Hb & Hbr & Hbc) Hcell.
  apply (array_ext d); [assumption | assumption | congruence | congruence |].
  intros r c _. apply Hcell.
Qed.

Lemma shaped_gt_zero (a : grid) : rectangular a = true -> shaped a (gt_zero a).
Proof. apply shaped_map. Qed.

Lemma at2_gt_zero (a : grid) r c : at2 false (gt_zero a) r c = (0 <? at2 0 a r c).
Proof. unfold gt_zero. change false with ((fun v => 0 <? v) 0). apply at2_map. Qed.

Lemma in_indices R C r c : In (r, c) (indices R C) <-> in_bounds R C r c = true.
Proof.
  unfold indices, zrange. rewrite in_flat_map, in_bounds_spec. split.
  - intros [r' [Hr Hc]]. apply in_map_iff in Hr. destruct Hr as [i [<- Hi]].
    apply in_map_iff in Hc. destruct Hc as [p [Hp Hc]]. inversion Hp; subst.
    apply in_map_iff in Hc. destruct Hc as [j [<- Hj]].
    apply in_seq in Hi. apply in_seq in Hj. lia.
  - intros [Hr Hc]. exists r. split.
    + apply in_map_iff. exists (Z.to_nat r). split; [lia|]. apply in_seq. lia.
    + apply in_map_iff. exists c. split; [reflexivity|].
      apply in_map_iff. exists (Z.to_nat c). split; [lia|]. apply in_seq. lia.
Qed.

(** ** Labelling *)

Section Labelling.

Variable input : mask.
Hypothesis input_rect : rectangular input = true.

Lemma at2_grow region r c :
  at2 false (Ndimage.grow input region) r c =
  at2 false input r c &&
  (at2 false region r c ||
   existsb (fun d => at2 false region (r + d.1) (c + d.2)) Ndimage.cross).
Proof.
  unfold Ndimage.grow. rewrite at2_tabulate.
  destruct (in_bounds (nrows input) (ncols input) r c) eqn:E; [reflexivity|].
  rewrite (at2_outside false input r c input_rect E). reflexivity.
Qed.

Lemma flood_keeps n region r c :
  at2 false input r c = true -> at2 false region r c = true ->
  at2 false (Ndimage.flood n input region) r c = true.
Proof.
  revert region. induction n as [|n IH]; intros region Hin Hreg; simpl; [exact Hreg|].
  apply IH; [exact Hin|]. rewrite at2_grow, Hin, Hreg. reflexivity.
Qed.

Lemma flood_inside n region :
  (forall r c, at2 false region r c = true -> at2 false input r c = true) ->
  forall r c, at2 false (Ndimage.flood n input region) r c = true ->
              at2 false input r c = true.
Proof.
  revert region. induction n as [|n IH]; intros region Hsub r c; simpl; [apply Hsub|].
  apply IH. intros r' c'. rewrite at2_grow. intros H. zb. assumption.
Qed.

Lemma flood_shaped n region : shaped input region -> shaped input (Ndimage.flood n input region).
Proof.
  revert region. induction n as [|n IH]; intros region Hs; simpl; [exact Hs|].
  apply IH. apply shaped_tabulate.
Qed.

Lemma component_seed r c :
  at2 false input r c = true -> at2 false (Ndimage.component input r c) r c = true.
Proof.
  intros Hin. unfold Ndimage.component. apply flood_keeps; [exact Hin|].
  rewrite at2_tabulate.
  rewrite (at2_inside false input r c input_rect) by (rewrite Hin; discriminate).
  rewrite !Z.eqb_refl. reflexivity.
Qed.

Lemma component_inside r c :
  at2 false input r c = true ->
  forall r' c', at2 false (Ndimage.component input r c) r' c' = true ->
                at2 false input r' c' = true.
Proof.
  intros Hin. unfold Ndimage.component. apply flood_inside.
  intros r' c'. rewrite at2_tabulate.
  destruct (in_bounds (nrows input) (ncols input) r' c'); [|discriminate].
  intros H. zb. subst. exact Hin.
Qed.

Lemma label_step_inv seen acc p :
  label_inv input seen acc ->
  label_inv input (fun q => seen q \/ q = p) (Ndimage.label_step input acc p).
Proof.
  destruct acc as [lab n], p as [pr pc]. intros (Hs & Hle & Hfg & Hseen).
  unfold Ndimage.label_step. simpl in *.
  destruct (at2 false input pr pc && Nat.eqb (at2 0%nat lab pr pc) 0) eqn:E.
  - zb. rename H into Hin. rename H0 into Hzero.
    assert (Hcell : forall r c,
      at2 0%nat (tabulate (nrows input) (ncols input)
                  (fun r c => if at2 false (Ndimage.component input pr pc) r c
                              then S n else at2 0%nat lab r c)) r c =
      if at2 false (Ndimage.component input pr pc) r c then S n else at2 0%nat lab r c).
    { intros r c. rewrite at2_tabulate.
      destruct (in_bounds (nrows input) (ncols input) r c) eqn:Eb; [reflexivity|].
      destruct (at2 false (Ndimage.component input pr pc) r c) eqn:Ec.
      - apply (component_inside pr pc Hin) in Ec.
        rewrite (at2_outside false input r c input_rect Eb) in Ec. discriminate.
      - symmetry. apply at2_outside; [apply Hs|].
        rewrite (shaped_in_bounds input lab r c Hs). exact Eb. }
    repeat split; simpl.
    + apply rectangular_tabulate.
    + apply nrows_tabulate.
    + apply ncols_tabulate_like.
    + intros r c. rewrite Hcell.
      destruct (at2 false (Ndimage.component input pr pc) r c); [lia|].
      specialize (Hle r c). lia.
    + intros r c. rewrite Hcell.
      destruct (at2 false (Ndimage.component input pr pc) r c) eqn:Ec.
      * intros _. exact (component_inside pr pc Hin r c Ec).
      * apply Hfg.
    + intros r c Hq Hfgq. rewrite Hcell.
      destruct (at2 false (Ndimage.component input pr pc) r c) eqn:Ec; [lia|].
      destruct Hq as [Hq | Hq].
      * apply Hseen; assumption.
      * inversion Hq; subst. rewrite (component_seed pr pc Hin) in Ec. discriminate.
  - repeat split; simpl; try apply Hs; try assumption.
    intros r c [Hq | Hq] Hfgq; [apply Hseen; assumption|].
    inversion Hq; subst. rewrite Hfgq in E. simpl in E. zb. exact E.
Qed.

Lemma label_fold_inv cells seen acc :
  label_inv input seen acc ->
  label_inv input (fun q => seen q \/ In q cells)
    (fold_left (Ndimage.label_step input) cells acc).
Proof.
  revert seen acc. induction cells as [|p cells IH]; intros seen acc Hinv; simpl.
  - destruct Hinv as (Hs & Hle & Hfg & Hseen). repeat split; try apply Hs; try assumption.
    intros r c [Hq | []] Hfgq. apply Hseen; assumption.
  - specialize (IH _ _ (label_step_inv seen acc p Hinv)).
    destruct IH as (Hs & Hle & Hfg & Hseen). repeat split; try apply Hs; try assumption.
    intros r c Hq Hfgq. apply Hseen; [|exact Hfgq].
    destruct Hq as [Hq | [Hq | Hq]]; auto.
Qed.

(** What [label] returns: an array of the shape of the input whose cells
    are labelled from 1 to [num_features] exactly on the foreground. *)
Lemma label_spec labeled_array num_features :
  Ndimage.label input = (labeled_array, num_features) ->
  shaped input labeled_array
  /\ (forall r c, (at2 0%nat labeled_array r c <= num_features)%nat)
  /\ (forall r c, at2 0%nat labeled_array r c <> 0%nat <-> at2 false input r c = true).
Proof.
  intros Hlab. unfold Ndimage.label in Hlab.
  pose proof (label_fold_inv (indices (nrows input) (ncols input)) (fun _ => False)
                (tabulate (nrows input) (ncols input) (fun _ _ => 0%nat), 0%nat)) as H.
  rewrite Hlab in H. simpl in H.
  destruct H as (Hs & Hle & Hfg & Hseen).
  { repeat split; simpl.
    - apply rectangular_tabulate.
    - apply nrows_tabulate.
    - apply ncols_tabulate_like.
    - intros r c. rewrite at2_tabulate. destruct (in_bounds _ _ r c); lia.
    - intros r c. rewrite at2_tabulate. destruct (in_bounds _ _ r c); congruence.
    - intros r c []. }
  repeat split; try apply Hs; try assumption.
  - apply Hfg.
  - intros Hin. apply Hseen; [|exact Hin]. right. apply in_indices.
    apply (at2_inside false input r c input_rect). rewrite Hin. discriminate.
Qed.

End Labelling.

(** ** Foot separation *)

Lemma zip_seq_map {B} (f : nat -> B) (s n : nat) :
  zip (seq s n) (map f (seq s n)) = map (fun i => (i, f i)) (seq s n).
Proof.
  revert s. induction n as [|n IH]; intros s; simpl; [reflexivity|].
  f_equal. apply IH.
Qed.

Section Separation.

Variable array : grid.
Variable labeled_array : labels.
Variable num_features : nat.
Variable mid_col : Z.

Hypothesis array_rect : rectangular array = true.
Hypothesis lab_shaped : shaped array labeled_array.
Hypothesis lab_le : forall r c, (at2 0%nat labeled_array r c <= num_features)%nat.
Hypothesis lab_fg : forall r c, at2 0%nat labeled_array r c <> 0%nat <-> 0 < at2 0 array r c.

Lemma lab_in_bounds r c :
  at2 0%nat labeled_array r c <> 0%nat ->
  in_bounds (nrows labeled_array) (ncols labeled_array) r c = true.
Proof. apply at2_inside. apply lab_shaped. Qed.

Lemma at2_mark m k r c :
  at2 false (mark m labeled_array k) r c =
  in_bounds (nrows labeled_array) (ncols labeled_array) r c
  && (Nat.eqb (at2 0%nat labeled_array r c) k || at2 false m r c).
Proof.
  unfold mark. rewrite at2_tabulate.
  destruct (in_bounds (nrows labeled_array) (ncols labeled_array) r c); reflexivity.
Qed.

Lemma shaped_mark m k : shaped array (mark m labeled_array k).
Proof.
  unfold mark. eapply shaped_trans; [exact lab_shaped | apply shaped_tabulate].
Qed.

#[local] Abbreviation assign := (assign_upto array labeled_array mid_col).

Lemma assign_inv k :
  shaped array (assign k).1 /\ shaped array (assign k).2
  /\ forall r c,
       at2 false (assign k).1 r c && at2 false (assign k).2 r c = false
       /\ at2 false (assign k).1 r c || at2 false (assign k).2 r c =
          Nat.leb 1 (at2 0%nat labeled_array r c)
          && Nat.leb (at2 0%nat labeled_array r c) k.
Proof.
  induction k as [|k IH].
  - unfold assign_upto. simpl. split; [apply shaped_tabulate|]. split; [apply shaped_tabulate|].
    intros r c. rewrite !at2_tabulate. split.
    + destruct (in_bounds _ _ r c); reflexivity.
    + destruct (in_bounds _ _ r c), (at2 0%nat labeled_array r c); reflexivity.
  - destruct IH as (HsL & HsR & Hcells).
    unfold assign_upto in *. rewrite seq_S, map_app, fold_left_app. simpl.
    match goal with
    | |- context [fold_left ?g ?l ?i] => set (prev := fold_left g l i) in *
    end.
    assert (Hstep : forall m other r c,
      at2 false m r c && at2 false other r c = false ->
      at2 false m r c || at2 false other r c =
        Nat.leb 1 (at2 0%nat labeled_array r c) && Nat.leb (at2 0%nat labeled_array r c) k ->
      at2 false (mark m labeled_array (S k)) r c && at2 false other r c = false
      /\ at2 false (mark m labeled_array (S k)) r c || at2 false other r c =
         Nat.leb 1 (at2 0%nat labeled_array r c)
         && Nat.leb (at2 0%nat labeled_array r c) (S k)).
    { intros m other r c Hdis Huni. rewrite at2_mark.
      destruct (Nat.eqb (at2 0%nat labeled_array r c) (S k)) eqn:Ek.
      - apply Nat.eqb_eq in Ek. rewrite lab_in_bounds by lia.
        rewrite Ek in Huni |- *.
        assert (E1 : Nat.leb (S k) k = false) by (apply Nat.leb_gt; lia).
        rewrite E1, andb_false_r in Huni.
        apply orb_false_iff in Huni. destruct Huni as [_ Ho]. rewrite Ho.
        rewrite Nat.leb_refl. split; reflexivity.
      - apply Nat.eqb_neq in Ek. simpl.
        assert (Hm : in_bounds (nrows labeled_array) (ncols labeled_array) r c
                     && at2 false m r c = at2 false m r c).
        { destruct (at2 false m r c) eqn:Em; [|apply andb_false_r].
          rewrite orb_true_l in Huni. symmetry in Huni. zb. apply Nat.leb_le in H.
          rewrite lab_in_bounds by lia. reflexivity. }
        rewrite Hm. split; [exact Hdis|]. rewrite Huni. f_equal.
        destruct (Nat.leb_spec (at2 0%nat labeled_array r c) k),
                 (Nat.leb_spec (at2 0%nat labeled_array r c) (S k)); try reflexivity; lia. }
    unfold assign_step. destruct (Qltb _ _); simpl.
    + split; [apply shaped_mark|]. split; [exact HsR|].
      intros r c. apply Hstep; apply Hcells.
    + split; [exact HsL|]. split; [apply shaped_mark|].
      intros r c. rewrite andb_comm, orb_comm.
      apply Hstep; [rewrite andb_comm | rewrite orb_comm]; apply Hcells.
Qed.

(** The general case gives each positive cell to exactly one foot. *)
Lemma assign_by_centroid_cells :
  shaped array (assign_by_centroid array labeled_array num_features mid_col).1
  /\ shaped array (assign_by_centroid array labeled_array num_features mid_col).2
  /\ forall r c,
       let v := Z.max 0 (at2 0 array r c) in
       let l := at2 0 (assign_by_centroid array labeled_array num_features mid_col).1 r c in
       let r' := at2 0 (assign_by_centroid array labeled_array num_features mid_col).2 r c in
       (l = v /\ r' = 0) \/ (l = 0 /\ r' = v).
Proof.
  unfold assign_by_centroid. rewrite zip_seq_map.
  destruct (assign_inv num_features) as (HsL & HsR & Hcells).
  unfold assign_upto in *.
  match goal with
  | |- context [fold_left ?g ?l ?i] => set (masks := fold_left g l i) in *
  end.
  destruct masks as [left_mask right_mask] eqn:Em. cbn [fst snd] in HsL, HsR, Hcells |- *.
  split; [apply shaped_mul_mask; assumption|].
  split; [apply shaped_mul_mask; assumption|].
  intros r c. rewrite !at2_mul_mask.
  destruct (Hcells r c) as [Hdis Huni].
  pose proof (lab_le r c) as Hle. pose proof (lab_fg r c) as Hfg.
  destruct (at2 false left_mask r c), (at2 false right_mask r c);
    cbn [andb orb Z.b2z] in Hdis, Huni |- *; try discriminate.
  - symmetry in Huni. zb. apply Nat.leb_le in H. left. split; lia.
  - symmetry in Huni. zb. apply Nat.leb_le in H. right. split; lia.
  - left. symmetry in Huni. apply andb_false_iff in Huni.
    assert (at2 0%nat labeled_array r c = 0%nat).
    { destruct Huni as [H | H]; apply Nat.leb_gt in H; lia. }
    assert (~ 0 < at2 0 array r c) by (intros H'; apply Hfg in H'; lia).
    split; lia.
Qed.

(** The forced split of a single component at the midline. *)
Lemma forced_split_cells :
  num_features = 1%nat ->
  shaped array (forced_split array labeled_array mid_col).1
  /\ shaped array (forced_split array labeled_array mid_col).2
  /\ forall r c,
       at2 0 (forced_split array labeled_array mid_col).1 r c =
         (if c <? mid_col then Z.max 0 (at2 0 array r c) else 0)
       /\ at2 0 (forced_split array labeled_array mid_col).2 r c =
         (if mid_col <=? c then Z.max 0 (at2 0 array r c) else 0).
Proof.
  intros Hn. unfold forced_split. simpl.
  split; [apply shaped_mul_mask; [assumption | apply shaped_tabulate]|].
  split; [apply shaped_mul_mask; [assumption | apply shaped_tabulate]|].
  intros r c. split.
  - rewrite at2_mul_mask, at2_tabulate.
    pose proof (lab_le r c) as Hle. pose proof (lab_fg r c) as Hfg.
    destruct (in_bounds (nrows array) (ncols array) r c) eqn:Eb.
    + destruct (c <? mid_col); simpl; [|lia].
      destruct (Nat.eqb_spec (at2 0%nat labeled_array r c) 1) as [E | E]; simpl.
      * assert (0 < at2 0 array r c) by (apply Hfg; lia). lia.
      * assert (~ 0 < at2 0 array r c) by (intros H'; apply Hfg in H'; lia).
        assert (at2 0 array r c * 0 = 0) by lia. lia.
    + rewrite (at2_outside 0 array r c array_rect Eb). simpl. destruct (c <? mid_col); reflexivity.
  - rewrite at2_mul_mask, at2_tabulate.
    pose proof (lab_le r c) as Hle. pose proof (lab_fg r c) as Hfg.
    destruct (in_bounds (nrows array) (ncols array) r c) eqn:Eb.
    + destruct (mid_col <=? c); simpl; [|lia].
      destruct (Nat.eqb_spec (at2 0%nat labeled_array r c) 1) as [E | E]; simpl.
      * assert (0 < at2 0 array r c) by (apply Hfg; lia). lia.
      * assert (~ 0 < at2 0 array r c) by (intros H'; apply Hfg in H'; lia).
        assert (at2 0 array r c * 0 = 0) by lia. lia.
    + rewrite (at2_outside 0 array r c array_rect Eb). simpl. destruct (mid_col <=? c); reflexivity.
Qed.

End Separation.

Lemma label_gt_zero (array : grid) labeled_array num_features :
  rectangular array = true ->
  Ndimage.label (gt_zero array) = (labeled_array, num_features) ->
  shaped array labeled_array
  /\ (forall r c, (at2 0%nat labeled_array r c <= num_features)%nat)
  /\ (forall r c, at2 0%nat labeled_array r c <> 0%nat <-> 0 < at2 0 array r c).
Proof.
  intros Ha Hlab.
  destruct (label_spec (gt_zero array) (rectangular_map _ array Ha) _ _ Hlab)
    as (Hs & Hle & Hfg).
  split; [|split].
  - eapply shaped_trans; [apply shaped_map; exact Ha | exact Hs].
  - exact Hle.
  - intros r c. rewrite Hfg, at2_gt_zero. apply Z.ltb_lt.
Qed.

(** For an array with a non-zero sum, every cell of the two feet is
    either the positive part of the input cell or zero, and exactly one
    foot receives it. *)
Lemma separate_feet_cells (array : grid) :
  rectangular array = true -> np_sum array <> 0 ->
  shaped array (_separate_feet array).1
  /\ shaped array (_separate_feet array).2
  /\ forall r c,
       let v := Z.max 0 (at2 0 array r c) in
       (at2 0 (_separate_feet array).1 r c = v /\ at2 0 (_separate_feet array).2 r c = 0)
       \/ (at2 0 (_separate_feet array).1 r c = 0 /\ at2 0 (_separate_feet array).2 r c = v).
Proof.
  intros Ha Hsum. unfold _separate_feet.
  destruct (Z.eqb_spec (np_sum array) 0) as [E | _]; [contradiction|].
  destruct (Ndimage.label (gt_zero array)) as [lab n] eqn:Hlab.
  destruct (label_gt_zero array lab n Ha Hlab) as (Hs & Hle & Hfg).
  pose proof (assign_by_centroid_cells array lab n (Z.of_nat (ncols array) / 2)
                Ha Hs Hle Hfg) as Hgen.
  destruct (Nat.eqb_spec n 1) as [Hn | Hn]; [|exact Hgen].
  destruct (Ndimage.find_objects lab 1) as [[obj_rows obj_cols]|]; [|exact Hgen].
  destruct (spans_center _ _ _ _); [|exact Hgen].
  pose proof (forced_split_cells array lab n (Z.of_nat (ncols array) / 2)
                Ha Hle Hfg Hn) as Hfs.
  destruct (forced_split array lab (Z.of_nat (ncols array) / 2)) as [lf rf].
  destruct ((0 <? np_sum lf) && (0 <? np_sum rf)); [|exact Hgen].
  cbn [fst snd] in Hfs |- *. destruct Hfs as (HsL & HsR & Hcells).
  split; [exact HsL|]. split; [exact HsR|].
  intros r c. destruct (Hcells r c) as [-> ->].
  destruct (Z.ltb_spec c (Z.of_nat (ncols array) / 2)),
           (Z.leb_spec (Z.of_nat (ncols array) / 2) c); lia.
Qed.






(** ** Minimum and maximum of a sequence *)

Lemma list_min_le (x : Z) (xs : list Z) (y : Z) : In y (x :: xs) -> list_min x xs <= y.
Proof.
  unfold list_min. induction xs as [|z xs IH]; simpl; intros H.
  - destruct H as [-> | []]. lia.
  - destruct H as [-> | [-> | H]].
    + specialize (IH (or_introl eq_refl)). lia.
    + lia.
    + specialize (IH (or_intror H)). lia.
Qed.

Lemma list_max_ge (x : Z) (xs : list Z) (y : Z) : In y (x :: xs) -> y <= list_max x xs.
Proof.
  unfold list_max. induction xs as [|z xs IH]; simpl; intros H.
  - destruct H as [-> | []]. lia.
  - destruct H as [-> | [-> | H]].
    + specialize (IH (or_introl eq_refl)). lia.
    + lia.
    + specialize (IH (or_intror H)). lia.
Qed.

Lemma list_min_lower (lo x : Z) (xs : list Z) :
  (forall y, In y (x :: xs) -> lo <= y) -> lo <= list_min x xs.
Proof.
  unfold list_min. induction xs as [|z xs IH]; simpl; intros H.
  - apply H. left. reflexivity.
  - assert (lo <= z) by (apply H; right; left; reflexivity).
    assert (lo <= foldr Z.min x xs).
    { apply IH. intros y [-> | Hy]; apply H; [left | right; right]; auto. }
    lia.
Qed.

(** ** Connected components *)

Lemma adjacent_sym p q : adjacent p q -> adjacent q p.
Proof. unfold adjacent. intros H. lia. Qed.

Lemma adjacent_cross (p q : Z * Z) :
  adjacent p q <-> exists d, In d Ndimage.cross /\ q = (p.1 + d.1, p.2 + d.2).
Proof.
  destruct p as [pr pc], q as [qr qc]. unfold adjacent, Ndimage.cross. simpl. split.
  - intros [[H1 [H2 | H2]] | [H1 [H2 | H2]]].
    + exists (0, -1). split; [tauto|]. simpl. f_equal; lia.
    + exists (0, 1). split; [tauto|]. simpl. f_equal; lia.
    + exists (-1, 0). split; [tauto|]. simpl. f_equal; lia.
    + exists (1, 0). split; [tauto|]. simpl. f_equal; lia.
  - intros [d [Hd Hq]]. inversion Hq; subst.
    destruct Hd as [<- | [<- | [<- | [<- | []]]]]; simpl; lia.
Qed.

Lemma connected_fg m p q :
  connected m p q -> at2 false m p.1 p.2 = true /\ at2 false m q.1 q.2 = true.
Proof. induction 1 as [p Hp | p q r Hpq [IHp IHq] Hadj Hr]; auto. Qed.

Lemma connected_trans m p q r : connected m p q -> connected m q r -> connected m p r.
Proof.
  intros Hpq Hqr. induction Hqr as [q Hq | q s r Hqs IH Hadj Hr]; [exact Hpq|].
  eapply connected_step; [apply IH; exact Hpq | exact Hadj | exact Hr].
Qed.

Lemma connected_sym m p q : connected m p q -> connected m q p.
Proof.
  induction 1 as [p Hp | p q r Hpq IH Hadj Hr]; [constructor; exact Hp|].
  apply connected_trans with q; [|exact IH].
  eapply connected_step; [apply connected_refl; exact Hr | apply adjacent_sym; exact Hadj |].
  apply (connected_fg m p q Hpq).
Qed.

Lemma filter_length_mono {A} (f g : A -> bool) (l : list A) :
  (forall x, In x l -> f x = true -> g x = true) ->
  (length (List.filter f l) <= length (List.filter g l))%nat.
Proof.
  induction l as [|x l IH]; intros H; simpl; [lia|].
  assert (IH' : (length (List.filter f l) <= length (List.filter g l))%nat)
    by (apply IH; intros y Hy; apply H; right; exact Hy).
  destruct (f x) eqn:Ef.
  - rewrite (H x (or_introl eq_refl) Ef). simpl. lia.
  - destruct (g x); simpl; lia.
Qed.

Lemma filter_length_strict {A} (f g : A -> bool) (l : list A) (x : A) :
  (forall y, In y l -> f y = true -> g y = true) ->
  In x l -> f x = false -> g x = true ->
  (length (List.filter f l) < length (List.filter g l))%nat.
Proof.
  induction l as [|y l IH]; intros H Hin Hf Hg; [destruct Hin|]. simpl.
  assert (Hle : (length (List.filter f l) <= length (List.filter g l))%nat).
  { apply filter_length_mono. intros z Hz. apply H. right. exact Hz. }
  destruct Hin as [-> | Hin].
  - rewrite Hf, Hg. simpl. lia.
  - assert (IH' : (length (List.filter f l) < length (List.filter g l))%nat).
    { apply IH; try assumption. intros z Hz. apply H. right. exact Hz. }
    destruct (f y) eqn:Ef.
    + rewrite (H y (or_introl eq_refl) Ef). simpl. lia.
    + destruct (g y); simpl; lia.
Qed.

Lemma forallb_false_In {A} (f : A -> bool) (l : list A) :
  forallb f l = false -> exists x, In x l /\ f x = false.
Proof.
  induction l as [|y l IH]; simpl; [discriminate|].
  destruct (f y) eqn:Ef; simpl.
  - intros H. destruct (IH H) as [x [Hx Hfx]]. exists x. split; [right; exact Hx | exact Hfx].
  - intros _. exists y. split; [left; reflexivity | exact Ef].
Qed.

Lemma length_indices (R C : nat) : length (indices R C) = (R * C)%nat.
Proof.
  unfold indices.
  assert (H : forall rs cs : list Z,
            length (flat_map (fun r => map (fun c => (r, c)) cs) rs)
            = (length rs * length cs)%nat).
  { intros rs cs. induction rs as [|r rs IH]; simpl; [reflexivity|].
    rewrite length_app, length_map, IH. reflexivity. }
  rewrite H. unfold zrange. rewrite !length_map, !length_seq. reflexivity.
Qed.

Section Components.

Variable input : mask.
Hypothesis input_rect : rectangular input = true.

Lemma grow_sound seed region :
  (forall q, at2 false region q.1 q.2 = true -> connected input seed q) ->
  forall q, at2 false (Ndimage.grow input region) q.1 q.2 = true ->
            connected input seed q.
Proof.
  intros H q. rewrite (at2_grow input input_rect). intros Hq. zb.
  apply orb_true_iff in H1. destruct H1 as [Hr | He]; [apply H; exact Hr|].
  apply existsb_exists in He. destruct He as [d [Hd Hreg]].
  apply connected_step with (q.1 + d.1, q.2 + d.2).
  - apply H. exact Hreg.
  - apply adjacent_sym. apply adjacent_cross. exists d. split; [exact Hd | reflexivity].
  - exact H0.
Qed.

Lemma flood_sound n seed region :
  (forall q, at2 false region q.1 q.2 = true -> connected input seed q) ->
  forall q, at2 false (Ndimage.flood n input region) q.1 q.2 = true ->
            connected input seed q.
Proof.
  revert region. induction n as [|n IH]; intros region H; simpl; [exact H|].
  apply IH. apply grow_sound. exact H.
Qed.

(** Every cell of the component of a foreground cell is connected to it. *)
Lemma component_sound p q :
  at2 false input p.1 p.2 = true ->
  at2 false (Ndimage.component input p.1 p.2) q.1 q.2 = true ->
  connected input p q.
Proof.
  intros Hp. unfold Ndimage.component. apply flood_sound.
  intros q'. rewrite at2_tabulate.
  destruct (in_bounds (nrows input) (ncols input) q'.1 q'.2); [|discriminate].
  intros H. zb. destruct p, q'. simpl in *. subst. apply connected_refl. exact Hp.
Qed.

Lemma flood_grow n region :
  Ndimage.flood (S n) input region = Ndimage.grow input (Ndimage.flood n input region).
Proof.
  revert region. induction n as [|n IH]; intros region; [reflexivity|].
  change (Ndimage.flood (S (S n)) input region)
    with (Ndimage.flood (S n) input (Ndimage.grow input region)).
  rewrite IH. reflexivity.
Qed.

Lemma count_cells_shaped (region : mask) :
  shaped input region ->
  count_cells region =
  length (List.filter (fun p => at2 false region p.1 p.2)
            (indices (nrows input) (ncols input))).
Proof. intros (_ & Hr & Hc). unfold count_cells. rewrite Hr, Hc. reflexivity. Qed.

(** Growing a region either leaves it unchanged or adds a cell. *)
Lemma grow_progress (region : mask) :
  shaped input region ->
  (forall r c, at2 false region r c = true -> at2 false input r c = true) ->
  Ndimage.grow input region = region
  \/ (count_cells region < count_cells (Ndimage.grow input region))%nat.
Proof.
  intros Hs Hsub.
  assert (Hg : shaped input (Ndimage.grow input region)) by apply shaped_tabulate.
  assert (Hmono : forall r c, at2 false region r c = true ->
                              at2 false (Ndimage.grow input region) r c = true).
  { intros r c H. rewrite (at2_grow input input_rect), (Hsub r c H), H. reflexivity. }
  destruct (forallb (fun p => Bool.eqb (at2 false region p.1 p.2)
                                (at2 false (Ndimage.grow input region) p.1 p.2))
              (indices (nrows input) (ncols input))) eqn:E.
  - left. apply (shaped_ext false input); [exact Hg | exact Hs|].
    intros r c. destruct (in_bounds (nrows input) (ncols input) r c) eqn:Eb.
    + rewrite forallb_forall in E. specialize (E (r, c) (proj2 (in_indices _ _ r c) Eb)).
      simpl in E. apply eqb_prop in E. symmetry. exact E.
    + rewrite !at2_outside; try reflexivity.
      * apply Hs.
      * rewrite (shaped_in_bounds input region r c Hs). exact Eb.
      * apply Hg.
      * rewrite (shaped_in_bounds input _ r c Hg). exact Eb.
  - right. apply forallb_false_In in E. destruct E as [p [Hp Hne]].
    rewrite (count_cells_shaped region Hs), (count_cells_shaped _ Hg).
    apply filter_length_strict with p; [|exact Hp| |].
    + intros q _. apply Hmono.
    + destruct (at2 false region p.1 p.2) eqn:Er; [|reflexivity].
      rewrite (Hmono _ _ Er) in Hne. discriminate Hne.
    + destruct (at2 false (Ndimage.grow input region) p.1 p.2) eqn:Eg; [reflexivity|].
      destruct (at2 false region p.1 p.2) eqn:Er; [|discriminate Hne].
      rewrite (Hmono _ _ Er) in Eg. discriminate Eg.
Qed.

Lemma count_cells_le (region : mask) :
  shaped input region -> (count_cells region <= nrows input * ncols input)%nat.
Proof.
  intros Hs. rewrite (count_cells_shaped region Hs), <- length_indices.
  apply List.filter_length_le.
Qed.

(** The region grown as many times as the array has cells is closed
    under growing. *)
Lemma flood_stable (region : mask) :
  shaped input region ->
  (forall r c, at2 false region r c = true -> at2 false input r c = true) ->
  (1 <= count_cells region)%nat ->
  Ndimage.grow input (Ndimage.flood (np_size input) input region)
  = Ndimage.flood (np_size input) input region.
Proof.
  intros Hs Hsub Hone.
  assert (Hk : forall k,
    shaped input (Ndimage.flood k input region)
    /\ (forall r c, at2 false (Ndimage.flood k input region) r c = true ->
                    at2 false input r c = true)
    /\ (Ndimage.grow input (Ndimage.flood k input region) = Ndimage.flood k input region
        \/ (k + count_cells region <= count_cells (Ndimage.flood k input region))%nat)).
  { induction k as [|k (IHs & IHsub & IH)].
    - split; [exact Hs|]. split; [exact Hsub|]. right. simpl. lia.
    - rewrite flood_grow.
      split; [apply shaped_tabulate|].
      split.
      { intros r c. rewrite (at2_grow input input_rect). intros H. zb. assumption. }
      destruct IH as [Hfix | Hcount].
      + left. rewrite Hfix. exact Hfix.
      + destruct (grow_progress _ IHs IHsub) as [Hfix | Hlt].
        * left. rewrite Hfix. exact Hfix.
        * right. lia. }
  destruct (Hk (np_size input)) as (Hs' & _ & [Hfix | Hcount]); [exact Hfix|].
  exfalso. pose proof (count_cells_le _ Hs') as Hle.
  set (X := count_cells (Ndimage.flood (np_size input) input region)) in *.
  unfold np_size in Hcount.
  set (N := (nrows input * ncols input)%nat) in *. lia.
Qed.

(** Every foreground cell connected to a foreground cell lies in its
    component. *)
Lemma component_complete p q :
  connected input p q ->
  at2 false (Ndimage.component input p.1 p.2) q.1 q.2 = true.
Proof.
  intros Hpq.
  pose proof (proj1 (connected_fg input p q Hpq)) as Hp.
  assert (Hin : in_bounds (nrows input) (ncols input) p.1 p.2 = true).
  { apply (at2_inside false input _ _ input_rect). rewrite Hp. discriminate. }
  set (seed := tabulate (nrows input) (ncols input)
                 (fun r' c' => (r' =? p.1) && (c' =? p.2))).
  assert (Hstable : Ndimage.grow input (Ndimage.component input p.1 p.2)
                    = Ndimage.component input p.1 p.2).
  { unfold Ndimage.component. apply flood_stable.
    - apply shaped_tabulate.
    - intros r c. rewrite at2_tabulate.
      destruct (in_bounds (nrows input) (ncols input) r c); [|discriminate].
      intros H. zb. subst. exact Hp.
    - rewrite (count_cells_shaped _ (shaped_tabulate input _)).
      assert (Hmem : In p (List.filter
                (fun q => at2 false (tabulate (nrows input) (ncols input)
                            (fun r' c' => (r' =? p.1) && (c' =? p.2))) q.1 q.2)
                (indices (nrows input) (ncols input)))).
      { apply filter_In. split.
        - destruct p. apply in_indices. exact Hin.
        - rewrite at2_tabulate, Hin, !Z.eqb_refl. reflexivity. }
      destruct (List.filter _ _); [destruct Hmem | simpl; lia]. }
  induction Hpq as [p Hp' | p q r Hpq IH Hadj Hr].
  - apply (component_seed input input_rect). exact Hp.
  - specialize (IH Hp Hin Hstable).
    rewrite <- Hstable. rewrite (at2_grow input input_rect), Hr. cbn [andb].
    apply orb_true_iff. right. apply existsb_exists.
    apply adjacent_sym in Hadj. apply adjacent_cross in Hadj.
    destruct Hadj as [d [Hd Hq]]. exists d. split; [exact Hd|].
    rewrite Hq in IH. exact IH.
Qed.

End Components.

Section LabelComponents.

Variable input : mask.
Hypothesis input_rect : rectangular input = true.

Lemma label_inv_init :
  label_inv input (fun _ => False)
    (tabulate (nrows input) (ncols input) (fun _ _ => 0%nat), 0%nat).
Proof.
  split; [apply shaped_tabulate|]. split; [|split]; simpl.
  - intros r c. rewrite at2_tabulate. destruct (in_bounds _ _ r c); lia.
  - intros r c. rewrite at2_tabulate. destruct (in_bounds _ _ r c); congruence.
  - intros r c [].
Qed.

(** An invariant of the raster scan that each step preserves holds for
    the result of [label]. *)
Lemma label_fold_ind (P : labels * nat -> Prop) :
  (forall seen acc p, label_inv input seen acc -> P acc ->
                      P (Ndimage.label_step input acc p)) ->
  P (tabulate (nrows input) (ncols input) (fun _ _ => 0%nat), 0%nat) ->
  P (Ndimage.label input).
Proof.
  intros Hstep Hinit. unfold Ndimage.label.
  assert (H : forall cells seen acc,
            label_inv input seen acc -> P acc ->
            P (fold_left (Ndimage.label_step input) cells acc)).
  { induction cells as [|p cells IH]; intros seen acc Hinv HP; simpl; [exact HP|].
    apply (IH (fun q => seen q \/ q = p)).
    - apply label_step_inv; assumption.
    - apply (Hstep seen); assumption. }
  apply (H _ (fun _ => False)); [apply label_inv_init | exact Hinit].
Qed.

Lemma at2_label_step_new (lab : labels) (n : nat) (p : Z * Z) r c :
  shaped input lab ->
  at2 false input p.1 p.2 = true ->
  at2 0%nat
    (tabulate (nrows input) (ncols input)
       (fun r c => if at2 false (Ndimage.component input p.1 p.2) r c
                   then S n else at2 0%nat lab r c)) r c
  = if at2 false (Ndimage.component input p.1 p.2) r c then S n else at2 0%nat lab r c.
Proof.
  intros Hs Hp. rewrite at2_tabulate.
  destruct (in_bounds (nrows input) (ncols input) r c) eqn:Eb; [reflexivity|].
  destruct (at2 false (Ndimage.component input p.1 p.2) r c) eqn:Ec.
  - apply (component_inside input input_rect p.1 p.2 Hp) in Ec.
    rewrite (at2_outside false input r c input_rect Eb) in Ec. discriminate.
  - symmetry. apply at2_outside; [apply Hs|].
    rewrite (shaped_in_bounds input lab r c Hs). exact Eb.
Qed.

(** [label] finds one feature exactly when the mask is one component. *)
Lemma label_one_component :
  (Ndimage.label input).2 = 1%nat <-> one_component input.
Proof.
  destruct (Ndimage.label input) as [lab n] eqn:Hlab.
  destruct (label_spec input input_rect lab n Hlab) as (Hs & Hle & Hfg).
  simpl. split.
  - intros ->.
    assert (H : (Ndimage.label input).2 = 1%nat ->
                exists p0, at2 false input p0.1 p0.2 = true
                  /\ forall r c, at2 0%nat (Ndimage.label input).1 r c <> 0%nat ->
                                 connected input p0 (r, c)).
    { apply (label_fold_ind (fun acc => acc.2 = 1%nat ->
               exists p0, at2 false input p0.1 p0.2 = true
                 /\ forall r c, at2 0%nat acc.1 r c <> 0%nat -> connected input p0 (r, c)));
        [|discriminate].
      intros seen [lab' n'] p (Hs' & Hle' & _ & _) HP. unfold Ndimage.label_step.
      destruct (at2 false input p.1 p.2 && Nat.eqb (at2 0%nat lab' p.1 p.2) 0) eqn:E;
        [|exact HP].
      simpl in *. intros Hn. zb. assert (n' = 0%nat) by lia. subst n'.
      exists p. split; [assumption|]. intros r c.
      rewrite (at2_label_step_new lab' 0 p r c Hs') by assumption.
      destruct (at2 false (Ndimage.component input p.1 p.2) r c) eqn:Ec.
      - intros _. apply (component_sound input input_rect p (r, c)); assumption.
      - intros Hne. specialize (Hle' r c). lia. }
    rewrite Hlab in H. simpl in H. destruct (H eq_refl) as [p0 [Hp0 Hconn]].
    split; [exists p0; exact Hp0|].
    intros p q Hp Hq. apply connected_trans with p0.
    + apply connected_sym. destruct p as [pr pc]. apply Hconn. apply Hfg. exact Hp.
    + destruct q as [qr qc]. apply Hconn. apply Hfg. exact Hq.
  - intros [[p0 Hp0] Hall].
    assert (H : (Ndimage.label input).2 = 0%nat
                \/ ((Ndimage.label input).2 = 1%nat
                    /\ forall r c, at2 false input r c = true ->
                                   at2 0%nat (Ndimage.label input).1 r c <> 0%nat)).
    { apply (label_fold_ind (fun acc => acc.2 = 0%nat
               \/ (acc.2 = 1%nat
                   /\ forall r c, at2 false input r c = true ->
                                  at2 0%nat acc.1 r c <> 0%nat)));
        [|left; reflexivity].
      intros seen [lab' n'] p (Hs' & Hle' & _ & _) HP. unfold Ndimage.label_step.
      destruct (at2 false input p.1 p.2 && Nat.eqb (at2 0%nat lab' p.1 p.2) 0) eqn:E;
        [|exact HP].
      simpl in *. zb. destruct HP as [-> | [_ HP]]; [|exfalso; exact (HP _ _ H H0)].
      right. split; [reflexivity|]. intros r c Hrc.
      rewrite (at2_label_step_new lab' 0 p r c Hs') by assumption.
      pose proof (component_complete input input_rect p (r, c)
                    (Hall p (r, c) H Hrc)) as Hc.
      simpl in Hc. rewrite Hc. discriminate. }
    rewrite Hlab in H. simpl in H. destruct H as [-> | [-> _]]; [|reflexivity].
    exfalso. apply Hfg in Hp0. specialize (Hle p0.1 p0.2). lia.
Qed.

End LabelComponents.

(** ** The forced split *)

Lemma list_min_In (x : Z) (xs : list Z) : In (list_min x xs) (x :: xs).
Proof.
  unfold list_min. induction xs as [|y xs IH]; simpl; [left; reflexivity|].
  destruct (Z.min_spec y (foldr Z.min x xs)) as [[_ ->] | [_ ->]].
  - right. left. reflexivity.
  - destruct IH as [IH | IH]; [left; exact IH | right; right; exact IH].
Qed.

Lemma list_max_In (x : Z) (xs : list Z) : In (list_max x xs) (x :: xs).
Proof.
  unfold list_max. induction xs as [|y xs IH]; simpl; [left; reflexivity|].
  destruct (Z.max_spec y (foldr Z.max x xs)) as [[_ ->] | [_ ->]].
  - destruct IH as [IH | IH]; [left; exact IH | right; right; exact IH].
  - right. left. reflexivity.
Qed.

(** The column slice of a label starts and ends on cells of that label. *)
Lemma find_objects_cols (lab : labels) (k : nat) obj_rows obj_cols :
  Ndimage.find_objects lab k = Some (obj_rows, obj_cols) ->
  (exists r, at2 0%nat lab r (Ndimage.start obj_cols) = k)
  /\ (exists r, at2 0%nat lab r (Ndimage.stop obj_cols - 1) = k).
Proof.
  unfold Ndimage.find_objects. intros H.
  destruct (Ndimage.rows_of lab k) as [|r0 rs]; [discriminate|].
  destruct (Ndimage.cols_of lab k) as [|c0 cs] eqn:Ecols; [discriminate|].
  inversion H; subst; clear H. simpl.
  assert (Hin : forall c, In c (c0 :: cs) -> exists r, at2 0%nat lab r c = k).
  { intros c Hc. rewrite <- Ecols in Hc. unfold Ndimage.cols_of in Hc.
    apply filter_In in Hc. destruct Hc as [_ Hc].
    apply existsb_exists in Hc. destruct Hc as [r [_ Hr]].
    exists r. apply Nat.eqb_eq. exact Hr. }
  split.
  - apply Hin. apply list_min_In.
  - replace (list_max c0 cs + 1 - 1) with (list_max c0 cs) by lia.
    apply Hin. apply list_max_In.
Qed.

(** The column slice of a label contains every cell of that label. *)
Lemma find_objects_extent (lab : labels) (k : nat) obj_rows obj_cols r c :
  rectangular lab = true ->
  Ndimage.find_objects lab k = Some (obj_rows, obj_cols) ->
  k <> 0%nat -> at2 0%nat lab r c = k ->
  Ndimage.start obj_cols <= c < Ndimage.stop obj_cols.
Proof.
  unfold Ndimage.find_objects. intros Hrect H Hk Hcell.
  destruct (Ndimage.rows_of lab k) as [|r0 rs]; [discriminate|].
  destruct (Ndimage.cols_of lab k) as [|c0 cs] eqn:Ecols; [discriminate|].
  inversion H; subst; clear H. simpl.
  assert (Hb : in_bounds (nrows lab) (ncols lab) r c = true).
  { apply (at2_inside 0%nat lab r c Hrect). exact Hk. }
  apply in_bounds_spec in Hb.
  assert (Hin : In c (c0 :: cs)).
  { rewrite <- Ecols. unfold Ndimage.cols_of. apply filter_In. split.
    - unfold zrange. apply in_map_iff. exists (Z.to_nat c). split; [lia|]. apply in_seq. lia.
    - apply existsb_exists. exists r. split; [|apply Nat.eqb_eq; reflexivity].
      unfold zrange. apply in_map_iff. exists (Z.to_nat r). split; [lia|]. apply in_seq. lia. }
  pose proof (list_min_le c0 cs c Hin). pose proof (list_max_ge c0 cs c Hin). lia.
Qed.

(** When [label] finds one feature, [find_objects] has a slice for it:
    the branch [None] of [_separate_feet] is never taken. *)
Lemma find_objects_single (input : mask) (lab : labels) :
  rectangular input = true ->
  Ndimage.label input = (lab, 1%nat) ->
  exists slices, Ndimage.find_objects lab 1 = Some slices.
Proof.
  intros Hrect Hlab.
  destruct (label_spec input Hrect lab 1 Hlab) as (Hs & Hle & Hfg).
  assert (Hone : one_component input).
  { apply (label_one_component input Hrect). rewrite Hlab. reflexivity. }
  destruct Hone as [[p Hp] _].
  assert (Hcell : at2 0%nat lab p.1 p.2 = 1%nat).
  { apply Hfg in Hp. specialize (Hle p.1 p.2). lia. }
  assert (Hb : in_bounds (nrows lab) (ncols lab) p.1 p.2 = true).
  { apply (at2_inside 0%nat lab _ _ (proj1 Hs)). rewrite Hcell. discriminate. }
  apply in_bounds_spec in Hb.
  assert (Hr : In p.1 (zrange (nrows lab))).
  { unfold zrange. apply in_map_iff. exists (Z.to_nat p.1). split; [lia|]. apply in_seq. lia. }
  assert (Hc : In p.2 (zrange (ncols lab))).
  { unfold zrange. apply in_map_iff. exists (Z.to_nat p.2). split; [lia|]. apply in_seq. lia. }
  assert (Hrows : In p.1 (Ndimage.rows_of lab 1)).
  { unfold Ndimage.rows_of. apply filter_In. split; [exact Hr|].
    apply existsb_exists. exists p.2. split; [exact Hc|]. rewrite Hcell. reflexivity. }
  assert (Hcols : In p.2 (Ndimage.cols_of lab 1)).
  { unfold Ndimage.cols_of. apply filter_In. split; [exact Hc|].
    apply existsb_exists. exists p.1. split; [exact Hr|]. rewrite Hcell. reflexivity. }
  unfold Ndimage.find_objects.
  destruct (Ndimage.rows_of lab 1); [destruct Hrows|].
  destruct (Ndimage.cols_of lab 1); [destruct Hcols|].
  eexists. reflexivity.
Qed.

Lemma spans_center_spec obj_min_col obj_max_col mid_col cols :
  spans_center obj_min_col obj_max_col mid_col cols = true <->
  obj_min_col < mid_col < obj_max_col
  /\ (Qdiv (inject_Z (Z.of_nat cols)) (inject_Z 3)
      < inject_Z (obj_max_col - obj_min_col))%Q.
Proof.
  unfold spans_center, Qltb.
  rewrite !andb_true_iff, !Z.ltb_lt, negb_true_iff, Qle_bool_false. tauto.
Qed.



(** ** Morphological opening *)

Section Opening.

Variable structure : list (Z * Z).
Variable input : mask.
Hypothesis input_rect : rectangular input = true.

Lemma at2_erosion (m : mask) r c :
  at2 false (Ndimage.binary_erosion m structure) r c =
  in_bounds (nrows m) (ncols m) r c
  && forallb (fun d => at2 false m (r + d.1) (c + d.2)) structure.
Proof.
  unfold Ndimage.binary_erosion. rewrite at2_tabulate.
  destruct (in_bounds (nrows m) (ncols m) r c); reflexivity.
Qed.

Lemma at2_dilation (m : mask) r c :
  at2 false (Ndimage.binary_dilation m structure) r c =
  in_bounds (nrows m) (ncols m) r c
  && existsb (fun d => at2 false m (r - d.1) (c - d.2)) structure.
Proof.
  unfold Ndimage.binary_dilation. rewrite at2_tabulate.
  destruct (in_bounds (nrows m) (ncols m) r c); reflexivity.
Qed.

Lemma shaped_erosion : shaped input (Ndimage.binary_erosion input structure).
Proof. apply shaped_tabulate. Qed.

Lemma shaped_opening : shaped input (Ndimage.binary_opening input structure).
Proof.
  unfold Ndimage.binary_opening.
  eapply shaped_trans; [apply shaped_erosion | apply shaped_tabulate].
Qed.

(** Opening only removes cells. *)
Lemma opening_inside r c :
  at2 false (Ndimage.binary_opening input structure) r c = true ->
  at2 false input r c = true.
Proof.
  unfold Ndimage.binary_opening. rewrite at2_dilation. intros H. zb.
  apply existsb_exists in H0. destruct H0 as [d [Hd Hero]].
  rewrite at2_erosion in Hero. zb.
  rewrite forallb_forall in H1. specialize (H1 d Hd).
  replace (r - d.1 + d.1) with r in H1 by lia.
  replace (c - d.2 + d.2) with c in H1 by lia. exact H1.
Qed.

(** Eroding the opening gives back the erosion. *)
Lemma erosion_opening :
  Ndimage.binary_erosion (Ndimage.binary_opening input structure) structure
  = Ndimage.binary_erosion input structure.
Proof.
  destruct shaped_opening as (_ & Hr & Hc).
  unfold Ndimage.binary_erosion at 1. rewrite Hr, Hc.
  unfold Ndimage.binary_erosion at 1.
  apply tabulate_ext. intros r c Hb.
  apply eq_iff_eq_true. rewrite !forallb_forall. split; intros H d Hd.
  - apply opening_inside. apply H. exact Hd.
  - unfold Ndimage.binary_opening. rewrite at2_dilation.
    destruct shaped_erosion as (_ & Hr' & Hc'). rewrite Hr', Hc'.
    apply andb_true_iff. split.
    + apply (at2_inside false input _ _ input_rect). rewrite (H d Hd). discriminate.
    + apply existsb_exists. exists d. split; [exact Hd|].
      replace (r + d.1 - d.1) with r by lia.
      replace (c + d.2 - d.2) with c by lia.
      rewrite at2_erosion, Hb. simpl. apply forallb_forall. exact H.
Qed.

(** Opening is idempotent. *)
Lemma opening_idempotent :
  Ndimage.binary_opening (Ndimage.binary_opening input structure) structure
  = Ndimage.binary_opening input structure.
Proof.
  unfold Ndimage.binary_opening at 1. rewrite erosion_opening. reflexivity.
Qed.

End Opening.

(** ** Noise filter *)

Lemma at2_np_where_gt (a : grid) r c :
  at2 0 (np_where_gt Config.noise_threshold a) r c =
  if Config.noise_threshold <? at2 0 a r c then at2 0 a r c else 0.
Proof.
  unfold np_where_gt.
  exact (at2_map (fun v => if Config.noise_threshold <? v then v else 0) 0 a r c).
Qed.

Lemma map_map_fixed {A} (f : A -> A) (a : list (list A)) :
  (forall row, In row a -> forall v, In v row -> f v = v) -> map (map f) a = a.
Proof.
  intros H. rewrite <- (map_id a) at 2. apply map_ext_in. intros row Hrow.
  rewrite <- (map_id row) at 2. apply map_ext_in. intros v Hv. exact (H row Hrow v Hv).
Qed.

(** C6: filtering the output of the noise filter again leaves it
    unchanged. *)
Theorem filter_noise_idempotent (pressure_array : grid) :
  rectangular pressure_array = true ->
  filter_array (filter_array pressure_array) = filter_array pressure_array.
Proof.
  intros Ha. remember (filter_array pressure_array) as out eqn:Eout.
  unfold filter_array in Eout.
  destruct (np_max pressure_array =? 0) eqn:Emax; subst out.
  - unfold filter_array. rewrite Emax. reflexivity.
  - set (th := np_where_gt Config.noise_threshold pressure_array).
    set (opened := Ndimage.binary_opening (gt_zero th) Ndimage.ones3x3).
    set (b := mul_mask th opened).
    assert (Hth : shaped pressure_array th) by (apply shaped_map; exact Ha).
    assert (Hthr : rectangular th = true) by apply Hth.
    assert (Hgt : shaped th (gt_zero th)) by (apply shaped_map; exact Hthr).
    assert (Hop : shaped th opened).
    { eapply shaped_trans; [exact Hgt | apply shaped_opening]. }
    assert (Hb : shaped th b) by (apply shaped_mul_mask; assumption).
    assert (Hin : forall r c, at2 false opened r c = true ->
                              Config.noise_threshold < at2 0 pressure_array r c
                              /\ at2 0 th r c = at2 0 pressure_array r c).
    { intros r c H. apply opening_inside in H. rewrite at2_gt_zero in H.
      unfold th in H |- *. rewrite at2_np_where_gt in H |- *.
      destruct (Z.ltb_spec Config.noise_threshold (at2 0 pressure_array r c)); zb; lia. }
    assert (Hbcell : forall r c,
      at2 0 b r c = if at2 false opened r c then at2 0 pressure_array r c else 0).
    { intros r c. unfold b. rewrite at2_mul_mask.
      destruct (at2 false opened r c) eqn:E; simpl; [|lia].
      destruct (Hin r c E) as [_ ->]. lia. }
    assert (Hbmask : gt_zero b = opened).
    { apply (shaped_ext false th).
      - eapply shaped_trans; [exact Hb | apply shaped_gt_zero; apply Hb].
      - exact Hop.
      - intros r c. rewrite at2_gt_zero, Hbcell.
        destruct (at2 false opened r c) eqn:E; [|reflexivity].
        destruct (Hin r c E) as [Hlt _]. apply Z.ltb_lt.
        unfold Config.noise_threshold in Hlt. lia. }
    assert (Hbth : np_where_gt Config.noise_threshold b = b).
    { apply map_map_fixed. intros row Hrow v Hv.
      destruct (cell_of_In 0 b row v Hrow Hv) as [r [c [<- _]]].
      rewrite Hbcell. destruct (at2 false opened r c) eqn:E.
      - destruct (Hin r c E) as [Hlt _]. apply Z.ltb_lt in Hlt. rewrite Hlt. reflexivity.
      - reflexivity. }
    unfold filter_array. destruct (np_max b =? 0); [reflexivity|].
    rewrite Hbth, Hbmask. unfold opened at 1.
    rewrite opening_idempotent by (apply Hgt). fold opened.
    apply (shaped_ext 0 th).
    + eapply shaped_trans; [exact Hb|]. apply shaped_mul_mask; [apply Hb|].
      destruct Hb as (H1 & H2 & H3), Hop as (H4 & H5 & H6).
      split; [exact H4|]. split; congruence.
    + exact Hb.
    + intros r c. rewrite at2_mul_mask, Hbcell.
      destruct (at2 false opened r c); simpl; lia.
Qed.

Lemma filter_noise_idempotent_witness :
  filter_array (filter_array noisy_frame) = filter_array noisy_frame.
Proof. apply (filter_noise_idempotent noisy_frame). reflexivity. Defined.

(** ** Row ranges and their sums *)

Lemma zsum_app (l k : list Z) : zsum (l ++ k) = zsum l + zsum k.
Proof. induction l as [|x l IH]; simpl; [reflexivity | rewrite IH; lia]. Qed.

Lemma take_plus {A} (n m : nat) (l : list A) :
  take (n + m) l = take n l ++ take m (drop n l).
Proof.
  revert l. induction n as [|n IH]; intros l; simpl; [reflexivity|].
  destruct l as [|x l]; simpl.
  - destruct m; reflexivity.
  - f_equal. apply IH.
Qed.

Lemma In_take {A} (n : nat) (l : list A) v : In v (take n l) -> In v l.
Proof.
  revert l. induction n as [|n IH]; intros l H; [destruct H|].
  destruct l as [|x l]; [destruct H|]. destruct H as [H | H]; [left; exact H|].
  right. apply IH. exact H.
Qed.

Lemma In_drop {A} (n : nat) (l : list A) v : In v (drop n l) -> In v l.
Proof.
  revert l. induction n as [|n IH]; intros l H; [exact H|].
  destruct l as [|x l]; [destruct H|]. right. apply IH. exact H.
Qed.

(** The row sums between [a] and [b]. *)
Lemma np_sum_row_slice (f : grid) (a b : Z) :
  np_sum (row_slice f a b) =
  zsum (take (Z.to_nat (b - a)) (drop (Z.to_nat a) (map zsum f))).
Proof.
  unfold np_sum, row_slice. rewrite <- firstn_map, <- skipn_map. reflexivity.
Qed.

Lemma row_slice_split (f : grid) (a b c : Z) :
  0 <= a <= b -> b <= c ->
  np_sum (row_slice f a b) + np_sum (row_slice f b c) = np_sum (row_slice f a c).
Proof.
  intros Hab Hbc. rewrite !np_sum_row_slice.
  replace (Z.to_nat (c - a)) with (Z.to_nat (b - a) + Z.to_nat (c - b))%nat by lia.
  rewrite take_plus, zsum_app, drop_drop.
  replace (Z.to_nat a + Z.to_nat (b - a))%nat with (Z.to_nat b) by lia.
  reflexivity.
Qed.

Lemma zsum_take_zero (s : list Z) (n : nat) :
  (forall i, (i < n)%nat -> nth i s 0 = 0) -> zsum (take n s) = 0.
Proof.
  revert n. induction s as [|x s IH]; intros n H.
  - destruct n; reflexivity.
  - destruct n as [|n]; [reflexivity|]. simpl.
    pose proof (H 0%nat ltac:(lia)) as Hx. simpl in Hx. subst x.
    rewrite IH; [reflexivity|].
    intros i Hi. apply (H (S i)). lia.
Qed.

Lemma zsum_drop_zero (s : list Z) (n : nat) :
  (forall i, (n <= i)%nat -> nth i s 0 = 0) -> zsum (drop n s) = 0.
Proof.
  revert n. induction s as [|x s IH]; intros n H.
  - destruct n; reflexivity.
  - destruct n as [|n].
    + simpl. pose proof (H 0%nat ltac:(lia)) as Hx. simpl in Hx. subst x.
      rewrite <- (IH 0%nat) at 2; [reflexivity|].
      intros i Hi. apply (H (S i)). lia.
    + simpl. apply IH. intros i Hi. apply (H (S i)). lia.
Qed.

(** A row range that covers every non-zero row carries the whole sum. *)
Lemma row_slice_covers (f : grid) (a b : Z) :
  0 <= a <= b ->
  (forall i : nat, Z.of_nat i < a \/ b <= Z.of_nat i -> zsum (nth i f []) = 0) ->
  np_sum (row_slice f a b) = np_sum f.
Proof.
  intros Hab Hzero. rewrite np_sum_row_slice. unfold np_sum.
  set (s := map zsum f).
  assert (Hs : forall i : nat, Z.of_nat i < a \/ b <= Z.of_nat i -> nth i s 0 = 0).
  { intros i Hi. unfold s. change 0 with (zsum []) at 1. rewrite map_nth. auto. }
  assert (E1 : zsum s = zsum (take (Z.to_nat a) s) + zsum (drop (Z.to_nat a) s)).
  { rewrite <- zsum_app, take_drop. reflexivity. }
  assert (E2 : zsum (drop (Z.to_nat a) s) =
               zsum (take (Z.to_nat (b - a)) (drop (Z.to_nat a) s))
               + zsum (drop (Z.to_nat a + Z.to_nat (b - a)) s)).
  { rewrite <- drop_drop, <- zsum_app, take_drop. reflexivity. }
  rewrite (zsum_take_zero s (Z.to_nat a)) in E1 by (intros i Hi; apply Hs; lia).
  rewrite (zsum_drop_zero s (Z.to_nat a + Z.to_nat (b - a))) in E2
    by (intros i Hi; apply Hs; lia).
  lia.
Qed.

Lemma nonneg_row_sums (f : grid) (i : nat) : nonneg f -> 0 <= nth i (map zsum f) 0.
Proof.
  intros Hf. destruct (Nat.lt_ge_cases i (length (map zsum f))) as [Hi | Hi].
  - apply (row_sums_nonneg f Hf). apply nth_In. exact Hi.
  - rewrite nth_overflow by exact Hi. lia.
Qed.

(** The sum over a row range of a non-negative array lies between 0 and
    the sum of the array. *)
Lemma row_slice_bounds (f : grid) (a b : Z) :
  nonneg f -> 0 <= np_sum (row_slice f a b) <= np_sum f.
Proof.
  intros Hf. rewrite np_sum_row_slice. unfold np_sum.
  set (s := map zsum f).
  assert (Hs : forall v, In v s -> 0 <= v) by (apply row_sums_nonneg; exact Hf).
  assert (Hsub : forall (n : nat) (l : list Z),
             (forall v, In v l -> 0 <= v) ->
             0 <= zsum (take n l) /\ 0 <= zsum (drop n l)
             /\ zsum l = zsum (take n l) + zsum (drop n l)).
  { intros n l Hl.
    split; [|split; [|rewrite <- zsum_app, take_drop; reflexivity]];
      apply zsum_nonneg; intros v Hv; apply Hl.
    - apply (In_take n l). exact Hv.
    - apply (In_drop n l). exact Hv. }
  destruct (Hsub (Z.to_nat a) s Hs) as (H1 & H2 & H3).
  assert (Hd : forall v, In v (drop (Z.to_nat a) s) -> 0 <= v).
  { intros v Hv. apply Hs. apply (In_drop (Z.to_nat a) s). exact Hv. }
  destruct (Hsub (Z.to_nat (b - a)) (drop (Z.to_nat a) s) Hd) as (H4 & H5 & H6).
  lia.
Qed.

(** ** Footprints and the bounding box *)

Lemma footprint_some (f : grid) b : get_virtual_footprint f = Some b -> np_sum f <> 0.
Proof.
  unfold get_virtual_footprint. destruct (Z.eqb_spec (np_sum f) 0); [discriminate | auto].
Qed.

(** The footprint of a foot with pressure exists, starts at a row index
    and leaves only empty rows outside. *)
Lemma footprint_spec (f : grid) :
  nonneg f -> np_sum f <> 0 ->
  exists mn mx,
    get_virtual_footprint f = Some (mn, mx) /\ 0 <= mn
    /\ forall i : nat, Z.of_nat i < mn \/ mx < Z.of_nat i -> zsum (nth i f []) = 0.
Proof.
  intros Hf Hsum. unfold get_virtual_footprint.
  destruct (Z.eqb_spec (np_sum f) 0) as [E | _]; [contradiction|].
  set (P := fun r => existsb (fun v => 0 <? v) (nth (Z.to_nat r) f [])).
  set (rows := List.filter P (zrange (nrows f))).
  assert (Hout : forall i : nat, ~ In (Z.of_nat i) rows -> zsum (nth i f []) = 0).
  { intros i Hi. destruct (Nat.lt_ge_cases i (length f)) as [Hlt | Hge].
    - assert (HP : P (Z.of_nat i) = false).
      { destruct (P (Z.of_nat i)) eqn:EP; [|reflexivity]. exfalso. apply Hi.
        apply filter_In. split; [|exact EP].
        unfold zrange. apply in_map. apply in_seq. unfold nrows. lia. }
      unfold P in HP. rewrite Nat2Z.id in HP.
      apply zsum_zero. intros v Hv.
      assert (Hv0 : (0 <? v) = false).
      { destruct (0 <? v) eqn:Ev; [|reflexivity].
        assert (existsb (fun v => 0 <? v) (nth i f []) = true)
          by (apply existsb_exists; exists v; auto).
        congruence. }
      destruct (cell_of_In 0 f (nth i f []) v (nth_In f [] Hlt) Hv) as [r [c [Hc _]]].
      pose proof (Hf r c). zb. lia.
    - rewrite nth_overflow by exact Hge. reflexivity. }
  destruct rows as [|r0 rs] eqn:Erows.
  - exfalso. apply Hsum. apply zsum_zero. intros s Hs.
    apply In_nth with (d := 0) in Hs. destruct Hs as [i [_ <-]].
    change 0 with (zsum []) at 1. rewrite map_nth. apply Hout. intros [].
  - exists (list_min r0 rs), (list_max r0 rs). split; [reflexivity|]. split.
    + apply list_min_lower. intros y Hy. rewrite <- Erows in Hy.
      apply filter_In in Hy. destruct Hy as [Hy _].
      unfold zrange in Hy. apply in_map_iff in Hy. destruct Hy as [i [<- _]]. lia.
    + intros i Hi. apply Hout. intros Hin.
      pose proof (list_min_le r0 rs _ Hin). pose proof (list_max_ge r0 rs _ Hin). lia.
Qed.

(** The combined box of two optional footprints contains each of them. *)
Lemma combined_box (lb rb : option (Z * Z)) b bs :
  omap id [lb; rb] = b :: bs ->
  forall mn mx, lb = Some (mn, mx) \/ rb = Some (mn, mx) ->
    list_min b.1 (map fst bs) <= mn /\ mx <= list_max b.2 (map snd bs).
Proof.
  intros H mn mx Hin.
  destruct lb as [[lmn lmx]|], rb as [[rmn rmx]|]; simpl in H;
    inversion H; subst; clear H; unfold list_min, list_max; simpl;
    destruct Hin as [Hin | Hin]; inversion Hin; subst; lia.
Qed.

Lemma combined_box_lower (lb rb : option (Z * Z)) b bs lo :
  omap id [lb; rb] = b :: bs ->
  (forall mn mx, lb = Some (mn, mx) \/ rb = Some (mn, mx) -> lo <= mn) ->
  lo <= list_min b.1 (map fst bs).
Proof.
  intros H Hlo.
  destruct lb as [[lmn lmx]|], rb as [[rmn rmx]|]; simpl in H;
    inversion H; subst; clear H; unfold list_min, list_max; simpl.
  - pose proof (Hlo lmn lmx (or_introl eq_refl)).
    pose proof (Hlo rmn rmx (or_intror eq_refl)). lia.
  - pose proof (Hlo lmn lmx (or_introl eq_refl)). lia.
  - pose proof (Hlo rmn rmx (or_intror eq_refl)). lia.
Qed.

(** ** Pressure distribution *)

(** The entries written for one side (lines 239-241). *)
Lemma fill_distribution_sides (zones : Zones) (l r : grid) (d : gmap string Q) :
  fill_distribution zones [("L"%string, l); ("R"%string, r)] d =
  let dl :=
    if np_sum l =? 0 then d
    else <["LF"%string := percentage l (fore zones) (np_sum l)]>
           (<["LM"%string := percentage l (mid zones) (np_sum l)]>
              (<["LH"%string := percentage l (hind zones) (np_sum l)]> d)) in
  if np_sum r =? 0 then dl
  else <["RF"%string := percentage r (fore zones) (np_sum r)]>
         (<["RM"%string := percentage r (mid zones) (np_sum r)]>
            (<["RH"%string := percentage r (hind zones) (np_sum r)]> dl)).
Proof.
  unfold fill_distribution. cbn [fold_left zones_items].
  destruct (np_sum l =? 0), (np_sum r =? 0); reflexivity.
Qed.

(** What [_calculate_pressure_distribution] leaves in the analyzer when it
    starts without a bounding box: the two feet, and, if zones are defined
    afterwards, the distribution filled for both sides from a bounding box
    that covers every row with pressure. *)
Lemma calculate_pressure_distribution_spec (self : Analyzer) :
  rectangular (cleaned_array self) = true ->
  final_bbox self = None ->
  let self' := _calculate_pressure_distribution self in
  left_foot self' = (_separate_feet (cleaned_array self)).1
  /\ right_foot self' = (_separate_feet (cleaned_array self)).2
  /\ pressure_array self' = pressure_array self
  /\ foot_types self' = foot_types self
  /\ cop self' = cop self
  /\ error_message self' = error_message self
  /\ nonneg (left_foot self') /\ nonneg (right_foot self')
  /\ forall zones,
       _get_foot_zone_indices (final_bbox self')
         (Z.of_nat (nrows (pressure_array self'))) = Some zones ->
       distribution self' =
         fill_distribution zones
           [("L"%string, left_foot self'); ("R"%string, right_foot self')]
           (distribution self)
       /\ forall f, f = left_foot self' \/ f = right_foot self' -> np_sum f <> 0 ->
            np_sum (row_slice f (Ndimage.start (hind zones)) (Ndimage.stop (hind zones)))
            + np_sum (row_slice f (Ndimage.start (mid zones)) (Ndimage.stop (mid zones)))
            + np_sum (row_slice f (Ndimage.start (fore zones)) (Ndimage.stop (fore zones)))
            = np_sum f.
Proof.
  intros Ha Hbox. unfold _calculate_pressure_distribution.
  assert (Hnn : nonneg (_separate_feet (cleaned_array self)).1
                /\ nonneg (_separate_feet (cleaned_array self)).2).
  { destruct (Z.eq_dec (np_sum (cleaned_array self)) 0) as [E | E].
    - unfold _separate_feet. rewrite E. simpl.
      split; intros r c; unfold at2; destruct (_ && _); try lia;
        destruct (Z.to_nat r), (Z.to_nat c); simpl; lia.
    - destruct (separate_feet_cells _ Ha E) as (_ & _ & Hcells).
      split; intros r c; destruct (Hcells r c) as [[E1 E2] | [E1 E2]];
        rewrite ?E1, ?E2; lia. }
  destruct (_separate_feet (cleaned_array self)) as [l r]. destruct Hnn as [Hl Hr].
  cbn [fst snd left_foot right_foot set_feet].
  destruct (omap id [get_virtual_footprint l; get_virtual_footprint r])
    as [|b bs] eqn:Eboxes.
  - proj_simpl. repeat (split; [first [reflexivity | assumption]|]).
    intros zones Hz. rewrite Hbox in Hz. discriminate Hz.
  - cbn [fst snd left_foot right_foot set_final_bbox set_feet final_bbox pressure_array].
    set (amin := list_min b.1 (map fst bs)) in *.
    set (amax := list_max b.2 (map snd bs)) in *.
    assert (Hcover : forall f, f = l \/ f = r -> np_sum f <> 0 ->
              0 <= amin /\
              forall i : nat, Z.of_nat i < amin \/ amax < Z.of_nat i ->
                              zsum (nth i f []) = 0).
    { intros f Hf Hsum.
      assert (Hlow : 0 <= amin).
      { apply (combined_box_lower _ _ _ _ 0 Eboxes). intros mn mx [H | H].
        - destruct (footprint_spec l Hl (footprint_some l _ H)) as (mn' & mx' & E & H0 & _).
          rewrite E in H. inversion H; subst. exact H0.
        - destruct (footprint_spec r Hr (footprint_some r _ H)) as (mn' & mx' & E & H0 & _).
          rewrite E in H. inversion H; subst. exact H0. }
      split; [exact Hlow|].
      assert (Hfn : nonneg f) by (destruct Hf; subst; assumption).
      destruct (footprint_spec f Hfn Hsum) as (mn & mx & E & _ & Hout).
      assert (Hin : get_virtual_footprint l = Some (mn, mx)
                    \/ get_virtual_footprint r = Some (mn, mx))
        by (destruct Hf; subst; auto).
      destruct (combined_box _ _ _ _ Eboxes mn mx Hin) as [H1 H2].
      fold amin in H1. fold amax in H2.
      intros i Hi. apply Hout. lia. }
    assert (Htotal : np_sum l + np_sum r <> 0).
    { pose proof (np_sum_nonneg l Hl). pose proof (np_sum_nonneg r Hr).
      destruct (get_virtual_footprint l) as [bl|] eqn:El.
      - pose proof (footprint_some l bl El). lia.
      - destruct (get_virtual_footprint r) as [br|] eqn:Er.
        + pose proof (footprint_some r br Er). lia.
        + discriminate Eboxes. }
    destruct (Z.eqb_spec (np_sum l + np_sum r) 0) as [E | _]; [contradiction|].
    destruct (_get_foot_zone_indices (Some (amin, amax))
                (Z.of_nat (nrows (pressure_array self)))) as [zones|] eqn:Ez.
    + proj_simpl. repeat (split; [first [reflexivity | assumption]|]).
      intros zones' Hz. rewrite Ez in Hz. inversion Hz; subst zones'. clear Hz.
      split; [reflexivity|].
      intros f Hf Hsum. destruct (Hcover f Hf Hsum) as [Hlow Hout].
      destruct (Z.ltb_spec (amax - amin + 1) 3) as [Hh | Hh].
      { unfold _get_foot_zone_indices in Ez.
        destruct (Z.ltb_spec (amax - amin + 1) 3); [discriminate | lia]. }
      rewrite (zones_of_bbox amin amax _ Hh) in Ez. inversion Ez; subst zones. clear Ez.
      cbn [hind mid fore Ndimage.start Ndimage.stop].
      destruct (zone_bounds (amax - amin + 1) Hh) as (H3 & H4 & Hlt & _).
      rewrite row_slice_split by lia. rewrite row_slice_split by lia.
      apply row_slice_covers; [lia|]. intros i Hi. apply Hout. lia.
    + proj_simpl. repeat (split; [first [reflexivity | assumption]|]).
      intros zones Hz. rewrite Ez in Hz. discriminate Hz.
Qed.

Lemma percentages_sum (zh zm zf t : Z) :
  zh + zm + zf = t -> t <> 0 ->
  (Qmult (Qdiv (inject_Z zh) (inject_Z t)) (inject_Z 100)
   + Qmult (Qdiv (inject_Z zm) (inject_Z t)) (inject_Z 100)
   + Qmult (Qdiv (inject_Z zf) (inject_Z t)) (inject_Z 100) == inject_Z 100)%Q.
Proof.
  intros Hsum Ht.
  assert (Hq : ~ (inject_Z t == 0)%Q).
  { unfold Qeq. simpl. lia. }
  assert (Hs : (inject_Z zh + inject_Z zm + inject_Z zf == inject_Z t)%Q).
  { rewrite <- !inject_Z_plus, Hsum. reflexivity. }
  transitivity ((inject_Z zh + inject_Z zm + inject_Z zf) / inject_Z t * inject_Z 100)%Q.
  - field. exact Hq.
  - rewrite Hs. field. exact Hq.
Qed.

Lemma percentage_bounds (z t : Z) :
  0 <= z <= t -> t <> 0 ->
  (0 <= Qmult (Qdiv (inject_Z z) (inject_Z t)) (inject_Z 100) <= inject_Z 100)%Q.
Proof.
  intros Hz Ht. destruct t as [|p|p]; try lia.
  unfold Qle, Qdiv, Qmult, Qinv, inject_Z. simpl. split; nia.
Qed.

(** ** The whole run *)

Lemma bind_Ok {A B} (m : result A) (f : A -> result B) (b : B) :
  m ≫= f = Ok b -> exists a, m = Ok a /\ f a = Ok b.
Proof. destruct m as [a|e]; [|discriminate]. intros H. exists a. split; [reflexivity | exact H]. Qed.

Lemma parse_rows_rectangular (v : json) (a : grid) :
  parse_rows v = Ok a -> rectangular a = true.
Proof.
  unfold parse_rows. intros H.
  apply bind_Ok in H. destruct H as [keys [_ H]].
  apply bind_Ok in H. destruct H as [keyed [_ H]].
  apply bind_Ok in H. destruct H as [pm [_ H]].
  unfold np_array in H. destruct (rectangular pm) eqn:E; [|discriminate].
  inversion H; subst. exact E.
Qed.

(** Ingestion only writes [pressure_array] and [pressure_data]. *)
Lemma process_input_data_spec (self self1 : Analyzer) :
  _process_input_data self = Ok self1 ->
  rectangular (pressure_array self1) = true
  /\ filename self1 = filename self
  /\ cleaned_array self1 = cleaned_array self
  /\ left_foot self1 = left_foot self /\ right_foot self1 = right_foot self
  /\ distribution self1 = distribution self /\ foot_types self1 = foot_types self
  /\ final_bbox self1 = final_bbox self /\ cop self1 = cop self
  /\ error_message self1 = error_message self.
Proof.
  unfold _process_input_data. intros H.
  assert (Hempty : forall s, Ok (set_pressure_array [] self) = Ok s ->
    rectangular (pressure_array s) = true
    /\ filename s = filename self
    /\ cleaned_array s = cleaned_array self
    /\ left_foot s = left_foot self /\ right_foot s = right_foot self
    /\ distribution s = distribution self /\ foot_types s = foot_types self
    /\ final_bbox s = final_bbox self /\ cop s = cop self
    /\ error_message s = error_message self).
  { intros s Hs. inversion Hs; subst. repeat split. }
  destruct (dict_get (json_data self) "RawPressureByRows") as [rows|e].
  - destruct (negb (truthy rows)); [apply Hempty; exact H|].
    destruct (parse_rows rows) as [a|e] eqn:Ep.
    + inversion H; subst. proj_simpl.
      split; [exact (parse_rows_rectangular rows a Ep)|]. repeat split.
    + destruct (caught e); [apply Hempty; exact H | discriminate].
  - destruct (caught e); [apply Hempty; exact H | discriminate].
Qed.

Lemma filter_array_shaped (a : grid) :
  rectangular a = true -> shaped a (filter_array a).
Proof.
  intros Ha. unfold filter_array. destruct (np_max a =? 0).
  - repeat split. exact Ha.
  - assert (Hth : shaped a (np_where_gt Config.noise_threshold a))
      by (apply shaped_map; exact Ha).
    eapply shaped_trans; [exact Hth|].
    apply shaped_mul_mask; [apply Hth|].
    eapply shaped_trans; [apply shaped_gt_zero; apply Hth|].
    apply shaped_opening.
Qed.

Lemma analyze_foot_type_fields (s : Analyzer) :
  distribution (_analyze_foot_type s) = distribution s
  /\ left_foot (_analyze_foot_type s) = left_foot s
  /\ right_foot (_analyze_foot_type s) = right_foot s
  /\ final_bbox (_analyze_foot_type s) = final_bbox s
  /\ pressure_array (_analyze_foot_type s) = pressure_array s
  /\ cop (_analyze_foot_type s) = cop s
  /\ error_message (_analyze_foot_type s) = error_message s.
Proof.
  unfold _analyze_foot_type. destruct (_get_foot_zone_indices _ _); repeat split.
Qed.

Lemma calculate_pressure_distribution_fields (s : Analyzer) :
  cop (_calculate_pressure_distribution s) = cop s
  /\ error_message (_calculate_pressure_distribution s) = error_message s.
Proof.
  unfold _calculate_pressure_distribution.
  destruct (_separate_feet (cleaned_array s)) as [l r].
  destruct (omap id _) as [|b bs]; [split; reflexivity|].
  destruct (_ =? 0); [split; reflexivity|].
  destruct (_get_foot_zone_indices _ _); split; reflexivity.
Qed.

(** A successful run: the analyzer [s3] that enters the distribution
    stage has a rectangular cleaned grid and still has its initial
    distribution, foot types and bounding box; the later stages only add
    the foot types and the final results. *)
Lemma run_analysis_success (json_data : json) (filename : string) (self : Analyzer) :
  run_analysis (__init__ json_data filename) = (true, self) ->
  exists s3,
    rectangular (cleaned_array s3) = true
    /\ final_bbox s3 = None /\ distribution s3 = ∅ /\ foot_types s3 = ∅
    /\ np_size (pressure_array s3) <> 0%nat
    /\ cleaned_array s3 = filter_array (pressure_array s3)
    /\ distribution self = distribution (_calculate_pressure_distribution s3)
    /\ left_foot self = left_foot (_calculate_pressure_distribution s3)
    /\ right_foot self = right_foot (_calculate_pressure_distribution s3)
    /\ final_bbox self = final_bbox (_calculate_pressure_distribution s3)
    /\ pressure_array self = pressure_array (_calculate_pressure_distribution s3)
    /\ foot_types self = foot_types (_analyze_foot_type (_calculate_pressure_distribution s3))
    /\ cop self = cop s3
    /\ error_message self = None.
Proof.
  unfold run_analysis. intros H.
  destruct (_process_input_data (__init__ json_data filename)) as [s1|e] eqn:E1;
    [|discriminate].
  destruct (process_input_data_spec _ _ E1)
    as (Hrect & _ & _ & _ & _ & Hd & Hft & Hbb & Hcop & Herr).
  destruct (Nat.eqb_spec (np_size (pressure_array s1)) 0) as [E | Hsize]; [discriminate|].
  inversion H; subst self; clear H.
  exists (_calculate_cop (_filter_noise s1)).
  assert (Hfn : _filter_noise s1 = set_cleaned_array (filter_array (pressure_array s1)) s1).
  { unfold _filter_noise. destruct (Nat.eqb_spec (np_size (pressure_array s1)) 0); [contradiction|].
    reflexivity. }
  assert (Hcs : forall s,
            cleaned_array (_calculate_cop s) = cleaned_array s
            /\ final_bbox (_calculate_cop s) = final_bbox s
            /\ distribution (_calculate_cop s) = distribution s
            /\ foot_types (_calculate_cop s) = foot_types s
            /\ pressure_array (_calculate_cop s) = pressure_array s
            /\ error_message (_calculate_cop s) = error_message s).
  { intros s. unfold _calculate_cop. destruct (_ || _); repeat split. }
  destruct (Hcs (_filter_noise s1)) as (C1 & C2 & C3 & C4 & C5 & C6).
  rewrite C1, C2, C3, C4, C5, Hfn. proj_simpl.
  split; [apply filter_array_shaped; exact Hrect|].
  split; [rewrite Hbb; reflexivity|].
  split; [rewrite Hd; reflexivity|].
  split; [rewrite Hft; reflexivity|].
  split; [exact Hsize|].
  split; [reflexivity|].
  unfold stages. rewrite Hfn.
  set (s4 := _calculate_pressure_distribution _).
  destruct (analyze_foot_type_fields s4) as (A1 & A2 & A3 & A4 & A5 & A6 & A7).
  unfold _prepare_final_results. proj_simpl.
  rewrite A1, A2, A3, A4, A5, A6, A7.
  repeat (split; [reflexivity|]).
  destruct (calculate_pressure_distribution_fields
              (_calculate_cop (set_cleaned_array (filter_array (pressure_array s1)) s1)))
    as (F1 & F2).
  fold s4 in F1, F2. rewrite F1, F2. split; [reflexivity|].
  rewrite <- Hfn, C6, Hfn. proj_simpl. rewrite Herr. reflexivity.
Qed.

(** The distribution after a successful run in which zones are defined. *)
Lemma distribution_of_run (json_data : json) (filename : string)
    (self : Analyzer) (zones : Zones) :
  run_analysis (__init__ json_data filename) = (true, self) ->
  _get_foot_zone_indices (final_bbox self)
    (Z.of_nat (nrows (pressure_array self))) = Some zones ->
  distribution self =
    fill_distribution zones
      [("L"%string, left_foot self); ("R"%string, right_foot self)] ∅
  /\ nonneg (left_foot self) /\ nonneg (right_foot self)
  /\ forall f, f = left_foot self \/ f = right_foot self -> np_sum f <> 0 ->
       np_sum (row_slice f (Ndimage.start (hind zones)) (Ndimage.stop (hind zones)))
       + np_sum (row_slice f (Ndimage.start (mid zones)) (Ndimage.stop (mid zones)))
       + np_sum (row_slice f (Ndimage.start (fore zones)) (Ndimage.stop (fore zones)))
       = np_sum f.
Proof.
  intros Hrun Hz.
  destruct (run_analysis_success _ _ _ Hrun)
    as (s3 & Hrect & Hbb & Hd & _ & _ & _ & Ed & El & Er & Eb & Ep & _).
  destruct (calculate_pressure_distribution_spec s3 Hrect Hbb)
    as (_ & _ & _ & _ & _ & _ & Hnl & Hnr & Hzones).
  rewrite Eb, Ep in Hz. destruct (Hzones zones Hz) as [Hdist Hpart].
  rewrite Ed, El, Er, Hdist, Hd. repeat split; assumption.
Qed.





(** ** The all-zero frame *)

Lemma filter_array_zero (a : grid) :
  (forall r c, at2 0 a r c = 0) -> forall r c, at2 0 (filter_array a) r c = 0.
Proof.
  intros Ha r c. unfold filter_array. destruct (np_max a =? 0); [apply Ha|].
  rewrite at2_mul_mask, at2_np_where_gt, Ha.
  destruct (Config.noise_threshold <? 0); reflexivity.
Qed.

(** C5, the claim on the 10x10 frame of zeros: the run succeeds with no
    centre of pressure and an empty distribution, but [foot_types] has no
    entry at all, so neither side is reported as no-data. *)
Lemma zero_frame_has_no_foot_type_entries :
  all_zero (pressure_array (run_analysis (__init__ zero_document "frame.json")).2) = true
  /\ ~ ((run_analysis (__init__ zero_document "frame.json")).1 = true
        /\ cop (run_analysis (__init__ zero_document "frame.json")).2 = None
        /\ distribution (run_analysis (__init__ zero_document "frame.json")).2 = ∅
        /\ (exists e,
              foot_types (run_analysis (__init__ zero_document "frame.json")).2 !! LEFT
                = Some e /\ ft_type e = NO_DATA)
        /\ (exists e,
              foot_types (run_analysis (__init__ zero_document "frame.json")).2 !! RIGHT
                = Some e /\ ft_type e = NO_DATA)).
Proof.
  split; [vm_compute; reflexivity|].
  intros (_ & _ & _ & [e [He _]] & _).
  vm_compute in He. discriminate He.
Qed.

(** C5 (amended): for every non-empty all-zero input grid the run
    completes normally with an absent centre of pressure, an empty
    distribution, no bounding box, and an empty [foot_types] dictionary
    (no entry for either side). *)
Theorem zero_grid_degenerate_result (json_data : json) (filename : string)
    (s1 : Analyzer) :
  _process_input_data (__init__ json_data filename) = Ok s1 ->
  np_size (pressure_array s1) <> 0%nat ->
  all_zero (pressure_array s1) = true ->
  exists self,
    run_analysis (__init__ json_data filename) = (true, self)
    /\ error_message self = None
    /\ cop self = None
    /\ distribution self = ∅
    /\ foot_types self = ∅
    /\ final_bbox self = None
    /\ left_foot self = [] /\ right_foot self = [].
Proof.
  intros E1 Hsize Hzero.
  destruct (process_input_data_spec _ _ E1)
    as (Hrect & _ & _ & _ & _ & Hd & Hft & Hbb & Hcop & Herr).
  unfold run_analysis. rewrite E1.
  destruct (Nat.eqb_spec (np_size (pressure_array s1)) 0) as [E | _]; [contradiction|].
  eexists. split; [reflexivity|].
  assert (Hsum : np_sum (filter_array (pressure_array s1)) = 0).
  { apply np_sum_zero. apply filter_array_zero. apply all_zero_spec. exact Hzero. }
  unfold stages.
  assert (Hfn : _filter_noise s1 = set_cleaned_array (filter_array (pressure_array s1)) s1).
  { unfold _filter_noise.
    destruct (Nat.eqb_spec (np_size (pressure_array s1)) 0); [contradiction | reflexivity]. }
  rewrite Hfn.
  assert (Hc : _calculate_cop (set_cleaned_array (filter_array (pressure_array s1)) s1)
               = set_cop None (set_cleaned_array (filter_array (pressure_array s1)) s1)).
  { unfold _calculate_cop. proj_simpl. rewrite Hsum, Z.eqb_refl, orb_true_r. reflexivity. }
  rewrite Hc.
  assert (Hp : _calculate_pressure_distribution
                 (set_cop None (set_cleaned_array (filter_array (pressure_array s1)) s1))
               = set_feet [] []
                   (set_cop None (set_cleaned_array (filter_array (pressure_array s1)) s1))).
  { unfold _calculate_pressure_distribution. proj_simpl.
    unfold _separate_feet. rewrite Hsum, Z.eqb_refl. reflexivity. }
  rewrite Hp.
  assert (Ha : forall s, final_bbox s = None -> _analyze_foot_type s = s).
  { intros s Hs. unfold _analyze_foot_type. rewrite Hs. reflexivity. }
  rewrite Ha by (proj_simpl; exact Hbb).
  unfold _prepare_final_results. proj_simpl.
  rewrite Herr, Hd, Hft, Hbb. repeat split.
Qed.

Lemma zero_grid_degenerate_result_witness :
  exists self,
    run_analysis (__init__ zero_document "frame.json") = (true, self)
    /\ error_message self = None
    /\ cop self = None
    /\ distribution self = ∅
    /\ foot_types self = ∅
    /\ final_bbox self = None
    /\ left_foot self = [] /\ right_foot self = [].
Proof.
  refine (zero_grid_degenerate_result zero_document "frame.json"
            (set_pressure_data (Some (tabulate 10 10 (fun _ _ => 0)))
               (set_pressure_array (tabulate 10 10 (fun _ _ => 0))
                  (__init__ zero_document "frame.json"))) _ _ _);
    vm_compute; first [reflexivity | discriminate].
Defined.

(** ** Ingestion *)

Lemma mapM_Ok_inv {A B} (f : A -> result B) (l : list A) (ys : list B) :
  mapM f l = Ok ys -> Forall2 (fun x y => f x = Ok y) l ys.
Proof.
  revert ys. induction l as [|x l IH]; intros ys H.
  - inversion H. constructor.
  - cbn in H. apply bind_Ok in H. destruct H as [y [Hy H]].
    apply bind_Ok in H. destruct H as [k [Hk H]].
    inversion H; subst. constructor; [exact Hy | apply IH; exact Hk].
Qed.

Lemma mapM_Ok_intro {A B} (f : A -> result B) (P : A -> B -> Prop) (l : list A) :
  (forall x, In x l -> exists y, f x = Ok y /\ P x y) ->
  exists ys, mapM f l = Ok ys /\ Forall2 P l ys.
Proof.
  induction l as [|x l IH]; intros H.
  - exists []. split; [reflexivity | constructor].
  - destruct (H x (or_introl eq_refl)) as [y [Hy HP]].
    destruct IH as [ys [Hys HF]]; [intros x' Hx'; apply H; right; exact Hx'|].
    exists (y :: ys). split; [|constructor; assumption].
    cbn. rewrite Hy. cbn. fold (mapM f l). rewrite Hys. reflexivity.
Qed.

Lemma Forall2_In_l {A B} (P : A -> B -> Prop) l ys x :
  Forall2 P l ys -> In x l -> exists y, In y ys /\ P x y.
Proof.
  induction 1 as [|x' y' l' ys' Hxy HF IH]; intros Hin; [destruct Hin|].
  destruct Hin as [-> | Hin].
  - exists y'. split; [left; reflexivity | exact Hxy].
  - destruct (IH Hin) as [y [Hy HP]]. exists y. split; [right; exact Hy | exact HP].
Qed.

Lemma Forall2_In_r {A B} (P : A -> B -> Prop) l ys y :
  Forall2 P l ys -> In y ys -> exists x, In x l /\ P x y.
Proof.
  induction 1 as [|x' y' l' ys' Hxy HF IH]; intros Hin; [destruct Hin|].
  destruct Hin as [-> | Hin].
  - exists x'. split; [left; reflexivity | exact Hxy].
  - destruct (IH Hin) as [x [Hx HP]]. exists x. split; [right; exact Hx | exact HP].
Qed.

Lemma Forall2_same_length {A B} (P : A -> B -> Prop) l ys :
  Forall2 P l ys -> length l = length ys.
Proof. induction 1; simpl; congruence. Qed.

Lemma insert_by_In {A} (x y : Z * A) (l : list (Z * A)) :
  In y (insert_by x l) <-> y = x \/ In y l.
Proof.
  induction l as [|z l IH]; simpl.
  - split; intros [H | H]; auto.
  - destruct (x.1 <=? z.1); simpl.
    + split; intros [H | H]; auto.
    + rewrite IH. split; intros H; tauto.
Qed.

Lemma sorted_by_In {A} (x : A) (l : list (Z * A)) :
  In x (sorted_by l) <-> In x (map snd l).
Proof.
  unfold sorted_by. rewrite !in_map_iff.
  assert (H : forall p, In p (foldr insert_by [] l) <-> In p l).
  { intros p. induction l as [|q l IH]; simpl; [tauto|].
    rewrite insert_by_In, IH. split; intros [H | H]; auto. }
  split; intros [p [Hp Hin]]; exists p; (split; [exact Hp|]); apply H; exact Hin.
Qed.

Lemma insert_by_length {A} (x : Z * A) (l : list (Z * A)) :
  length (insert_by x l) = S (length l).
Proof.
  induction l as [|z l IH]; simpl; [reflexivity|].
  destruct (x.1 <=? z.1); simpl; [reflexivity | rewrite IH; reflexivity].
Qed.

Lemma sorted_by_length {A} (l : list (Z * A)) : length (sorted_by l) = length l.
Proof.
  unfold sorted_by. rewrite length_map.
  induction l as [|q l IH]; simpl; [reflexivity|]. rewrite insert_by_length, IH. reflexivity.
Qed.

Lemma assoc_Some (key : string) (items : list (string * json)) (v : json) :
  assoc key items = Some v -> In (key, v) items.
Proof.
  induction items as [|[k w] items IH]; simpl; [discriminate|].
  destruct (String.eqb_spec k key) as [-> | _].
  - intros H. inversion H; subst. left. reflexivity.
  - intros H. right. apply IH. exact H.
Qed.

Lemma assoc_of_key (key : string) (items : list (string * json)) :
  In key (map fst items) -> exists v, assoc key items = Some v.
Proof.
  induction items as [|[k w] items IH]; simpl; [intros []|].
  destruct (String.eqb_spec k key) as [-> | Hne].
  - intros _. exists w. reflexivity.
  - intros [H | H]; [contradiction|]. apply IH. exact H.
Qed.

Lemma split_aux_nonempty (sep : string) (skip : nat) (cur : list ascii) (s : string) :
  split_aux sep skip cur s <> [].
Proof.
  revert skip cur. induction s as [|ch s IH]; intros skip cur; simpl; [discriminate|].
  destruct skip; [|apply IH].
  match goal with |- (if ?b then _ else _) <> _ => destruct b end;
    [discriminate | apply IH].
Qed.

(** The sort keys leave the row identifiers in place. *)
Lemma keyed_keys (keys : list string) (keyed : list (Z * string)) :
  mapM (fun x => k ← sort_key x; mret (k, x)) keys = Ok keyed ->
  map snd keyed = keys.
Proof.
  intros H. apply mapM_Ok_inv in H.
  induction H as [|x p l ps Hxp HF IH]; simpl; [reflexivity|].
  f_equal; [|exact IH].
  apply bind_Ok in Hxp. destruct Hxp as [k [_ Hk]]. inversion Hk. reflexivity.
Qed.

(** A row that cannot be parsed makes the parsing of the rows fail. *)
Lemma parse_rows_bad_row (rows : list (string * json)) (key : string) (v : json) :
  assoc key rows = Some v ->
  (forall row, (cells ← str_split v ", "; mapM py_int cells) <> Ok row) ->
  forall a, parse_rows (JDict rows) <> Ok a.
Proof.
  intros Hkey Hbad a H. unfold parse_rows in H.
  apply bind_Ok in H. destruct H as [keys [Hkeys H]].
  simpl in Hkeys. inversion Hkeys; subst keys; clear Hkeys.
  apply bind_Ok in H. destruct H as [keyed [Hkeyed H]].
  apply bind_Ok in H. destruct H as [pm [Hpm _]].
  apply keyed_keys in Hkeyed.
  apply mapM_Ok_inv in Hpm.
  assert (Hin : In key (sorted_by keyed)).
  { apply (proj2 (sorted_by_In key keyed)). rewrite Hkeyed.
    apply in_map_iff. exists (key, v). split; [reflexivity|].
    apply assoc_Some. exact Hkey. }
  destruct (Forall2_In_l _ _ _ _ Hpm Hin) as [row [_ Hrow]].
  simpl in Hrow. rewrite Hkey in Hrow. cbn [mbind result_bind] in Hrow.
  exact (Hbad row Hrow).
Qed.

(** A cell that [int] refuses makes the parsing of the rows fail. *)
Lemma parse_rows_non_numeric (rows : list (string * json)) (key s cell : string) :
  assoc key rows = Some (JStr s) ->
  In cell (py_split s ", ") ->
  (forall z, py_int cell <> Ok z) ->
  forall a, parse_rows (JDict rows) <> Ok a.
Proof.
  intros Hkey Hcell Hbad. apply (parse_rows_bad_row rows key (JStr s) Hkey).
  intros row Hrow. cbn in Hrow. apply mapM_Ok_inv in Hrow.
  destruct (Forall2_In_l _ _ _ _ Hrow Hcell) as [z [_ Hz]].
  exact (Hbad z Hz).
Qed.

(** A row that is not a string makes the parsing of the rows fail. *)
Lemma parse_rows_not_a_string (rows : list (string * json)) (key : string) (v : json) :
  assoc key rows = Some v ->
  (forall s, v <> JStr s) ->
  forall a, parse_rows (JDict rows) <> Ok a.
Proof.
  intros Hkey Hv. apply (parse_rows_bad_row rows key v Hkey).
  intros row Hrow. destruct v; try discriminate Hrow. exact (Hv s eq_refl).
Qed.

(** Rows that all parse, with [n] cells each, give a non-empty array. *)
Lemma parse_rows_well_formed (rows : list (string * json)) (n : nat) :
  rows <> [] ->
  (forall key v, In (key, v) rows ->
     (exists k, sort_key key = Ok k)
     /\ exists s zs, v = JStr s /\ mapM py_int (py_split s ", ") = Ok zs /\ length zs = n) ->
  exists a, parse_rows (JDict rows) = Ok a /\ np_size a <> 0%nat.
Proof.
  intros Hne Hrows.
  assert (Hn : n <> 0%nat).
  { destruct rows as [|[key v] rows']; [contradiction|].
    destruct (Hrows key v (or_introl eq_refl)) as [_ (s & zs & _ & Hzs & Hlen)].
    apply mapM_Ok_inv in Hzs. apply Forall2_same_length in Hzs.
    pose proof (split_aux_nonempty ", " 0 [] s) as Hsplit. fold (py_split s ", ") in Hsplit.
    destruct (py_split s ", "); [contradiction|]. simpl in Hzs. lia. }
  destruct (mapM_Ok_intro (fun x => k ← sort_key x; mret (k, x)) (fun _ _ => True)
              (map fst rows)) as [keyed [Hkeyed _]].
  { intros x Hx. apply in_map_iff in Hx. destruct Hx as [[key v] [<- Hin]].
    destruct (Hrows key v Hin) as [[k Hk] _].
    exists (k, key). split; [|exact I]. simpl. rewrite Hk. reflexivity. }
  pose proof (keyed_keys _ _ Hkeyed) as Hsnd.
  destruct (mapM_Ok_intro
              (fun key => v ← dict_item (JDict rows) key;
                          cells ← str_split v ", "; mapM py_int cells)
              (fun _ row => length row = n) (sorted_by keyed)) as [pm [Hpm Hlen]].
  { intros key Hkey. apply (proj1 (sorted_by_In key keyed)) in Hkey.
    rewrite Hsnd in Hkey.
    destruct (assoc_of_key key rows Hkey) as [v Hv].
    destruct (Hrows key v (assoc_Some _ _ _ Hv)) as [_ (s & zs & -> & Hzs & Hl)].
    exists zs. split; [|exact Hl]. simpl. rewrite Hv. cbn. exact Hzs. }
  assert (Hpmlen : length pm = length rows).
  { rewrite <- (Forall2_same_length _ _ _ Hlen), sorted_by_length.
    rewrite <- (length_map snd keyed), Hsnd. apply length_map. }
  assert (Hrowlen : forall row, In row pm -> length row = n).
  { intros row Hrow. destruct (Forall2_In_r _ _ _ _ Hlen Hrow) as [_ [_ H]]. exact H. }
  assert (Hcols : ncols pm = n).
  { destruct pm as [|row pm']; [destruct rows; [contradiction | discriminate]|].
    simpl. apply Hrowlen. left. reflexivity. }
  assert (Hrect : rectangular pm = true).
  { apply rectangular_spec. intros row Hrow. rewrite Hcols. apply Hrowlen. exact Hrow. }
  exists pm. split.
  - unfold parse_rows. simpl dict_keys. cbn [mbind result_bind].
    rewrite Hkeyed. cbn [mbind result_bind]. rewrite Hpm. cbn [mbind result_bind].
    unfold np_array. rewrite Hrect. reflexivity.
  - unfold np_size. rewrite Hcols. unfold nrows. rewrite Hpmlen.
    destruct rows; [contradiction|]. simpl. lia.
Qed.

(** A run on rows that do not parse returns [False]. *)
Lemma run_analysis_unparsed (filename : string) (items rows : list (string * json)) :
  assoc "RawPressureByRows" items = Some (JDict rows) ->
  rows <> [] ->
  (forall a, parse_rows (JDict rows) <> Ok a) ->
  (run_analysis (__init__ (JDict items) filename)).1 = false.
Proof.
  intros Hrows Hne Hbad.
  unfold run_analysis, _process_input_data.
  cbn [__init__ json_data dict_get]. rewrite Hrows. cbn [default]. unfold id.
  assert (Htruthy : truthy (JDict rows) = true)
    by (destruct rows; [contradiction | reflexivity]).
  rewrite Htruthy. cbn [negb].
  destruct (parse_rows (JDict rows)) as [a|e] eqn:Ep.
  - exfalso. exact (Hbad a eq_refl).
  - destruct (caught e); reflexivity.
Qed.



(** ** Labels and connected components *)

Section LabelClasses.

Variable input : mask.
Hypothesis input_rect : rectangular input = true.

(** The labels of [label] are the connected components: connected cells
    carry the same label, and cells with the same label are connected. *)
Lemma label_classes :
  (forall p q, connected input p q ->
     at2 0%nat (Ndimage.label input).1 p.1 p.2
     = at2 0%nat (Ndimage.label input).1 q.1 q.2)
  /\ (forall p q,
        at2 0%nat (Ndimage.label input).1 p.1 p.2 <> 0%nat ->
        at2 0%nat (Ndimage.label input).1 p.1 p.2
        = at2 0%nat (Ndimage.label input).1 q.1 q.2 ->
        connected input p q).
Proof.
  assert (H :
    (forall r s : Z * Z, adjacent r s ->
       at2 false input r.1 r.2 = true -> at2 false input s.1 s.2 = true ->
       at2 0%nat (Ndimage.label input).1 r.1 r.2
       = at2 0%nat (Ndimage.label input).1 s.1 s.2)
    /\ (forall r s : Z * Z,
          at2 0%nat (Ndimage.label input).1 r.1 r.2 <> 0%nat ->
          at2 0%nat (Ndimage.label input).1 r.1 r.2
          = at2 0%nat (Ndimage.label input).1 s.1 s.2 ->
          connected input r s)).
  { apply (label_fold_ind input input_rect (fun acc =>
      (forall r s : Z * Z, adjacent r s ->
         at2 false input r.1 r.2 = true -> at2 false input s.1 s.2 = true ->
         at2 0%nat acc.1 r.1 r.2 = at2 0%nat acc.1 s.1 s.2)
      /\ (forall r s : Z * Z,
            at2 0%nat acc.1 r.1 r.2 <> 0%nat ->
            at2 0%nat acc.1 r.1 r.2 = at2 0%nat acc.1 s.1 s.2 ->
            connected input r s))).
    - intros seen [lab n] p (Hs & Hle & _ & _) [Hadj Hsame].
      unfold Ndimage.label_step.
      destruct (at2 false input p.1 p.2 && Nat.eqb (at2 0%nat lab p.1 p.2) 0) eqn:E;
        [|split; assumption].
      cbn [fst snd] in *. zb. rename H into Hp.
      assert (Hcomp : forall r s : Z * Z, adjacent r s ->
                at2 false input s.1 s.2 = true ->
                at2 false (Ndimage.component input p.1 p.2) r.1 r.2 = true ->
                at2 false (Ndimage.component input p.1 p.2) s.1 s.2 = true).
      { intros r s Hrs Hfs Hr.
        apply (component_complete input input_rect p s).
        eapply connected_step; [|exact Hrs | exact Hfs].
        apply (component_sound input input_rect p r Hp Hr). }
      split.
      + intros r s Hrs Hfr Hfs.
        rewrite !(at2_label_step_new input input_rect lab n p _ _ Hs Hp).
        destruct (at2 false (Ndimage.component input p.1 p.2) r.1 r.2) eqn:Er,
                 (at2 false (Ndimage.component input p.1 p.2) s.1 s.2) eqn:Es.
        * reflexivity.
        * rewrite (Hcomp r s Hrs Hfs Er) in Es. discriminate Es.
        * rewrite (Hcomp s r (adjacent_sym _ _ Hrs) Hfr Es) in Er. discriminate Er.
        * apply Hadj; assumption.
      + intros r s.
        rewrite !(at2_label_step_new input input_rect lab n p _ _ Hs Hp).
        destruct (at2 false (Ndimage.component input p.1 p.2) r.1 r.2) eqn:Er,
                 (at2 false (Ndimage.component input p.1 p.2) s.1 s.2) eqn:Es.
        * intros _ _. apply connected_trans with p.
          -- apply connected_sym. apply (component_sound input input_rect p r Hp Er).
          -- apply (component_sound input input_rect p s Hp Es).
        * intros _ Heq. pose proof (Hle s.1 s.2). simpl in *. lia.
        * intros _ Heq. pose proof (Hle r.1 r.2). simpl in *. lia.
        * apply Hsame.
    - cbn [fst snd]. split.
      + intros r s _ _ _. rewrite !at2_tabulate.
        destruct (in_bounds _ _ r.1 r.2), (in_bounds _ _ s.1 s.2); reflexivity.
      + intros r s Hr. exfalso. apply Hr. rewrite at2_tabulate.
        destruct (in_bounds _ _ r.1 r.2); reflexivity. }
  destruct H as [Hadj Hsame]. split; [|exact Hsame].
  intros p q Hpq. induction Hpq as [p Hp | p q r Hpq IH Hqr Hr]; [reflexivity|].
  rewrite IH. apply Hadj; [exact Hqr | | exact Hr].
  apply (connected_fg input p q Hpq).
Qed.

End LabelClasses.

(** ** The side of a component *)

(** After [k] rounds of the loop of lines 207-211, a cell whose label is
    at most [k] is in the left mask exactly when the centre of mass of its
    label lies left of [mid_col], and in the right mask otherwise. *)
Lemma assign_side (array : grid) (lab : labels) (mid_col : Z) (k : nat) r c :
  shaped array lab ->
  (1 <= at2 0%nat lab r c <= k)%nat ->
  at2 false (assign_upto array lab mid_col k).1 r c
  = Qltb (Ndimage.center_of_mass_label array lab (at2 0%nat lab r c)).2
         (inject_Z mid_col)
  /\ at2 false (assign_upto array lab mid_col k).2 r c
     = negb (Qltb (Ndimage.center_of_mass_label array lab (at2 0%nat lab r c)).2
                  (inject_Z mid_col)).
Proof.
  intros Hs. induction k as [|k IH]; intros Hk; [lia|].
  destruct (assign_inv array lab mid_col Hs k) as (_ & _ & Hcells).
  destruct (Hcells r c) as [_ Huni].
  assert (Hb : in_bounds (nrows lab) (ncols lab) r c = true)
    by (apply (lab_in_bounds array lab Hs); lia).
  unfold assign_upto in *. rewrite seq_S, map_app, fold_left_app.
  cbn [map fold_left Nat.add].
  match goal with
  | |- context [fold_left ?g ?l ?i] => set (prev := fold_left g l i) in *
  end.
  unfold assign_step.
  destruct (Nat.eq_dec (at2 0%nat lab r c) (S k)) as [E | E].
  - rewrite E in Huni |- *.
    assert (E1 : Nat.leb (S k) k = false) by (apply Nat.leb_gt; lia).
    rewrite E1, andb_false_r in Huni. apply orb_false_iff in Huni.
    destruct Huni as [Hl Hr].
    destruct (Qltb (Ndimage.center_of_mass_label array lab (S k)).2 (inject_Z mid_col))
      eqn:Eq; cbn [fst snd].
    + rewrite at2_mark, Hb, E, Nat.eqb_refl. split; [reflexivity | exact Hr].
    + rewrite at2_mark, Hb, E, Nat.eqb_refl. split; [exact Hl | reflexivity].
  - assert (Hk' : (1 <= at2 0%nat lab r c <= k)%nat) by lia.
    destruct (IH Hk') as [IHl IHr].
    assert (Ene : Nat.eqb (at2 0%nat lab r c) (S k) = false) by (apply Nat.eqb_neq; exact E).
    destruct (Qltb (Ndimage.center_of_mass_label array lab (S k)).2 (inject_Z mid_col));
      cbn [fst snd]; rewrite ?at2_mark, ?Hb, ?Ene; cbn [andb orb]; split; assumption.
Qed.

(** The cells of the general case of [_separate_feet]: a cell with pressure
    goes to the left foot when the centre of mass of its component lies
    left of [mid_col], and to the right foot otherwise. *)
Lemma assign_by_centroid_side (array : grid) (lab : labels) (n : nat) (mid_col : Z) r c :
  shaped array lab ->
  (forall r c, (at2 0%nat lab r c <= n)%nat) ->
  at2 0%nat lab r c <> 0%nat ->
  let left := Qltb (Ndimage.center_of_mass_label array lab (at2 0%nat lab r c)).2
                   (inject_Z mid_col) in
  at2 0 (assign_by_centroid array lab n mid_col).1 r c
    = (if left then at2 0 array r c else 0)
  /\ at2 0 (assign_by_centroid array lab n mid_col).2 r c
    = (if left then 0 else at2 0 array r c).
Proof.
  intros Hs Hle Hne left.
  assert (Hk : (1 <= at2 0%nat lab r c <= n)%nat) by (specialize (Hle r c); lia).
  destruct (assign_side array lab mid_col n r c Hs Hk) as [Hl Hr].
  fold left in Hl, Hr.
  unfold assign_by_centroid. rewrite zip_seq_map.
  unfold assign_upto in Hl, Hr.
  match goal with
  | |- context [fold_left ?g ?l ?i] => set (masks := fold_left g l i) in *
  end.
  destruct masks as [left_mask right_mask]. cbn [fst snd] in *.
  rewrite !at2_mul_mask, Hl, Hr. destruct left; cbn [negb Z.b2z]; split; lia.
Qed.

Lemma zsum_scaled_le {A} (w v : A -> Z) (hi : Z) (l : list A) :
  (forall x, In x l -> 0 <= w x) ->
  (forall x, In x l -> v x <= hi) ->
  zsum (map (fun x => v x * w x) l) <= hi * zsum (map w l).
Proof.
  induction l as [|x l IH]; intros Hw Hv; simpl; [lia|].
  assert (Hx : 0 <= w x) by (apply Hw; left; reflexivity).
  assert (Hvx : v x <= hi) by (apply Hv; left; reflexivity).
  assert (zsum (map (fun x => v x * w x) l) <= hi * zsum (map w l)).
  { apply IH; intros y Hy; [apply Hw | apply Hv]; right; exact Hy. }
  nia.
Qed.

Lemma zsum_scaled_ge {A} (w v : A -> Z) (lo : Z) (l : list A) :
  (forall x, In x l -> 0 <= w x) ->
  (forall x, In x l -> lo <= v x) ->
  lo * zsum (map w l) <= zsum (map (fun x => v x * w x) l).
Proof.
  induction l as [|x l IH]; intros Hw Hv; simpl; [lia|].
  assert (Hx : 0 <= w x) by (apply Hw; left; reflexivity).
  assert (Hvx : lo <= v x) by (apply Hv; left; reflexivity).
  assert (lo * zsum (map w l) <= zsum (map (fun x => v x * w x) l)).
  { apply IH; intros y Hy; [apply Hw | apply Hv]; right; exact Hy. }
  nia.
Qed.

Lemma Qltb_div (num den bound : Z) :
  0 < den ->
  Qltb (Qdiv (inject_Z num) (inject_Z den)) (inject_Z bound) = (num <? bound * den).
Proof.
  intros Hden. unfold Qltb.
  destruct den as [|p|p]; try lia.
  apply eq_iff_eq_true. rewrite negb_true_iff, Z.ltb_lt.
  rewrite <- not_true_iff_false, Qle_bool_iff.
  unfold Qle, Qdiv, Qmult, Qinv, inject_Z. simpl. split; intros H; nia.
Qed.

Lemma zsum_ge_member {A} (w : A -> Z) (l : list A) (x : A) :
  (forall y, In y l -> 0 <= w y) -> In x l -> w x <= zsum (map w l).
Proof.
  induction l as [|y l IH]; intros Hw Hx; [destruct Hx|]. simpl.
  assert (Hrest : 0 <= zsum (map w l)).
  { apply zsum_nonneg. intros v Hv. apply in_map_iff in Hv.
    destruct Hv as [z [<- Hz]]. apply Hw. right. exact Hz. }
  destruct Hx as [-> | Hx].
  - lia.
  - assert (0 <= w y) by (apply Hw; left; reflexivity).
    assert (w x <= zsum (map w l)) by (apply IH; [intros z Hz; apply Hw; right; exact Hz | exact Hx]).
    lia.
Qed.

(** The centre of mass of a label whose cells carry pressure lies left of
    a column that is right of all its cells, and not left of a column
    that none of its cells exceeds on the left. *)
Lemma centroid_side (array : grid) (lab : labels) (k : nat) (mid_col : Z) (p : Z * Z) :
  shaped array lab ->
  k <> 0%nat ->
  at2 0%nat lab p.1 p.2 = k ->
  (forall r c, at2 0%nat lab r c = k -> 0 < at2 0 array r c) ->
  ((forall r c, at2 0%nat lab r c = k -> c < mid_col) ->
   Qltb (Ndimage.center_of_mass_label array lab k).2 (inject_Z mid_col) = true)
  /\ ((forall r c, at2 0%nat lab r c = k -> mid_col <= c) ->
      Qltb (Ndimage.center_of_mass_label array lab k).2 (inject_Z mid_col) = false).
Proof.
  intros Hs Hk Hp Hpos.
  unfold Ndimage.center_of_mass_label, Ndimage.centroid. cbn [fst snd].
  set (cells := List.filter (fun q : Z * Z => Nat.eqb (at2 0%nat lab q.1 q.2) k)
                  (indices (nrows array) (ncols array))).
  assert (Hcell : forall q, In q cells -> at2 0%nat lab q.1 q.2 = k).
  { intros q Hq. apply filter_In in Hq. destruct Hq as [_ Hq].
    apply Nat.eqb_eq. exact Hq. }
  assert (Hin : In p cells).
  { apply filter_In. split; [|apply Nat.eqb_eq; exact Hp].
    destruct p as [pr pc]. apply in_indices.
    rewrite <- (shaped_in_bounds array lab pr pc Hs).
    apply (lab_in_bounds array lab Hs). simpl in Hp. lia. }
  assert (Hw : forall q, In q cells -> 0 <= at2 0 array q.1 q.2).
  { intros q Hq. pose proof (Hpos q.1 q.2 (Hcell q Hq)). lia. }
  assert (Hnorm : 0 < zsum (map (fun q : Z * Z => at2 0 array q.1 q.2) cells)).
  { pose proof (zsum_ge_member (fun q : Z * Z => at2 0 array q.1 q.2) cells p Hw Hin) as H.
    simpl in H. pose proof (Hpos p.1 p.2 Hp). lia. }
  split; intros Hcols; rewrite (Qltb_div _ _ _ Hnorm).
  - apply Z.ltb_lt.
    pose proof (zsum_scaled_le (fun q : Z * Z => at2 0 array q.1 q.2)
                  (fun q : Z * Z => q.2) (mid_col - 1) cells Hw) as H.
    cbv beta in H.
    assert (Hle : forall q : Z * Z, In q cells -> q.2 <= mid_col - 1).
    { intros q Hq. pose proof (Hcols q.1 q.2 (Hcell q Hq)). lia. }
    specialize (H Hle). nia.
  - apply Z.ltb_ge.
    pose proof (zsum_scaled_ge (fun q : Z * Z => at2 0 array q.1 q.2)
                  (fun q : Z * Z => q.2) mid_col cells Hw) as H.
    cbv beta in H.
    assert (Hge : forall q : Z * Z, In q cells -> mid_col <= q.2).
    { intros q Hq. exact (Hcols q.1 q.2 (Hcell q Hq)). }
    specialize (H Hge). lia.
Qed.

(** The two ways in which [_separate_feet] builds its result for an
    array with a non-zero sum. *)
Lemma separate_feet_paths (array : grid) :
  np_sum array <> 0 ->
  let mid_col := Z.of_nat (ncols array) / 2 in
  _separate_feet array
  = assign_by_centroid array (Ndimage.label (gt_zero array)).1
      (Ndimage.label (gt_zero array)).2 mid_col
  \/ ((Ndimage.label (gt_zero array)).2 = 1%nat
      /\ _separate_feet array
         = forced_split array (Ndimage.label (gt_zero array)).1 mid_col).
Proof.
  intros Hsum mid_col. unfold _separate_feet.
  destruct (Z.eqb_spec (np_sum array) 0) as [E | _]; [contradiction|].
  destruct (Ndimage.label (gt_zero array)) as [lab n]. cbn [fst snd]. fold mid_col.
  destruct (Nat.eqb_spec n 1) as [Hn | Hn]; [|left; reflexivity].
  destruct (Ndimage.find_objects lab 1) as [[obj_rows obj_cols]|]; [|left; reflexivity].
  destruct (spans_center _ _ _ _); [|left; reflexivity].
  destruct (forced_split array lab mid_col) as [lf rf].
  destruct ((0 <? np_sum lf) && (0 <? np_sum rf)); [right | left]; auto.
Qed.

(** A mask whose cells all satisfy a test. *)
Lemma mask_forall (m : mask) (f : Z * Z -> bool) :
  rectangular m = true ->
  forallb (fun p => implb (at2 false m p.1 p.2) (f p)) (indices (nrows m) (ncols m)) = true ->
  forall q, at2 false m q.1 q.2 = true -> f q = true.
Proof.
  intros Hrect Hall q Hq. rewrite forallb_forall in Hall.
  assert (Hin : In q (indices (nrows m) (ncols m))).
  { destruct q as [r c]. apply in_indices. apply (at2_inside false m r c Hrect).
    simpl in Hq. rewrite Hq. discriminate. }
  specialize (Hall q Hin). rewrite Hq in Hall. exact Hall.
Qed.





(** ** What the noise filter keeps *)

Lemma In_ones3x3 (d : Z * Z) :
  In d Ndimage.ones3x3 <-> -1 <= d.1 <= 1 /\ -1 <= d.2 <= 1.
Proof.
  unfold Ndimage.ones3x3. split.
  - intros H. repeat (destruct H as [<- | H]; [simpl; lia|]). destruct H.
  - destruct d as [dr dc]. simpl. intros [Hr Hc].
    assert (Er : dr = -1 \/ dr = 0 \/ dr = 1) by lia.
    assert (Ec : dc = -1 \/ dc = 0 \/ dc = 1) by lia.
    destruct Er as [-> | [-> | ->]], Ec as [-> | [-> | ->]]; tauto.
Qed.

Lemma np_max_ge (a : grid) r c :
  in_bounds (nrows a) (ncols a) r c = true -> rectangular a = true ->
  at2 0 a r c <= np_max a.
Proof.
  intros Hb Hrect.
  assert (Hin : In (at2 0 a r c) (concat a)).
  { apply in_bounds_spec in Hb. unfold at2.
    replace ((0 <=? r) && (0 <=? c)) with true by (symmetry; apply andb_true_iff; split; apply Z.leb_le; lia).
    assert (Hr : (Z.to_nat r < length a)%nat) by (unfold nrows in Hb; lia).
    apply in_concat. exists (nth (Z.to_nat r) a []). split; [apply nth_In; exact Hr|].
    apply nth_In.
    rewrite (proj1 (rectangular_spec a) Hrect _ (nth_In a [] Hr)). lia. }
  unfold np_max. destruct (concat a) as [|x xs]; [destruct Hin|].
  apply (list_max_ge x xs). exact Hin.
Qed.

Lemma at2_thresholded_mask (a : grid) r c :
  at2 false (gt_zero (np_where_gt Config.noise_threshold a)) r c
  = (Config.noise_threshold <? at2 0 a r c).
Proof.
  rewrite at2_gt_zero, at2_np_where_gt. unfold Config.noise_threshold.
  destruct (Z.ltb_spec 5 (at2 0 a r c)).
  - apply Z.ltb_lt. lia.
  - reflexivity.
Qed.

(** The opening of the thresholded mask is the union of the 3x3 windows
    of readings above the threshold. *)
Lemma opened_covered (a : grid) r c :
  rectangular a = true ->
  at2 false (Ndimage.binary_opening (gt_zero (np_where_gt Config.noise_threshold a))
               Ndimage.ones3x3) r c = true
  <-> covered Config.noise_threshold a r c.
Proof.
  intros Ha.
  set (g := gt_zero (np_where_gt Config.noise_threshold a)).
  assert (Hg : shaped a g).
  { unfold g. eapply shaped_trans; [apply shaped_map; exact Ha|].
    apply shaped_gt_zero. apply rectangular_map. exact Ha. }
  assert (Hinside : forall r c, Config.noise_threshold < at2 0 a r c ->
                      in_bounds (nrows a) (ncols a) r c = true).
  { intros r' c' H. apply (at2_inside 0 a r' c' Ha). unfold Config.noise_threshold in H. lia. }
  destruct Hg as (_ & Hgr & Hgc).
  unfold Ndimage.binary_opening. rewrite at2_dilation.
  destruct (shaped_erosion Ndimage.ones3x3 g) as (_ & Her & Hec).
  rewrite Her, Hec, Hgr, Hgc. split.
  - intros H. zb. apply existsb_exists in H0. destruct H0 as [d [Hd He]].
    rewrite at2_erosion in He. zb. rewrite forallb_forall in H1.
    apply In_ones3x3 in Hd.
    exists (r - d.1), (c - d.2). split; [lia|]. split; [lia|].
    intros dr dc Hdr Hdc.
    specialize (H1 (dr, dc) (proj2 (In_ones3x3 (dr, dc)) (conj Hdr Hdc))).
    unfold g in H1. rewrite at2_thresholded_mask in H1. apply Z.ltb_lt in H1. exact H1.
  - intros (r0 & c0 & Hr & Hc & Hblock).
    assert (Hrc : Config.noise_threshold < at2 0 a r c).
    { specialize (Hblock (r - r0) (c - c0) ltac:(lia) ltac:(lia)).
      replace (r0 + (r - r0)) with r in Hblock by lia.
      replace (c0 + (c - c0)) with c in Hblock by lia. exact Hblock. }
    apply andb_true_iff. split; [apply Hinside; exact Hrc|].
    apply existsb_exists. exists (r - r0, c - c0). split.
    + apply In_ones3x3. simpl. lia.
    + cbn [fst snd]. replace (r - (r - r0)) with r0 by lia.
      replace (c - (c - c0)) with c0 by lia.
      rewrite at2_erosion, Hgr, Hgc. apply andb_true_iff. split.
      * apply Hinside. specialize (Hblock 0 0 ltac:(lia) ltac:(lia)).
        rewrite !Z.add_0_r in Hblock. exact Hblock.
      * apply forallb_forall. intros e He. apply In_ones3x3 in He.
        unfold g. rewrite at2_thresholded_mask. apply Z.ltb_lt.
        apply Hblock; lia.
Qed.

(** A cell of the filtered array is the reading, which then exceeds the
    threshold, or zero. *)
Lemma filter_array_values (a : grid) r c :
  np_max a <> 0 ->
  (at2 0 (filter_array a) r c = at2 0 a r c
   /\ Config.noise_threshold < at2 0 a r c)
  \/ at2 0 (filter_array a) r c = 0.
Proof.
  intros Hmax. unfold filter_array.
  destruct (Z.eqb_spec (np_max a) 0) as [E | _]; [contradiction|].
  rewrite at2_mul_mask, at2_np_where_gt.
  destruct (at2 false (Ndimage.binary_opening _ _) r c); [|right; simpl; lia].
  destruct (Z.ltb_spec Config.noise_threshold (at2 0 a r c)) as [H | H].
  - left. split; [simpl; lia | exact H].
  - right. simpl. lia.
Qed.

(** A frame of non-negative readings without a full window is cleaned to
    zeros. *)
Lemma filter_array_uncovered (a : grid) :
  rectangular a = true -> all_nonneg a = true ->
  (forall r c, ~ covered Config.noise_threshold a r c) ->
  forall r c, at2 0 (filter_array a) r c = 0.
Proof.
  intros Ha Hnn Hnone r c.
  destruct (Z.eq_dec (np_max a) 0) as [E | Hmax].
  - unfold filter_array. rewrite E. cbn [Z.eqb].
    pose proof (all_nonneg_spec a Hnn r c) as H0.
    destruct (in_bounds (nrows a) (ncols a) r c) eqn:Eb.
    + pose proof (np_max_ge a r c Eb Ha). lia.
    + apply at2_outside; assumption.
  - unfold filter_array.
    destruct (Z.eqb_spec (np_max a) 0) as [E | _]; [contradiction|].
    rewrite at2_mul_mask.
    pose proof (opened_covered a r c Ha) as Hop.
    destruct (at2 false (Ndimage.binary_opening _ _) r c); [|simpl; lia].
    exfalso. apply (Hnone r c). apply Hop. reflexivity.
Qed.

(** A frame with fewer than three rows or columns has no full window. *)
Lemma thin_not_covered (a : grid) (r c : Z) :
  rectangular a = true ->
  (nrows a < 3)%nat \/ (ncols a < 3)%nat ->
  ~ covered Config.noise_threshold a r c.
Proof.
  intros Ha Hthin (r0 & c0 & _ & _ & Hblock).
  assert (Hin : forall dr dc, -1 <= dr <= 1 -> -1 <= dc <= 1 ->
            in_bounds (nrows a) (ncols a) (r0 + dr) (c0 + dc) = true).
  { intros dr dc Hdr Hdc. apply (at2_inside 0 a _ _ Ha).
    specialize (Hblock dr dc Hdr Hdc). unfold Config.noise_threshold in Hblock. lia. }
  pose proof (Hin (-1) (-1) ltac:(lia) ltac:(lia)) as H1.
  pose proof (Hin 1 1 ltac:(lia) ltac:(lia)) as H2.
  apply in_bounds_spec in H1, H2. lia.
Qed.

(** X1: on a frame whose maximum is not zero, the noise filter keeps a
    reading unchanged exactly when it lies in a 3x3 window, fully inside
    the frame, all of whose readings exceed the noise threshold of 5; every
    other cell becomes 0.  A reading above the threshold that has no such
    window around it is removed like noise. *)
Theorem filter_keeps_exactly_the_full_windows (pressure_array : grid) :
  rectangular pressure_array = true ->
  np_max pressure_array <> 0 ->
  forall r c,
    (covered Config.noise_threshold pressure_array r c
     /\ at2 0 (filter_array pressure_array) r c = at2 0 pressure_array r c
     /\ Config.noise_threshold < at2 0 pressure_array r c)
    \/ (~ covered Config.noise_threshold pressure_array r c
        /\ at2 0 (filter_array pressure_array) r c = 0).
Proof.
  intros Ha Hmax r c. unfold filter_array.
  destruct (Z.eqb_spec (np_max pressure_array) 0) as [E | _]; [contradiction|].
  rewrite at2_mul_mask, at2_np_where_gt.
  pose proof (opened_covered pressure_array r c Ha) as Hop.
  destruct (at2 false (Ndimage.binary_opening _ _) r c).
  - left.
    assert (Hcov : covered Config.noise_threshold pressure_array r c)
      by (apply Hop; reflexivity).
    split; [exact Hcov|].
    destruct Hcov as (r0 & c0 & Hr & Hc & Hblock).
    specialize (Hblock (r - r0) (c - c0) ltac:(lia) ltac:(lia)).
    replace (r0 + (r - r0)) with r in Hblock by lia.
    replace (c0 + (c - c0)) with c in Hblock by lia.
    split; [|exact Hblock].
    apply Z.ltb_lt in Hblock. rewrite Hblock. simpl. lia.
  - right. split; [|simpl; lia].
    intros Hcov. apply Hop in Hcov. discriminate Hcov.
Qed.

Lemma filter_keeps_exactly_the_full_windows_witness :
  (covered Config.noise_threshold noisy_frame 1 4
   /\ at2 0 (filter_array noisy_frame) 1 4 = at2 0 noisy_frame 1 4
   /\ Config.noise_threshold < at2 0 noisy_frame 1 4)
  \/ (~ covered Config.noise_threshold noisy_frame 1 4
      /\ at2 0 (filter_array noisy_frame) 1 4 = 0).
Proof.
  apply (filter_keeps_exactly_the_full_windows noisy_frame).
  - reflexivity.
  - vm_compute. discriminate.
Defined.

(** X2: a frame of non-negative readings with fewer than three rows or
    fewer than three columns is cleaned to zeros, whatever its readings:
    no 3x3 window fits into it. *)
Theorem thin_frame_is_wiped (pressure_array : grid) :
  rectangular pressure_array = true ->
  all_nonneg pressure_array = true ->
  (nrows pressure_array < 3)%nat \/ (ncols pressure_array < 3)%nat ->
  forall r c, at2 0 (filter_array pressure_array) r c = 0.
Proof.
  intros Ha Hnn Hthin. apply filter_array_uncovered; [exact Ha | exact Hnn|].
  intros r c. apply thin_not_covered; assumption.
Qed.

Lemma thin_frame_is_wiped_witness :
  at2 0 (filter_array thin_frame) 0 1 = 0.
Proof.
  apply (thin_frame_is_wiped thin_frame).
  - reflexivity.
  - reflexivity.
  - left. simpl. lia.
Defined.

(** ** The state after a successful run *)

(** What each of the last three stages changes in the analyzer. *)
Lemma calculate_pressure_distribution_state (s : Analyzer) :
  let s' := _calculate_pressure_distribution s in
  pressure_array s' = pressure_array s
  /\ cleaned_array s' = cleaned_array s
  /\ left_foot s' = (_separate_feet (cleaned_array s)).1
  /\ right_foot s' = (_separate_feet (cleaned_array s)).2
  /\ final_bbox s' =
       match omap id [get_virtual_footprint (_separate_feet (cleaned_array s)).1;
                      get_virtual_footprint (_separate_feet (cleaned_array s)).2] with
       | [] => final_bbox s
       | b :: bs => Some (list_min b.1 (map fst bs), list_max b.2 (map snd bs))
       end
  /\ foot_types s' = foot_types s
  /\ cop s' = cop s
  /\ error_message s' = error_message s
  /\ (_get_foot_zone_indices (final_bbox s') (Z.of_nat (nrows (pressure_array s))) = None ->
      distribution s' = distribution s).
Proof.
  unfold _calculate_pressure_distribution.
  destruct (_separate_feet (cleaned_array s)) as [l r]. proj_simpl.
  destruct (omap id [get_virtual_footprint l; get_virtual_footprint r]) as [|b bs].
  - proj_simpl. repeat split.
  - proj_simpl. destruct (np_sum l + np_sum r =? 0); [proj_simpl; repeat split|].
    destruct (_get_foot_zone_indices _ _) eqn:Ez; proj_simpl; repeat split.
    intros H. rewrite Ez in H. discriminate H.
Qed.

Lemma analyze_foot_type_state (s : Analyzer) :
  let s' := _analyze_foot_type s in
  pressure_array s' = pressure_array s
  /\ cleaned_array s' = cleaned_array s
  /\ left_foot s' = left_foot s
  /\ right_foot s' = right_foot s
  /\ final_bbox s' = final_bbox s
  /\ distribution s' = distribution s
  /\ cop s' = cop s
  /\ error_message s' = error_message s
  /\ foot_types s' =
       match _get_foot_zone_indices (final_bbox s)
               (Z.of_nat (nrows (pressure_array s))) with
       | None => foot_types s
       | Some zones => fill_foot_types zones (left_foot s) (right_foot s) (foot_types s)
       end.
Proof.
  unfold _analyze_foot_type.
  destruct (_get_foot_zone_indices _ _); proj_simpl; repeat split.
Qed.

(** The analyzer after a successful run, field by field. *)
Lemma run_analysis_state (json_data : json) (filename : string) (self : Analyzer) :
  run_analysis (__init__ json_data filename) = (true, self) ->
  rectangular (pressure_array self) = true
  /\ np_size (pressure_array self) <> 0%nat
  /\ cleaned_array self = filter_array (pressure_array self)
  /\ cop self = (if np_sum (cleaned_array self) =? 0 then None
                 else Some (Ndimage.center_of_mass (cleaned_array self)))
  /\ left_foot self = (_separate_feet (cleaned_array self)).1
  /\ right_foot self = (_separate_feet (cleaned_array self)).2
  /\ final_bbox self =
       match omap id [get_virtual_footprint (left_foot self);
                      get_virtual_footprint (right_foot self)] with
       | [] => None
       | b :: bs => Some (list_min b.1 (map fst bs), list_max b.2 (map snd bs))
       end
  /\ foot_types self =
       match _get_foot_zone_indices (final_bbox self)
               (Z.of_nat (nrows (pressure_array self))) with
       | None => ∅
       | Some zones => fill_foot_types zones (left_foot self) (right_foot self) ∅
       end
  /\ (_get_foot_zone_indices (final_bbox self)
        (Z.of_nat (nrows (pressure_array self))) = None ->
      distribution self = ∅)
  /\ analysis_results self =
       Some {| res_distribution := distribution self;
               res_foot_types := foot_types self;
               res_final_bbox := final_bbox self;
               res_zones := _get_foot_zone_indices (final_bbox self)
                              (Z.of_nat (nrows (pressure_array self)));
               res_cop := cop self |}
  /\ error_message self = None.
Proof.
  unfold run_analysis. intros H.
  destruct (_process_input_data (__init__ json_data filename)) as [s1|e] eqn:E1;
    [|discriminate].
  destruct (process_input_data_spec _ _ E1)
    as (Hrect & _ & _ & _ & _ & Hd & Hft & Hbb & Hcop & Herr).
  destruct (Nat.eqb_spec (np_size (pressure_array s1)) 0) as [E | Hsize]; [discriminate|].
  inversion H; subst self; clear H.
  cbn [__init__ distribution foot_types final_bbox cop error_message]
    in Hd, Hft, Hbb, Hcop, Herr.
  assert (Hclean : shaped (pressure_array s1) (filter_array (pressure_array s1)))
    by (apply filter_array_shaped; exact Hrect).
  assert (Hcsize : Nat.eqb (np_size (filter_array (pressure_array s1))) 0 = false).
  { apply Nat.eqb_neq. destruct Hclean as (_ & Hr & Hc). unfold np_size in *.
    rewrite Hr, Hc. exact Hsize. }
  unfold stages.
  assert (E2 : _filter_noise s1 = set_cleaned_array (filter_array (pressure_array s1)) s1).
  { unfold _filter_noise.
    destruct (Nat.eqb_spec (np_size (pressure_array s1)) 0); [contradiction | reflexivity]. }
  rewrite E2.
  set (s2 := set_cleaned_array (filter_array (pressure_array s1)) s1).
  assert (E3 : _calculate_cop s2 =
               set_cop (if np_sum (filter_array (pressure_array s1)) =? 0 then None
                        else Some (Ndimage.center_of_mass (filter_array (pressure_array s1))))
                 s2).
  { unfold _calculate_cop, s2. proj_simpl. rewrite Hcsize. cbn [orb].
    destruct (_ =? 0); reflexivity. }
  rewrite E3.
  match goal with |- context [_calculate_pressure_distribution ?s] => set (s3 := s) end.
  destruct (calculate_pressure_distribution_state s3)
    as (D1 & D2 & D3 & D4 & D5 & D6 & D7 & D8 & D9).
  set (s4 := _calculate_pressure_distribution s3) in *.
  destruct (analyze_foot_type_state s4) as (A1 & A2 & A3 & A4 & A5 & A6 & A7 & A8 & A9).
  set (s5 := _analyze_foot_type s4) in *.
  unfold _prepare_final_results. proj_simpl.
  rewrite A1, A2, A3, A4, A5, A6, A7, A8, A9, D1, D2, D3, D4, D6, D7, D8.
  assert (Hdist : _get_foot_zone_indices (final_bbox s4)
                    (Z.of_nat (nrows (pressure_array s3))) = None ->
                  distribution s4 = ∅).
  { intros Hz. rewrite (D9 Hz). unfold s3, s2. proj_simpl. exact Hd. }
  rewrite D5 in Hdist |- *.
  unfold s3, s2 in Hdist |- *. proj_simpl. rewrite Hbb, Hft, Herr.
  split; [exact Hrect|]. split; [exact Hsize|].
  split; [reflexivity|]. split; [reflexivity|].
  split; [reflexivity|]. split; [reflexivity|].
  split; [destruct (omap id _); reflexivity|].
  split; [reflexivity|].
  split; [|split; reflexivity].
  rewrite Hbb in Hdist. exact Hdist.
Qed.

(** ** The centre of pressure *)

(** The sum of a table is the sum of its cells in raster order. *)
Lemma np_sum_tabulate (R C : nat) (f : Z -> Z -> Z) :
  np_sum (tabulate R C f) = zsum (map (fun p : Z * Z => f p.1 p.2) (indices R C)).
Proof.
  unfold np_sum, tabulate, indices, zrange.
  generalize (seq 0 R) as rs. generalize (seq 0 C) as cs. intros cs rs.
  induction rs as [|r rs IH]; [reflexivity|].
  cbn [map flat_map zsum foldr]. rewrite map_app, zsum_app.
  change (foldr Z.add 0 (map zsum (map (fun r => map (fun c => f (Z.of_nat r) (Z.of_nat c)) cs) rs)))
    with (zsum (map zsum (map (fun r => map (fun c => f (Z.of_nat r) (Z.of_nat c)) cs) rs))).
  rewrite IH. f_equal. rewrite !map_map. reflexivity.
Qed.

Lemma np_sum_cells (a : grid) :
  rectangular a = true ->
  zsum (map (fun p : Z * Z => at2 0 a p.1 p.2) (indices (nrows a) (ncols a))) = np_sum a.
Proof.
  intros Ha. rewrite <- (np_sum_tabulate (nrows a) (ncols a) (at2 0 a)).
  rewrite (tabulate_at2 0 a Ha). reflexivity.
Qed.

Lemma filter_all {A} (l : list A) : List.filter (fun _ => true) l = l.
Proof. induction l as [|x l IH]; simpl; [reflexivity | rewrite IH; reflexivity]. Qed.

(** The cells of a filtered array all have one sign: readings above the
    threshold, or the untouched frame whose maximum is zero. *)
Lemma filter_array_sign (a : grid) :
  rectangular a = true ->
  (forall r c, 0 <= at2 0 (filter_array a) r c)
  \/ (forall r c, at2 0 (filter_array a) r c <= 0).
Proof.
  intros Ha. destruct (Z.eq_dec (np_max a) 0) as [E | Hmax].
  - right. intros r c. unfold filter_array. rewrite E. cbn [Z.eqb].
    destruct (in_bounds (nrows a) (ncols a) r c) eqn:Eb.
    + pose proof (np_max_ge a r c Eb Ha). lia.
    + rewrite (at2_outside 0 a r c Ha Eb). lia.
  - left. intros r c.
    destruct (filter_array_values a r c Hmax) as [[-> H] | ->];
      unfold Config.noise_threshold in *; lia.
Qed.

Lemma zsum_map_opp {A} (w : A -> Z) (l : list A) :
  zsum (map (fun x => - w x) l) = - zsum (map w l).
Proof.
  induction l as [|x l IH]; [reflexivity|].
  cbn [map]. unfold zsum in *. cbn [foldr]. rewrite IH. lia.
Qed.

Lemma zsum_map_mul_opp {A} (v w : A -> Z) (l : list A) :
  zsum (map (fun x => v x * - w x) l) = - zsum (map (fun x => v x * w x) l).
Proof.
  induction l as [|x l IH]; [reflexivity|].
  cbn [map]. unfold zsum in *. cbn [foldr]. rewrite IH. lia.
Qed.

(** A quotient of integers lies between two integers that bound the
    numerator on the scale of the denominator. *)
Lemma Qdiv_between (num den lo hi : Z) :
  (0 < den /\ lo * den <= num <= hi * den)
  \/ (den < 0 /\ hi * den <= num <= lo * den) ->
  (inject_Z lo <= Qdiv (inject_Z num) (inject_Z den) <= inject_Z hi)%Q.
Proof.
  intros H. destruct den as [|p|p]; [lia| |];
    unfold Qle, Qdiv, Qmult, Qinv, inject_Z; simpl; split; nia.
Qed.

(** The centre of mass of an array whose cells have one sign and do not
    cancel lies within the array. *)
Lemma center_of_mass_inside (a : grid) :
  rectangular a = true ->
  (forall r c, 0 <= at2 0 a r c) \/ (forall r c, at2 0 a r c <= 0) ->
  np_sum a <> 0 ->
  (inject_Z 0 <= (Ndimage.center_of_mass a).1 <= inject_Z (Z.of_nat (nrows a) - 1))%Q
  /\ (inject_Z 0 <= (Ndimage.center_of_mass a).2 <= inject_Z (Z.of_nat (ncols a) - 1))%Q.
Proof.
  intros Ha Hsign Hsum.
  unfold Ndimage.center_of_mass, Ndimage.centroid. cbn [fst snd].
  rewrite filter_all. rewrite (np_sum_cells a Ha).
  set (cells := indices (nrows a) (ncols a)).
  assert (Hin : forall q : Z * Z, In q cells ->
            0 <= q.1 <= Z.of_nat (nrows a) - 1 /\ 0 <= q.2 <= Z.of_nat (ncols a) - 1).
  { intros [r c] Hq. apply in_indices in Hq. apply in_bounds_spec in Hq. simpl. lia. }
  pose proof (np_sum_cells a Ha) as Hn. fold cells in Hn.
  pose proof (fun v : Z * Z -> Z =>
                zsum_map_mul_opp v (fun q : Z * Z => at2 0 a q.1 q.2) cells) as Hneg.
  pose proof (zsum_map_opp (fun q : Z * Z => at2 0 a q.1 q.2) cells) as Hnegsum.
  cbv beta in Hneg, Hnegsum. rewrite Hn in Hnegsum.
  destruct Hsign as [Hpos | Hnonpos].
  - assert (Hw : forall q : Z * Z, In q cells -> 0 <= at2 0 a q.1 q.2)
      by (intros q _; apply Hpos).
    assert (Hs : 0 <= np_sum a).
    { rewrite <- Hn. apply zsum_nonneg. intros v Hv. apply in_map_iff in Hv.
      destruct Hv as [q [<- _]]. apply Hpos. }
    pose proof (zsum_scaled_ge (fun q : Z * Z => at2 0 a q.1 q.2) (fun q : Z * Z => q.1)
                  0 cells Hw (fun q Hq => proj1 (proj1 (Hin q Hq)))) as R1.
    pose proof (zsum_scaled_le (fun q : Z * Z => at2 0 a q.1 q.2) (fun q : Z * Z => q.1)
                  (Z.of_nat (nrows a) - 1) cells Hw
                  (fun q Hq => proj2 (proj1 (Hin q Hq)))) as R2.
    pose proof (zsum_scaled_ge (fun q : Z * Z => at2 0 a q.1 q.2) (fun q : Z * Z => q.2)
                  0 cells Hw (fun q Hq => proj1 (proj2 (Hin q Hq)))) as C1.
    pose proof (zsum_scaled_le (fun q : Z * Z => at2 0 a q.1 q.2) (fun q : Z * Z => q.2)
                  (Z.of_nat (ncols a) - 1) cells Hw
                  (fun q Hq => proj2 (proj2 (Hin q Hq)))) as C2.
    cbv beta in R1, R2, C1, C2. rewrite Hn in R1, R2, C1, C2.
    split; apply Qdiv_between; left; (split; [lia|]); split; lia.
  - assert (Hw : forall q : Z * Z, In q cells -> 0 <= - at2 0 a q.1 q.2)
      by (intros q _; specialize (Hnonpos q.1 q.2); lia).
    assert (Hs : 0 <= - np_sum a).
    { rewrite <- Hnegsum. apply zsum_nonneg. intros v Hv. apply in_map_iff in Hv.
      destruct Hv as [q [<- Hq]]. apply Hw. exact Hq. }
    pose proof (zsum_scaled_ge (fun q : Z * Z => - at2 0 a q.1 q.2) (fun q : Z * Z => q.1)
                  0 cells Hw (fun q Hq => proj1 (proj1 (Hin q Hq)))) as R1.
    pose proof (zsum_scaled_le (fun q : Z * Z => - at2 0 a q.1 q.2) (fun q : Z * Z => q.1)
                  (Z.of_nat (nrows a) - 1) cells Hw
                  (fun q Hq => proj2 (proj1 (Hin q Hq)))) as R2.
    pose proof (zsum_scaled_ge (fun q : Z * Z => - at2 0 a q.1 q.2) (fun q : Z * Z => q.2)
                  0 cells Hw (fun q Hq => proj1 (proj2 (Hin q Hq)))) as C1.
    pose proof (zsum_scaled_le (fun q : Z * Z => - at2 0 a q.1 q.2) (fun q : Z * Z => q.2)
                  (Z.of_nat (ncols a) - 1) cells Hw
                  (fun q Hq => proj2 (proj2 (Hin q Hq)))) as C2.
    cbv beta in R1, R2, C1, C2.
    rewrite (Hneg (fun q => q.1)) in R1, R2. rewrite (Hneg (fun q => q.2)) in C1, C2.
    rewrite Hnegsum in R1, R2, C1, C2.
    split; apply Qdiv_between; right; (split; [lia|]); split; lia.
Qed.



(** ** The bounding box *)

(** A row of the array has a positive cell exactly when the test of
    [get_virtual_footprint] finds it. *)
Lemma row_with_pressure (f : grid) (r : Z) :
  0 <= r ->
  existsb (fun v => 0 <? v) (nth (Z.to_nat r) f []) = true
  <-> exists c, 0 < at2 0 f r c.
Proof.
  intros Hr. rewrite existsb_exists. split.
  - intros [v [Hv Hpos]]. apply Z.ltb_lt in Hpos.
    apply In_nth with (d := 0) in Hv. destruct Hv as [j [_ Hj]].
    exists (Z.of_nat j). unfold at2.
    destruct (Z.leb_spec 0 r), (Z.leb_spec 0 (Z.of_nat j)); try lia.
    cbn [andb]. rewrite Nat2Z.id, Hj. exact Hpos.
  - intros [c Hc]. unfold at2 in Hc.
    destruct (Z.leb_spec 0 r), (Z.leb_spec 0 c); cbn [andb] in Hc; try lia.
    exists (nth (Z.to_nat c) (nth (Z.to_nat r) f []) 0). split; [|apply Z.ltb_lt; exact Hc].
    destruct (Nat.lt_ge_cases (Z.to_nat c) (length (nth (Z.to_nat r) f []))) as [Hj | Hj].
    + apply nth_In. exact Hj.
    + rewrite nth_overflow in Hc by exact Hj. lia.
Qed.

Lemma positive_cell_row (f : grid) r c : 0 < at2 0 f r c -> 0 <= r < Z.of_nat (nrows f).
Proof.
  intros H. unfold at2 in H.
  destruct (Z.leb_spec 0 r), (Z.leb_spec 0 c); cbn [andb] in H; try lia.
  split; [assumption|].
  destruct (Nat.lt_ge_cases (Z.to_nat r) (length f)) as [Hi | Hi]; [unfold nrows; lia|].
  rewrite (nth_overflow f) in H by exact Hi. destruct (Z.to_nat c); simpl in H; lia.
Qed.

(** The footprint of a foot is the range of its rows with pressure: both
    end rows have a positive cell and every positive cell lies between
    them. *)
Lemma footprint_rows (f : grid) (mn mx : Z) :
  get_virtual_footprint f = Some (mn, mx) ->
  0 <= mn <= mx /\ mx < Z.of_nat (nrows f)
  /\ (exists c, 0 < at2 0 f mn c)
  /\ (exists c, 0 < at2 0 f mx c)
  /\ forall r c, 0 < at2 0 f r c -> mn <= r <= mx.
Proof.
  unfold get_virtual_footprint. destruct (np_sum f =? 0); [discriminate|].
  set (P := fun r => existsb (fun v => 0 <? v) (nth (Z.to_nat r) f [])).
  destruct (List.filter P (zrange (nrows f))) as [|r0 rs] eqn:Erows; [discriminate|].
  intros H. inversion H; subst mn mx; clear H.
  assert (Hrow : forall r, In r (r0 :: rs) <->
                   0 <= r < Z.of_nat (nrows f) /\ exists c, 0 < at2 0 f r c).
  { intros r. rewrite <- Erows, filter_In. unfold zrange. rewrite in_map_iff. split.
    - intros [[i [<- Hi]] HP]. apply in_seq in Hi. split; [lia|].
      apply (row_with_pressure f (Z.of_nat i)); [lia | exact HP].
    - intros [Hr Hc]. split.
      + exists (Z.to_nat r). split; [lia|]. apply in_seq. lia.
      + apply (row_with_pressure f r); [lia | exact Hc]. }
  pose proof (proj1 (Hrow _) (list_min_In r0 rs)) as [Hmn Hcmn].
  pose proof (proj1 (Hrow _) (list_max_In r0 rs)) as [Hmx Hcmx].
  pose proof (list_min_le r0 rs _ (list_max_In r0 rs)) as Hle.
  split; [lia|]. split; [lia|]. split; [exact Hcmn|]. split; [exact Hcmx|].
  intros r c Hpos.
  assert (Hin : In r (r0 :: rs)).
  { apply Hrow. split; [apply (positive_cell_row f r c Hpos) | exists c; exact Hpos]. }
  pose proof (list_min_le r0 rs r Hin). pose proof (list_max_ge r0 rs r Hin). lia.
Qed.

(** A foot without a footprint has no positive cell. *)
Lemma footprint_none (f : grid) :
  nonneg f -> get_virtual_footprint f = None -> forall r c, at2 0 f r c <= 0.
Proof.
  intros Hf Hnone r c.
  destruct (Z.le_gt_cases (at2 0 f r c) 0) as [H | H]; [exact H|]. exfalso.
  assert (Hsum : np_sum f <> 0) by (pose proof (np_sum_ge_cell f r c Hf); lia).
  destruct (footprint_spec f Hf Hsum) as (mn & mx & E & _). congruence.
Qed.



(** ** Frames without a full window *)

(** X3: a run on a frame of non-negative readings none of which lies in
    a full 3x3 window of readings above the noise threshold succeeds with
    an empty result: the cleaned array is all zero, there is no centre of
    pressure, no foot array, no bounding box, no distribution, no
    foot-type entry, and no error message. *)
Theorem frames_without_a_full_window_give_empty_results (json_data : json)
    (filename : string) (self : Analyzer) :
  run_analysis (__init__ json_data filename) = (true, self) ->
  all_nonneg (pressure_array self) = true ->
  (forall r c, ~ covered Config.noise_threshold (pressure_array self) r c) ->
  (forall r c, at2 0 (cleaned_array self) r c = 0)
  /\ cop self = None
  /\ left_foot self = [] /\ right_foot self = []
  /\ final_bbox self = None
  /\ distribution self = ∅
  /\ foot_types self = ∅
  /\ error_message self = None.
Proof.
  intros Hrun Hnn Hnone.
  destruct (run_analysis_state _ _ _ Hrun)
    as (Hrect & _ & Hclean & Hcop & Hl & Hr & Hbb & Hft & Hdist & _ & Herr).
  assert (Hzero : forall r c, at2 0 (cleaned_array self) r c = 0).
  { rewrite Hclean. apply filter_array_uncovered; assumption. }
  assert (Hsum : np_sum (cleaned_array self) = 0) by (apply np_sum_zero; exact Hzero).
  assert (Hfeet : _separate_feet (cleaned_array self) = ([], [])).
  { unfold _separate_feet. rewrite Hsum. reflexivity. }
  rewrite Hfeet in Hl, Hr. cbn [fst snd] in Hl, Hr.
  rewrite Hl, Hr in Hbb. cbn in Hbb.
  rewrite Hbb in Hft, Hdist. cbn [_get_foot_zone_indices] in Hft, Hdist.
  rewrite Hsum in Hcop.
  repeat split; try assumption. exact (Hdist eq_refl).
Qed.

Lemma frames_without_a_full_window_give_empty_results_witness :
  (forall r c,
     at2 0 (cleaned_array (run_analysis (__init__ thin_document "frame.json")).2) r c = 0)
  /\ cop (run_analysis (__init__ thin_document "frame.json")).2 = None
  /\ left_foot (run_analysis (__init__ thin_document "frame.json")).2 = []
  /\ right_foot (run_analysis (__init__ thin_document "frame.json")).2 = []
  /\ final_bbox (run_analysis (__init__ thin_document "frame.json")).2 = None
  /\ distribution (run_analysis (__init__ thin_document "frame.json")).2 = ∅
  /\ foot_types (run_analysis (__init__ thin_document "frame.json")).2 = ∅
  /\ error_message (run_analysis (__init__ thin_document "frame.json")).2 = None.
Proof.
  apply (frames_without_a_full_window_give_empty_results thin_document "frame.json").
  - vm_compute. reflexivity.
  - vm_compute. reflexivity.
  - intros r c. apply thin_not_covered; [vm_compute; reflexivity | left; vm_compute; lia].
Defined.

(** ** Rounding *)

Lemma round_half_even_range (q : Q) :
  Qfloor q <= round_half_even q <= Qfloor q + 1.
Proof.
  unfold round_half_even.
  destruct (Qcompare _ _); [destruct (Z.even _)| |]; lia.
Qed.

Lemma round_half_even_comp (q1 q2 : Q) :
  (q1 == q2)%Q -> round_half_even q1 = round_half_even q2.
Proof.
  intros H. unfold round_half_even.
  rewrite (Qfloor_comp _ _ H).
  assert (E : Qcompare (q1 - inject_Z (Qfloor q2)) (1 # 2)
              = Qcompare (q2 - inject_Z (Qfloor q2)) (1 # 2)).
  { apply Qcompare_comp; [rewrite H; reflexivity | reflexivity]. }
  rewrite E. reflexivity.
Qed.

Lemma round_half_even_Z (z : Z) : round_half_even (inject_Z z) = z.
Proof.
  unfold round_half_even. rewrite Qfloor_Z.
  assert (E : Qcompare (inject_Z z - inject_Z z) (1 # 2) = Lt).
  { apply (proj1 (Qlt_alt _ _)). unfold Qlt, Qminus, Qplus, Qopp, inject_Z. simpl. lia. }
  rewrite E. reflexivity.
Qed.

Lemma round_half_even_mono (q1 q2 : Q) :
  (q1 <= q2)%Q -> round_half_even q1 <= round_half_even q2.
Proof.
  intros H. pose proof (Qfloor_resp_le _ _ H) as Hf.
  pose proof (round_half_even_range q1) as R1.
  pose proof (round_half_even_range q2) as R2.
  destruct (Z.eq_dec (Qfloor q1) (Qfloor q2)) as [E | E]; [|lia].
  unfold round_half_even. rewrite E.
  assert (Hfrac : (q1 - inject_Z (Qfloor q2) <= q2 - inject_Z (Qfloor q2))%Q).
  { apply Qplus_le_l with (z := inject_Z (Qfloor q2)). ring_simplify. exact H. }
  destruct (Qcompare (q1 - inject_Z (Qfloor q2)) (1 # 2)) eqn:C1;
    destruct (Qcompare (q2 - inject_Z (Qfloor q2)) (1 # 2)) eqn:C2;
    try (destruct (Z.even (Qfloor q2))); try lia; exfalso;
    repeat match goal with
    | H : Qcompare _ _ = Eq |- _ => apply Qeq_alt in H
    | H : Qcompare _ _ = Lt |- _ => apply Qlt_alt in H
    | H : Qcompare _ _ = Gt |- _ => apply Qgt_alt in H
    end; lra.
Qed.

Lemma round1_mono (q1 q2 : Q) : (q1 <= q2)%Q -> (round1 q1 <= round1 q2)%Q.
Proof.
  intros H. unfold round1.
  assert (Hz : round_half_even (q1 * inject_Z 10) <= round_half_even (q2 * inject_Z 10)).
  { apply round_half_even_mono. apply Qmult_le_compat_r; [exact H|]. unfold Qle. simpl. lia. }
  set (n1 := round_half_even (q1 * inject_Z 10)) in *.
  set (n2 := round_half_even (q2 * inject_Z 10)) in *.
  unfold Qle, Qdiv, Qmult, Qinv, inject_Z. simpl. lia.
Qed.

Lemma round1_comp (q1 q2 : Q) : (q1 == q2)%Q -> round1 q1 = round1 q2.
Proof.
  intros H. unfold round1. f_equal. f_equal.
  apply round_half_even_comp. rewrite H. reflexivity.
Qed.

Lemma round1_Z (z : Z) : (round1 (inject_Z z) == inject_Z z)%Q.
Proof.
  unfold round1.
  rewrite (round_half_even_comp (inject_Z z * inject_Z 10) (inject_Z (z * 10))).
  - rewrite round_half_even_Z. unfold Qeq, Qdiv, Qmult, Qinv, inject_Z. simpl. lia.
  - rewrite inject_Z_mult. reflexivity.
Qed.

(** ** The arch score *)

Lemma Qltb_true (x y : Q) : Qltb x y = true <-> (x < y)%Q.
Proof. unfold Qltb. rewrite negb_true_iff. apply Qle_bool_false. Qed.

Lemma Qltb_false (x y : Q) : Qltb x y = false <-> (y <= x)%Q.
Proof. unfold Qltb. rewrite negb_false_iff. apply Qle_bool_iff. Qed.

(** The score is the rounded, clamped value of
    [100 - 2000 * |arch_index - 0.235|]. *)
Lemma arch_score_raw (arch_index : Q) :
  exists raw : Q,
    (raw == 100 - 2000 * Qabs (arch_index - (47 # 200)))%Q
    /\ _calculate_arch_score arch_index
       = round1 (if Qltb (inject_Z 0) raw then raw else inject_Z 0).
Proof.
  unfold _calculate_arch_score. cbv zeta.
  assert (E : negb (Qeq_bool (Qdiv (Qminus Config.normal Config.high_arch) (inject_Z 2))
                      (inject_Z 0)) = true) by reflexivity.
  rewrite E. eexists. split; [|reflexivity].
  assert (Hi : (Qdiv (Qplus Config.high_arch Config.normal) (inject_Z 2) == 47 # 200)%Q)
    by reflexivity.
  assert (Hw : (Qdiv (Qminus Config.normal Config.high_arch) (inject_Z 2) == 1 # 40)%Q)
    by reflexivity.
  rewrite Hi, Hw.
  set (d := Qabs (arch_index - (47 # 200))).
  unfold Qdiv. change (/ (1 # 40))%Q with (40 # 1)%Q.
  change (inject_Z 100) with 100%Q. change (inject_Z 50) with 50%Q. lra.
Qed.

Lemma clamp_cases (raw : Q) :
  let c := if Qltb (inject_Z 0) raw then raw else inject_Z 0 in
  ((0 < raw)%Q /\ c = raw) \/ ((raw <= 0)%Q /\ c = inject_Z 0).
Proof.
  cbv zeta. destruct (Qltb (inject_Z 0) raw) eqn:E.
  - left. split; [apply Qltb_true in E; exact E | reflexivity].
  - right. split; [apply Qltb_false in E; exact E | reflexivity].
Qed.


Lemma arch_score_mono (a b : Q) :
  (Qabs (a - (47 # 200)) <= Qabs (b - (47 # 200)))%Q ->
  (_calculate_arch_score b <= _calculate_arch_score a)%Q.
Proof.
  intros H.
  destruct (arch_score_raw a) as [ra [Ha ->]].
  destruct (arch_score_raw b) as [rb [Hb ->]].
  apply round1_mono.
  destruct (clamp_cases ra) as [[Ra ->] | [Ra ->]],
           (clamp_cases rb) as [[Rb ->] | [Rb ->]];
    change (inject_Z 0) with 0%Q; lra.
Qed.

Lemma arch_score_range (arch_index : Q) :
  (inject_Z 0 <= _calculate_arch_score arch_index <= inject_Z 100)%Q.
Proof.
  destruct (arch_score_raw arch_index) as [raw [Hraw ->]].
  pose proof (Qabs_nonneg (arch_index - (47 # 200))) as Hd.
  set (c := if Qltb (inject_Z 0) raw then raw else inject_Z 0).
  assert (Hc : (inject_Z 0 <= c <= inject_Z 100)%Q).
  { unfold c. destruct (clamp_cases raw) as [[R ->] | [R ->]];
      change (inject_Z 0) with 0%Q; change (inject_Z 100) with 100%Q; lra. }
  split.
  - rewrite <- (round1_Z 0). apply round1_mono. apply Hc.
  - rewrite <- (round1_Z 100). apply round1_mono. apply Hc.
Qed.



(** X10: an arch index classified as normal scores at least 50, and an
    arch index that scores more than 50 is classified as normal. *)
Theorem normal_arch_scores_at_least_50 (arch_index : Q) :
  (_classify_arch arch_index = NORMAL ->
   (inject_Z 50 <= _calculate_arch_score arch_index)%Q)
  /\ ((inject_Z 50 < _calculate_arch_score arch_index)%Q ->
      _classify_arch arch_index = NORMAL).
Proof.
  assert (Hclass : _classify_arch arch_index = NORMAL <->
                   ((21 # 100) < arch_index)%Q /\ (arch_index <= 26 # 100)%Q).
  { unfold _classify_arch, Config.high_arch, Config.normal.
    destruct (Qle_bool arch_index (21 # 100)) eqn:E1.
    - apply Qle_bool_iff in E1. split; [discriminate|]. intros [H _]. exfalso. lra.
    - apply Qle_bool_false in E1.
      destruct (Qle_bool arch_index (26 # 100)) eqn:E2.
      + apply Qle_bool_iff in E2. split; [intros _; split; assumption | reflexivity].
      + apply Qle_bool_false in E2. split; [discriminate|]. intros [_ H]. exfalso. lra. }
  destruct (arch_score_raw arch_index) as [raw [Hraw Hscore]].
  pose proof (Qabs_Qle_condition (arch_index - (47 # 200)) (1 # 40)) as Habs.
  split.
  - intros H. apply Hclass in H. destruct H as [H1 H2].
    assert (Hd : (Qabs (arch_index - (47 # 200)) <= 1 # 40)%Q) by (apply Habs; split; lra).
    rewrite Hscore. rewrite <- (round1_Z 50). apply round1_mono.
    destruct (clamp_cases raw) as [[R ->] | [R ->]];
      change (inject_Z 50) with 50%Q; lra.
  - intros H. apply Hclass.
    assert (Hraw50 : (50 < raw)%Q).
    { apply Qnot_le_lt. intros Hle. apply (Qlt_not_le _ _ H).
      rewrite Hscore. rewrite <- (round1_Z 50). apply round1_mono.
      destruct (clamp_cases raw) as [[R ->] | [R ->]];
        change (inject_Z 50) with 50%Q; change (inject_Z 0) with 0%Q; lra. }
    assert (Hd : (Qabs (arch_index - (47 # 200)) < 1 # 40)%Q) by lra.
    pose proof (Qabs_Qlt_condition (arch_index - (47 # 200)) (1 # 40)) as Hlt.
    apply Hlt in Hd. split; lra.
Qed.

Lemma normal_arch_scores_at_least_50_witness :
  (inject_Z 50 <= _calculate_arch_score (1 # 4))%Q
  /\ _classify_arch (47 # 200) = NORMAL.
Proof.
  split.
  - apply (proj1 (normal_arch_scores_at_least_50 (1 # 4))). reflexivity.
  - apply (proj2 (normal_arch_scores_at_least_50 (47 # 200))). vm_compute. reflexivity.
Defined.

(** ** Foot types *)

Lemma fill_foot_types_sides (zones : Zones) (l r : grid) :
  let entry foot :=
    if np_sum foot =? 0
    then {| ft_type := NO_DATA; ft_value := inject_Z 0; ft_score := inject_Z 0 |}
    else
      let arch_index :=
        Qdiv (inject_Z (np_sum (row_slice foot (Ndimage.start (mid zones))
                                  (Ndimage.stop (mid zones)))))
             (inject_Z (np_sum foot)) in
      {| ft_type := _classify_arch arch_index; ft_value := arch_index;
         ft_score := _calculate_arch_score arch_index |} in
  fill_foot_types zones l r ∅ = <[RIGHT := entry r]> (<[LEFT := entry l]> ∅).
Proof.
  unfold fill_foot_types. cbn [fold_left String.eqb Ascii.eqb Bool.eqb].
  destruct (np_sum l =? 0), (np_sum r =? 0); reflexivity.
Qed.

Lemma ratio_bounds (z t : Z) :
  0 <= z <= t -> t <> 0 ->
  (inject_Z 0 <= Qdiv (inject_Z z) (inject_Z t) <= inject_Z 1)%Q.
Proof.
  intros Hz Ht. destruct t as [|p|p]; try lia.
  unfold Qle, Qdiv, Qmult, Qinv, inject_Z. simpl. split; nia.
Qed.



(** ** Decimal numerals and the generated documents *)

Lemma uint_chars (d : Decimal.uint) :
  forallb numeral_char (list_ascii_of_string (NilEmpty.string_of_uint d)) = true.
Proof. induction d; simpl; try assumption; reflexivity. Qed.

Lemma NilZero_NilEmpty (p : positive) :
  NilZero.string_of_uint (Pos.to_uint p) = NilEmpty.string_of_uint (Pos.to_uint p).
Proof.
  pose proof (Unsigned.to_uint_nonnil p) as H.
  destruct (Pos.to_uint p); [contradiction | reflexivity ..].
Qed.

Lemma py_str_chars (z : Z) :
  forallb numeral_char (list_ascii_of_string (py_str z)) = true.
Proof.
  unfold py_str. destruct z as [|p|p]; simpl; [reflexivity | |].
  - rewrite NilZero_NilEmpty. apply uint_chars.
  - rewrite NilZero_NilEmpty. apply uint_chars.
Qed.

(** Reading a decimal numeral digit by digit. *)
Lemma digits_uint_acc (d : Decimal.uint) (acc : positive) :
  digits (Z.pos acc) true (NilEmpty.string_of_uint d) = Some (Z.pos (Pos.of_uint_acc d acc)).
Proof.
  revert acc. induction d; intros acc; simpl; try reflexivity;
    match goal with
    | |- digits ?z true _ = _ =>
        match goal with
        | |- context [Pos.of_uint_acc d ?a] =>
            replace z with (Z.pos a) by lia; apply IHd
        end
    end.
Qed.

Lemma digits_uint (d : Decimal.uint) (b : bool) :
  digits 0 b (NilEmpty.string_of_uint d)
  = match d with
    | Decimal.Nil => if b then Some 0 else None
    | _ => Some (Z.of_N (Pos.of_uint d))
    end.
Proof.
  revert b. induction d; intros b; try reflexivity.
  - simpl. rewrite IHd. destruct d; reflexivity.
  - simpl. exact (digits_uint_acc d 1).
  - simpl. exact (digits_uint_acc d 2).
  - simpl. exact (digits_uint_acc d 3).
  - simpl. exact (digits_uint_acc d 4).
  - simpl. exact (digits_uint_acc d 5).
  - simpl. exact (digits_uint_acc d 6).
  - simpl. exact (digits_uint_acc d 7).
  - simpl. exact (digits_uint_acc d 8).
  - simpl. exact (digits_uint_acc d 9).
Qed.

Lemma lstrip_id (s : string) :
  forallb numeral_char (list_ascii_of_string s) = true -> lstrip s = s.
Proof.
  destruct s as [|c s]; [reflexivity|]. simpl. intros H. zb.
  assert (E : is_space c = false).
  { unfold numeral_char in H. unfold is_space.
    apply orb_true_iff in H. destruct H as [H | H].
    - apply Ascii.eqb_eq in H. subst c. reflexivity.
    - zb. apply Nat.leb_le in H, H1.
      destruct (Nat.eqb_spec (nat_of_ascii c) 32); [lia|].
      destruct (Nat.leb_spec (nat_of_ascii c) 13); [lia|].
      rewrite andb_false_r. reflexivity. }
  rewrite E. reflexivity.
Qed.

Lemma strip_id (s : string) :
  forallb numeral_char (list_ascii_of_string s) = true -> strip s = s.
Proof.
  intros H. unfold strip. rewrite (lstrip_id s H).
  rewrite lstrip_id.
  - rewrite list_ascii_of_string_of_list_ascii, rev_involutive.
    apply string_of_list_ascii_of_string.
  - rewrite list_ascii_of_string_of_list_ascii.
    rewrite forallb_forall in H |- *. intros c Hc. apply H. apply in_rev. exact Hc.
Qed.

(** [int(str(z))] is [z]. *)
Lemma py_int_str (z : Z) : py_int (py_str z) = Ok z.
Proof.
  unfold py_int. rewrite (strip_id _ (py_str_chars z)).
  unfold py_str. destruct z as [|p|p]; [reflexivity | |].
  - cbn [Z.to_int NilZero.string_of_int]. rewrite NilZero_NilEmpty.
    pose proof (digits_uint (Pos.to_uint p) false) as Hd.
    pose proof (Unsigned.of_to p) as Hp.
    pose proof (Unsigned.to_uint_nonnil p) as Hn.
    destruct (Pos.to_uint p) eqn:E; [contradiction | ..];
      rewrite Hp in Hd; cbn [NilEmpty.string_of_uint] in Hd |- *;
      cbv beta iota zeta; rewrite Hd; reflexivity.
  - cbn [Z.to_int NilZero.string_of_int]. rewrite NilZero_NilEmpty.
    cbv beta iota zeta.
    pose proof (digits_uint (Pos.to_uint p) false) as Hd.
    pose proof (Unsigned.of_to p) as Hp.
    pose proof (Unsigned.to_uint_nonnil p) as Hn.
    rewrite Hd. destruct (Pos.to_uint p) eqn:E; [contradiction | ..];
      rewrite Hp; reflexivity.
Qed.

Lemma prefix_empty (s : string) : String.prefix "" s = true.
Proof. destruct s; reflexivity. Qed.

Lemma append_cons (c : ascii) (s t : string) : String c s +:+ t = String c (s +:+ t).
Proof. reflexivity. Qed.

(** A piece without the first character of the separator is read to its
    end. *)
Lemma split_aux_piece (c0 : ascii) (sep' : string) (p : list ascii)
    (cur : list ascii) (s' : string) :
  ~ In c0 p ->
  split_aux (String c0 sep') 0 cur (string_of_list_ascii p +:+ s')
  = split_aux (String c0 sep') 0 (rev p ++ cur) s'.
Proof.
  revert cur. induction p as [|ch p IH]; intros cur Hp; [reflexivity|].
  cbn [string_of_list_ascii]. rewrite append_cons. cbn [split_aux String.prefix].
  destruct (ascii_dec c0 ch) as [-> | _]; [exfalso; apply Hp; left; reflexivity|].
  rewrite IH by (intros H; apply Hp; right; exact H).
  cbn [rev]. rewrite <- app_assoc. reflexivity.
Qed.

Lemma split_aux_end (sep : string) (cur : list ascii) :
  split_aux sep 0 cur "" = [string_of_list_ascii (rev cur)].
Proof. reflexivity. Qed.

Lemma split_aux_comma (cur : list ascii) (s : string) :
  split_aux ", " 0 cur (String "," (String " " s))
  = string_of_list_ascii (rev cur) :: split_aux ", " 0 [] s.
Proof.
  cbn [split_aux String.prefix String.length Nat.sub].
  destruct (ascii_dec "," ",") as [_ | H]; [|contradiction].
  destruct (ascii_dec " " " ") as [_ | H]; [|contradiction].
  rewrite prefix_empty. reflexivity.
Qed.

Lemma split_aux_underscore (cur : list ascii) (s : string) :
  split_aux "_" 0 cur (String "_" s)
  = string_of_list_ascii (rev cur) :: split_aux "_" 0 [] s.
Proof.
  cbn [split_aux String.prefix String.length Nat.sub].
  destruct (ascii_dec "_" "_") as [_ | H]; [|contradiction].
  rewrite prefix_empty. reflexivity.
Qed.

Lemma numeral_not (c0 : ascii) (s : string) :
  numeral_char c0 = false ->
  forallb numeral_char (list_ascii_of_string s) = true ->
  ~ In c0 (list_ascii_of_string s).
Proof.
  intros Hc Hs Hin. rewrite forallb_forall in Hs. rewrite (Hs c0 Hin) in Hc. discriminate.
Qed.

Lemma split_piece_string (c0 : ascii) (sep' : string) (p : string) (cur : list ascii)
    (s' : string) :
  numeral_char c0 = false ->
  forallb numeral_char (list_ascii_of_string p) = true ->
  split_aux (String c0 sep') 0 cur (p +:+ s')
  = split_aux (String c0 sep') 0 (rev (list_ascii_of_string p) ++ cur) s'.
Proof.
  intros Hc Hp. rewrite <- (string_of_list_ascii_of_string p) at 1.
  apply split_aux_piece. apply numeral_not; assumption.
Qed.

Lemma string_app_empty (s : string) : s +:+ "" = s.
Proof. induction s as [|c s IH]; [reflexivity|]. rewrite append_cons, IH. reflexivity. Qed.

(** Splitting a row of joined numerals gives the numerals back. *)
Lemma split_join_numerals (x : string) (rest : list string) :
  Forall (fun c => forallb numeral_char (list_ascii_of_string c) = true) (x :: rest) ->
  py_split (py_join ", " (x :: rest)) ", " = x :: rest.
Proof.
  unfold py_split. revert x. induction rest as [|y rest IH]; intros x H.
  - cbn [py_join]. rewrite <- (string_app_empty x) at 1.
    rewrite split_piece_string; [|reflexivity | exact (Forall_inv H)].
    rewrite split_aux_end, app_nil_r, rev_involutive, string_of_list_ascii_of_string.
    reflexivity.
  - change (py_join ", " (x :: y :: rest))
      with (x +:+ ", " +:+ py_join ", " (y :: rest)).
    rewrite split_piece_string; [|reflexivity | exact (Forall_inv H)].
    change (", " +:+ py_join ", " (y :: rest))
      with (String "," (String " " (py_join ", " (y :: rest)))).
    rewrite split_aux_comma, app_nil_r, rev_involutive, string_of_list_ascii_of_string.
    f_equal. apply IH. exact (Forall_inv_tail H).
Qed.

Lemma mapM_map_Ok {A B C} (f : B -> result C) (a : A -> B) (b : A -> C) (l : list A) :
  (forall i, In i l -> f (a i) = Ok (b i)) -> mapM f (map a l) = Ok (map b l).
Proof.
  induction l as [|i l IH]; intros H; [reflexivity|].
  cbn. rewrite (H i (or_introl eq_refl)). cbn. fold (mapM f (map a l)).
  rewrite IH by (intros j Hj; apply H; right; exact Hj). reflexivity.
Qed.

(** A row written by [create_json_data] parses to its integers. *)
Lemma parse_generated_row (zs : list Z) :
  zs <> [] ->
  (cells ← str_split (JStr (py_join ", " (map py_str zs))) ", "; mapM py_int cells)
  = Ok zs.
Proof.
  intros Hne. destruct zs as [|z zs]; [contradiction|].
  cbn [str_split mbind result_bind].
  change (map py_str (z :: zs)) with (py_str z :: map py_str zs).
  rewrite split_join_numerals.
  - change (py_str z :: map py_str zs) with (map py_str (z :: zs)).
    rewrite (mapM_map_Ok py_int py_str (fun z => z) (z :: zs)).
    + rewrite map_id. reflexivity.
    + intros i _. apply py_int_str.
  - change (py_str z :: map py_str zs) with (map py_str (z :: zs)).
    apply List.Forall_forall. intros c Hc. apply in_map_iff in Hc.
    destruct Hc as [z' [<- _]]. apply py_str_chars.
Qed.

(** The sort key of the identifier [Row_i] is [i]. *)
Lemma sort_key_generated (i : nat) :
  sort_key ("Row_" +:+ py_str (Z.of_nat i)) = Ok (Z.of_nat i).
Proof.
  unfold sort_key, py_split.
  change ("Row_" +:+ py_str (Z.of_nat i))
    with ("Row" +:+ String "_" (py_str (Z.of_nat i))).
  rewrite (split_aux_piece "_" "" (list_ascii_of_string "Row") [] _)
    by (simpl; intros [H | [H | [H | []]]]; discriminate H).
  rewrite split_aux_underscore.
  rewrite <- (string_app_empty (py_str (Z.of_nat i))) at 1.
  rewrite split_piece_string; [|reflexivity | apply py_str_chars].
  rewrite split_aux_end. cbn [list_item nth_error mbind result_bind].
  rewrite app_nil_r, rev_involutive, string_of_list_ascii_of_string.
  apply py_int_str.
Qed.

Lemma imap_as_map {A B} (f : nat -> A -> B) (l : list A) (d : A) :
  imap f l = map (fun i => f i (nth i l d)) (seq 0 (length l)).
Proof.
  revert f. induction l as [|x l IH]; intros f; [reflexivity|].
  rewrite imap_cons. cbn [length seq map nth]. f_equal.
  rewrite IH, <- seq_shift, map_map. reflexivity.
Qed.

Lemma map_nth_seq {A B} (f : A -> B) (l : list A) (d : A) :
  map (fun i => f (nth i l d)) (seq 0 (length l)) = map f l.
Proof.
  induction l as [|x l IH]; [reflexivity|].
  cbn [length seq map nth]. f_equal.
  rewrite <- seq_shift, map_map. exact IH.
Qed.

(** Keys that are already in ascending order stay in place. *)
Lemma sorted_by_ascending {A} (k : nat -> A) (s n : nat) :
  sorted_by (map (fun i => (Z.of_nat i, k i)) (seq s n)) = map k (seq s n).
Proof.
  unfold sorted_by.
  assert (H : foldr insert_by [] (map (fun i => (Z.of_nat i, k i)) (seq s n))
              = map (fun i => (Z.of_nat i, k i)) (seq s n)).
  { revert s. induction n as [|n IH]; intros s; [reflexivity|].
    cbn [seq map foldr]. rewrite IH.
    destruct n as [|n]; [reflexivity|].
    cbn [seq map insert_by fst].
    destruct (Z.leb_spec (Z.of_nat s) (Z.of_nat (S s))); [reflexivity | lia]. }
  rewrite H, map_map. reflexivity.
Qed.

Lemma assoc_generated (key : nat -> string) (v : nat -> json) (s n i : nat) :
  (forall a b, key a = key b -> a = b) ->
  (s <= i < s + n)%nat ->
  assoc (key i) (map (fun j => (key j, v j)) (seq s n)) = Some (v i).
Proof.
  intros Hinj. revert s. induction n as [|n IH]; intros s Hi; [lia|].
  cbn [seq map assoc].
  destruct (String.eqb_spec (key s) (key i)) as [E | E].
  - apply Hinj in E. subst. reflexivity.
  - apply IH. assert (s <> i) by (intros ->; apply E; reflexivity). lia.
Qed.

Lemma row_key_inj (a b : nat) :
  "Row_" +:+ py_str (Z.of_nat a) = "Row_" +:+ py_str (Z.of_nat b) -> a = b.
Proof.
  intros H. pose proof (sort_key_generated a) as Ha. rewrite H in Ha.
  rewrite sort_key_generated in Ha. inversion Ha. lia.
Qed.

(** The rows written by [create_json_data] are read back as the integer
    matrix. *)
Lemma parse_generated_rows (m : list (list Q)) :
  rectangular m = true -> (0 < ncols m)%nat ->
  parse_rows
    (JDict (imap (fun i row =>
                    ("Row_" +:+ py_str (Z.of_nat i),
                     JStr (py_join ", " (map (fun v => py_str (int_of_Q v)) row))))
              m))
  = Ok (map (map int_of_Q) m).
Proof.
  intros Hrect Hcols.
  set (key := fun i : nat => "Row_" +:+ py_str (Z.of_nat i)).
  set (val := fun i : nat =>
                JStr (py_join ", " (map (fun v => py_str (int_of_Q v)) (nth i m [])))).
  rewrite (imap_as_map _ m []).
  change (map _ (seq 0 (length m)))
    with (map (fun i => (key i, val i)) (seq 0 (length m))).
  unfold parse_rows. cbn [dict_keys mbind result_bind].
  rewrite map_map. cbn [fst].
  rewrite (mapM_map_Ok (fun x => k ← sort_key x; mret (k, x)) key
             (fun i => (Z.of_nat i, key i))).
  2:{ intros i _. unfold key. rewrite sort_key_generated. reflexivity. }
  cbn [mbind result_bind]. rewrite sorted_by_ascending.
  rewrite (mapM_map_Ok _ key (fun i => map int_of_Q (nth i m []))).
  - cbn [mbind result_bind]. rewrite (map_nth_seq (map int_of_Q) m []).
    unfold np_array. rewrite (rectangular_map int_of_Q m Hrect). reflexivity.
  - intros i Hi. apply in_seq in Hi.
    unfold dict_item. rewrite (assoc_generated key val 0 (length m) i); [|exact row_key_inj | lia].
    cbn [mbind result_bind]. unfold val.
    rewrite <- (map_map int_of_Q py_str).
    apply parse_generated_row.
    assert (Hlen : length (nth i m []) = ncols m).
    { apply (proj1 (rectangular_spec m) Hrect). apply nth_In. lia. }
    intros E. apply (f_equal (@length Z)) in E. rewrite length_map, Hlen in E.
    simpl in E. lia.
Qed.

(** X11: a non-empty rectangular matrix written by [create_json_data]
    of the test-data scripts is read back by the engine as the matrix
    of its readings truncated to integers, and the run on that document
    succeeds. *)
Theorem generated_frames_are_read_back (pressure_matrix : list (list Q))
    (filename : string) :
  rectangular pressure_matrix = true ->
  (0 < nrows pressure_matrix)%nat ->
  (0 < ncols pressure_matrix)%nat ->
  exists self,
    _process_input_data (__init__ (create_json_data pressure_matrix) filename) = Ok self
    /\ pressure_array self = map (map int_of_Q) pressure_matrix
    /\ pressure_data self = Some (map (map int_of_Q) pressure_matrix)
    /\ (run_analysis (__init__ (create_json_data pressure_matrix) filename)).1 = true.
Proof.
  intros Hrect Hrows Hcols.
  assert (Hp : _process_input_data (__init__ (create_json_data pressure_matrix) filename)
               = Ok (set_pressure_data (Some (map (map int_of_Q) pressure_matrix))
                       (set_pressure_array (map (map int_of_Q) pressure_matrix)
                          (__init__ (create_json_data pressure_matrix) filename)))).
  { unfold _process_input_data, create_json_data.
    cbn [__init__ json_data dict_get assoc String.eqb Ascii.eqb Bool.eqb default].
    unfold id.
    assert (Ht : truthy (JDict (imap (fun i row =>
                    ("Row_" +:+ py_str (Z.of_nat i),
                     JStr (py_join ", " (map (fun v => py_str (int_of_Q v)) row))))
                    pressure_matrix)) = true).
    { destruct pressure_matrix; [simpl in Hrows; lia | reflexivity]. }
    rewrite Ht. cbn [negb].
    rewrite (parse_generated_rows pressure_matrix Hrect Hcols). reflexivity. }
  eexists. split; [exact Hp|]. split; [reflexivity|]. split; [reflexivity|].
  unfold run_analysis. rewrite Hp. proj_simpl.
  assert (Hsize : np_size (map (map int_of_Q) pressure_matrix) <> 0%nat).
  { unfold np_size. rewrite nrows_map, ncols_map. lia. }
  destruct (Nat.eqb_spec (np_size (map (map int_of_Q) pressure_matrix)) 0);
    [contradiction | reflexivity].
Qed.

Lemma generated_frames_are_read_back_witness :
  exists self,
    _process_input_data (__init__ (create_json_data generated_matrix) "frame.json") = Ok self
    /\ pressure_array self = [[0; 7; 12]; [9; 0; 1]]
    /\ pressure_data self = Some [[0; 7; 12]; [9; 0; 1]]
    /\ (run_analysis (__init__ (create_json_data generated_matrix) "frame.json")).1 = true.
Proof.
  apply (generated_frames_are_read_back generated_matrix "frame.json").
  - reflexivity.
  - simpl. lia.
  - simpl. lia.
Defined.

(** ** The order of the rows *)

(** Insertions of items with different keys commute. *)
Lemma insert_by_comm {A} (x y : Z * A) (l : list (Z * A)) :
  x.1 <> y.1 -> insert_by x (insert_by y l) = insert_by y (insert_by x l).
Proof.
  intros Hne. induction l as [|z l IH].
  - cbn [insert_by].
    destruct (Z.leb_spec x.1 y.1), (Z.leb_spec y.1 x.1); try reflexivity; lia.
  - cbn [insert_by].
    destruct (Z.leb_spec x.1 z.1), (Z.leb_spec y.1 z.1); cbn [insert_by].
    + destruct (Z.leb_spec x.1 y.1), (Z.leb_spec y.1 x.1); try lia.
      * destruct (Z.leb_spec y.1 z.1); [reflexivity | lia].
      * destruct (Z.leb_spec x.1 z.1); [reflexivity | lia].
    + destruct (Z.leb_spec y.1 x.1); [lia|].
      destruct (Z.leb_spec x.1 z.1); [|lia].
      destruct (Z.leb_spec y.1 z.1); [lia | reflexivity].
    + destruct (Z.leb_spec x.1 y.1); [lia|].
      destruct (Z.leb_spec y.1 z.1); [|lia].
      destruct (Z.leb_spec x.1 z.1); [lia | reflexivity].
    + destruct (Z.leb_spec x.1 z.1); [lia|].
      destruct (Z.leb_spec y.1 z.1); [lia|].
      rewrite IH. reflexivity.
Qed.

(** Sorting does not depend on the order of items whose keys differ. *)
Lemma sorted_by_permutation {A} (l1 l2 : list (Z * A)) :
  Permutation l1 l2 -> List.NoDup (map fst l1) -> sorted_by l1 = sorted_by l2.
Proof.
  intros Hperm Hnd. unfold sorted_by. f_equal.
  induction Hperm as [|x l l' Hperm IH | x y l | l l' l'' H1 IH1 H2 IH2].
  - reflexivity.
  - cbn [foldr]. rewrite IH; [reflexivity|]. inversion Hnd; assumption.
  - cbn [foldr]. apply insert_by_comm.
    cbn [map] in Hnd. inversion Hnd as [|? ? Hnotin _]; subst.
    intros E. apply Hnotin. left. symmetry. exact E.
  - rewrite IH1 by exact Hnd. apply IH2.
    apply (Permutation.Permutation_NoDup (Permutation_map fst H1)). exact Hnd.
Qed.

Lemma assoc_In (key : string) (items : list (string * json)) (v : json) :
  List.NoDup (map fst items) -> In (key, v) items -> assoc key items = Some v.
Proof.
  induction items as [|[k w] items IH]; intros Hnd Hin; [destruct Hin|].
  cbn [map fst] in Hnd. inversion Hnd as [|? ? Hnotin Hnd']; subst.
  cbn [assoc]. destruct Hin as [E | Hin].
  - inversion E; subst. rewrite String.eqb_refl. reflexivity.
  - destruct (String.eqb_spec k key) as [-> | _]; [|apply IH; assumption].
    exfalso. apply Hnotin. apply in_map_iff. exists (key, v). split; [reflexivity | exact Hin].
Qed.

(** A lookup does not depend on the order of the items of a dictionary. *)
Lemma assoc_permutation (key : string) (l1 l2 : list (string * json)) :
  Permutation l1 l2 -> List.NoDup (map fst l1) -> assoc key l1 = assoc key l2.
Proof.
  intros Hperm Hnd.
  assert (Hnd2 : List.NoDup (map fst l2))
    by (apply (Permutation.Permutation_NoDup (Permutation_map fst Hperm)); exact Hnd).
  destruct (assoc key l1) as [v|] eqn:E1.
  - symmetry. apply assoc_In; [exact Hnd2|].
    apply (Permutation_in _ Hperm). apply assoc_Some. exact E1.
  - destruct (assoc key l2) as [v|] eqn:E2; [|reflexivity].
    apply assoc_Some in E2. apply (Permutation_in _ (Permutation_sym Hperm)) in E2.
    rewrite (assoc_In key l1 v Hnd E2) in E1. discriminate E1.
Qed.

Lemma mapM_ext_in {A B} (f g : A -> result B) (l : list A) :
  (forall x, In x l -> f x = g x) -> mapM f l = mapM g l.
Proof.
  induction l as [|x l IH]; intros H; [reflexivity|].
  cbn. rewrite (H x (or_introl eq_refl)).
  fold (mapM f l). fold (mapM g l).
  rewrite IH by (intros y Hy; apply H; right; exact Hy). reflexivity.
Qed.

Lemma NoDup_map_in {A B} (f : A -> B) (l : list A) :
  (forall x y, In x l -> In y l -> f x = f y -> x = y) ->
  List.NoDup l -> List.NoDup (map f l).
Proof.
  induction l as [|x l IH]; intros Hinj Hnd; [constructor|].
  inversion Hnd as [|? ? Hnotin Hnd']; subst. cbn [map]. constructor.
  - intros Hin. apply in_map_iff in Hin. destruct Hin as [y [E Hy]].
    apply Hnotin. rewrite (Hinj x y (or_introl eq_refl) (or_intror Hy)); [exact Hy|].
    symmetry. exact E.
  - apply IH; [|exact Hnd']. intros a b Ha Hb. apply Hinj; right; assumption.
Qed.

(** The array parsed from the rows of a JSON object does not depend on the
    order of its members, when no two row identifiers carry the same
    number. *)
Lemma parse_rows_permutation (rows1 rows2 : list (string * json)) (a : grid) :
  Permutation rows1 rows2 ->
  List.NoDup (map fst rows1) ->
  (forall k1 k2 z, In k1 (map fst rows1) -> In k2 (map fst rows1) ->
     sort_key k1 = Ok z -> sort_key k2 = Ok z -> k1 = k2) ->
  parse_rows (JDict rows1) = Ok a ->
  parse_rows (JDict rows2) = Ok a.
Proof.
  intros Hperm Hnd Hinj H. unfold parse_rows in H |- *.
  cbn [dict_keys mbind result_bind] in H |- *.
  apply bind_Ok in H. destruct H as [keyed1 [Hkeyed H]].
  apply bind_Ok in H. destruct H as [pm [Hpm Harr]].
  pose proof (keyed_keys _ _ Hkeyed) as Hsnd.
  set (kz := fun x : string => match sort_key x with Ok z => z | Raise _ => 0 end).
  pose proof (mapM_Ok_inv _ _ _ Hkeyed) as HF.
  assert (Hkey : forall x, In x (map fst rows1) -> sort_key x = Ok (kz x)).
  { intros x Hx. destruct (Forall2_In_l _ _ _ _ HF Hx) as [p [_ Hp]].
    apply bind_Ok in Hp. destruct Hp as [k [Hk _]]. unfold kz. rewrite Hk. reflexivity. }
  assert (Hkeyed1 : keyed1 = map (fun x => (kz x, x)) (map fst rows1)).
  { clear -HF Hkey. induction HF as [|x p l ps Hxp HF IH]; [reflexivity|].
    cbn [map]. f_equal.
    - rewrite (Hkey x (or_introl eq_refl)) in Hxp. inversion Hxp. reflexivity.
    - apply IH. intros y Hy. apply Hkey. right. exact Hy. }
  pose proof (Permutation_map fst Hperm) as Hkeys.
  assert (Hkeyed2 : mapM (fun x => k ← sort_key x; mret (k, x)) (map fst rows2)
                    = Ok (map (fun x => (kz x, x)) (map fst rows2))).
  { rewrite <- (map_id (map fst rows2)) at 1.
    apply (mapM_map_Ok _ (fun x => x) (fun x => (kz x, x))).
    intros x Hx. rewrite Hkey; [reflexivity|].
    apply (Permutation_in _ (Permutation_sym Hkeys)). exact Hx. }
  rewrite Hkeyed2. cbn [mbind result_bind].
  assert (Hsorted : sorted_by (map (fun x => (kz x, x)) (map fst rows2)) = sorted_by keyed1).
  { symmetry. rewrite Hkeyed1. apply sorted_by_permutation.
    - apply Permutation_map. exact Hkeys.
    - rewrite map_map. cbn [fst]. apply NoDup_map_in; [|exact Hnd].
      intros x y Hx Hy E. apply (Hinj x y (kz x)); [assumption | assumption | |].
      + apply Hkey. exact Hx.
      + rewrite E. apply Hkey. exact Hy. }
  rewrite Hsorted.
  rewrite (mapM_ext_in _ (fun key => v ← dict_item (JDict rows1) key;
                                      cells ← str_split v ", "; mapM py_int cells)).
  - rewrite Hpm. cbn [mbind result_bind]. exact Harr.
  - intros key _. unfold dict_item.
    rewrite (assoc_permutation key rows2 rows1 (Permutation_sym Hperm)); [reflexivity|].
    apply (Permutation.Permutation_NoDup Hkeys). exact Hnd.
Qed.

(** X12: the array that ingestion builds does not depend on the order of
    the members of [RawPressureByRows]: when ingestion of a document
    yields a non-empty array, and no two row identifiers of it carry the
    same number, ingestion of a document with the same rows in any other
    order yields the same array. *)
Theorem rows_are_ordered_by_their_number (items1 items2 rows1 rows2 : list (string * json))
    (filename : string) (self1 : Analyzer) :
  assoc "RawPressureByRows" items1 = Some (JDict rows1) ->
  assoc "RawPressureByRows" items2 = Some (JDict rows2) ->
  Permutation rows1 rows2 ->
  List.NoDup (map fst rows1) ->
  (forall k1 k2 z, In k1 (map fst rows1) -> In k2 (map fst rows1) ->
     sort_key k1 = Ok z -> sort_key k2 = Ok z -> k1 = k2) ->
  _process_input_data (__init__ (JDict items1) filename) = Ok self1 ->
  pressure_array self1 <> [] ->
  exists self2,
    _process_input_data (__init__ (JDict items2) filename) = Ok self2
    /\ pressure_array self2 = pressure_array self1
    /\ pressure_data self2 = pressure_data self1.
Proof.
  intros H1 H2 Hperm Hnd Hinj Hp Hne.
  unfold _process_input_data in Hp |- *.
  cbn [__init__ json_data dict_get] in Hp |- *.
  rewrite H1 in Hp. rewrite H2. cbn [default] in Hp |- *. unfold id in Hp |- *.
  destruct rows1 as [|row1 rows1'].
  { cbn in Hp. inversion Hp; subst self1. exfalso. apply Hne. reflexivity. }
  assert (Ht : truthy (JDict rows2) = true).
  { destruct rows2; [|reflexivity]. apply Permutation_sym, Permutation_nil in Hperm.
    discriminate Hperm. }
  rewrite Ht. cbn [truthy length Nat.eqb negb] in Hp |- *.
  destruct (parse_rows (JDict (row1 :: rows1'))) as [a|e] eqn:Ea.
  - rewrite (parse_rows_permutation _ _ a Hperm Hnd Hinj Ea).
    inversion Hp; subst self1. eexists. split; [reflexivity|]. split; reflexivity.
  - destruct (caught e); [|discriminate Hp].
    inversion Hp; subst self1. exfalso. apply Hne. reflexivity.
Qed.

Lemma rows_are_ordered_by_their_number_witness :
  exists self2,
    _process_input_data
      (__init__ (JDict [("RawPressureByRows"%string, JDict rows_2_10)]) "frame.json")
    = Ok self2
    /\ pressure_array self2 = [[1; 2]; [3; 4]]
    /\ pressure_data self2 = Some [[1; 2]; [3; 4]].
Proof.
  refine (rows_are_ordered_by_their_number
            [("RawPressureByRows"%string, JDict rows_10_2)]
            [("RawPressureByRows"%string, JDict rows_2_10)]
            rows_10_2 rows_2_10 "frame.json"
            (set_pressure_data (Some [[1; 2]; [3; 4]])
               (set_pressure_array [[1; 2]; [3; 4]]
                  (__init__ (JDict [("RawPressureByRows"%string, JDict rows_10_2)])
                     "frame.json")))
            _ _ _ _ _ _ _).
  - reflexivity.
  - reflexivity.
  - apply perm_swap.
  - repeat constructor; simpl; intuition discriminate.
  - intros k1 k2 z H1 H2.
    simpl in H1, H2.
    destruct H1 as [<- | [<- | []]], H2 as [<- | [<- | []]];
      vm_compute; intros E1 E2; congruence.
  - vm_compute. reflexivity.
  - discriminate.
Defined.

(** ** Native values *)

(** Induction on Python values and on numpy arrays, with the hypothesis
    for every element of a container. *)
Lemma pyval_induction (P : pyval -> Prop) :
  P PyNone -> (forall b, P (PyBool b)) -> (forall z, P (PyInt z)) ->
  (forall q, P (PyFloat q)) -> (forall s, P (PyStr s)) ->
  (forall l, List.Forall P l -> P (PyList l)) ->
  (forall l, List.Forall P l -> P (PyTuple l)) ->
  (forall items, List.Forall (fun kv : string * pyval => P kv.2) items -> P (PyDict items)) ->
  (forall x, P (NpGeneric x)) -> (forall a, P (NpArray a)) ->
  forall v, P v.
Proof.
  intros HNone HBool HInt HFloat HStr HList HTuple HDict HGen HArr.
  fix IH 1. intros [| b | z | q | s | l | l | items | x | a].
  - exact HNone.
  - apply HBool.
  - apply HInt.
  - apply HFloat.
  - apply HStr.
  - apply HList. induction l as [|v l IHl]; constructor; [apply IH | exact IHl].
  - apply HTuple. induction l as [|v l IHl]; constructor; [apply IH | exact IHl].
  - apply HDict. induction items as [|[k v] items IHl]; constructor; [apply IH | exact IHl].
  - apply HGen.
  - apply HArr.
Qed.

Lemma ndarray_induction (P : ndarray -> Prop) :
  (forall x, P (Nd0 x)) ->
  (forall items, List.Forall P items -> P (NdSeq items)) ->
  forall a, P a.
Proof.
  intros H0 HSeq. fix IH 1. intros [x | items]; [apply H0|].
  apply HSeq. induction items as [|a items IHl]; constructor; [apply IH | exact IHl].
Qed.

Lemma tolist_native (a : ndarray) : is_native (tolist a) = true.
Proof.
  induction a as [x | items IH] using ndarray_induction.
  - destruct x; reflexivity.
  - cbn [tolist is_native]. rewrite forallb_forall. intros v Hv.
    apply in_map_iff in Hv. destruct Hv as [a [<- Ha]].
    rewrite List.Forall_forall in IH. apply IH. exact Ha.
Qed.

Lemma convert_native (v : pyval) : is_native (convert_numpy_to_native v) = true.
Proof.
  induction v as [| b | z | q | s | l IH | l IH | items IH | x | a] using pyval_induction;
    try reflexivity.
  - cbn [convert_numpy_to_native is_native]. rewrite forallb_forall. intros v Hv.
    apply in_map_iff in Hv. destruct Hv as [w [<- Hw]].
    rewrite List.Forall_forall in IH. apply IH. exact Hw.
  - cbn [convert_numpy_to_native is_native]. rewrite forallb_forall. intros v Hv.
    apply in_map_iff in Hv. destruct Hv as [w [<- Hw]].
    rewrite List.Forall_forall in IH. apply IH. exact Hw.
  - cbn [convert_numpy_to_native is_native]. rewrite forallb_forall. intros [k v] Hv.
    apply in_map_iff in Hv. destruct Hv as [[k' w] [E Hw]]. inversion E; subst.
    rewrite List.Forall_forall in IH. exact (IH (k, w) Hw).
  - destruct x; reflexivity.
  - apply tolist_native.
Qed.

Lemma convert_fixes_native (v : pyval) :
  is_native v = true -> convert_numpy_to_native v = v.
Proof.
  induction v as [| b | z | q | s | l IH | l IH | items IH | x | a] using pyval_induction;
    try reflexivity; try discriminate.
  - cbn [convert_numpy_to_native is_native]. intros H. f_equal.
    rewrite <- (map_id l) at 2. apply map_ext_in. intros v Hv.
    rewrite List.Forall_forall in IH. rewrite forallb_forall in H. apply IH; auto.
  - cbn [convert_numpy_to_native is_native]. intros H. f_equal.
    rewrite <- (map_id l) at 2. apply map_ext_in. intros v Hv.
    rewrite List.Forall_forall in IH. rewrite forallb_forall in H. apply IH; auto.
  - cbn [convert_numpy_to_native is_native]. intros H. f_equal.
    rewrite <- (map_id items) at 2. apply map_ext_in. intros [k v] Hv.
    rewrite List.Forall_forall in IH. rewrite forallb_forall in H.
    f_equal. apply (IH (k, v) Hv). exact (H (k, v) Hv).
Qed.

(** X13: [convert_numpy_to_native] leaves no numpy scalar or array in
    its result, converting a value twice gives the same as converting it
    once, and a value without numpy scalars and arrays is returned
    unchanged. *)
Theorem convert_numpy_to_native_normalises (data : pyval) :
  is_native (convert_numpy_to_native data) = true
  /\ convert_numpy_to_native (convert_numpy_to_native data) = convert_numpy_to_native data
  /\ (is_native data = true -> convert_numpy_to_native data = data).
Proof.
  split; [apply convert_native|]. split; [|apply convert_fixes_native].
  apply convert_fixes_native. apply convert_native.
Qed.

Lemma convert_numpy_to_native_normalises_witness :
  convert_numpy_to_native (convert_numpy_to_native numpy_results)
  = convert_numpy_to_native numpy_results
  /\ convert_numpy_to_native (PyTuple [PyInt 1; PyInt 4]) = PyTuple [PyInt 1; PyInt 4].
Proof.
  split.
  - apply (proj1 (proj2 (convert_numpy_to_native_normalises numpy_results))).
  - apply (proj2 (proj2 (convert_numpy_to_native_normalises (PyTuple [PyInt 1; PyInt 4])))).
    reflexivity.
Defined.

(** ** Visualization data *)

Lemma no_data_message_truthy (filename : string) :
  str_truthy (Some (no_data_message filename)) = true.
Proof. reflexivity. Qed.

Lemma failure_message_truthy (e : exn) :
  str_truthy (Some (failure_message e)) = true.
Proof. destruct e; reflexivity. Qed.

(** The error message after a run that returned [False]. *)
Lemma run_analysis_failure (json_data : json) (filename : string) (self : Analyzer) :
  run_analysis (__init__ json_data filename) = (false, self) ->
  error_message self = Some (no_data_message filename)
  \/ exists e, error_message self = Some (failure_message e).
Proof.
  unfold run_analysis. intros H.
  destruct (_process_input_data (__init__ json_data filename)) as [s1|e] eqn:E1.
  - destruct (process_input_data_spec _ _ E1) as (_ & Hfn & _).
    destruct (Nat.eqb (np_size (pressure_array s1)) 0); [|discriminate].
    inversion H; subst self. left. proj_simpl. rewrite Hfn. reflexivity.
  - inversion H; subst self. right. exists e. reflexivity.
Qed.

(** X14: after a successful run [get_visualization_data] returns the
    cleaned array, which has the shape of the frame, together with the
    results assembled by [_prepare_final_results] from the distribution,
    the foot types, the bounding box, its zones and the centre of
    pressure; after a failed run it returns [None]. *)
Theorem visualization_data_follows_the_run (json_data : json) (filename : string) :
  let self := (run_analysis (__init__ json_data filename)).2 in
  if (run_analysis (__init__ json_data filename)).1
  then
    exists vis_data,
      get_visualization_data self = Some vis_data
      /\ vd_pressure_data vis_data = filter_array (pressure_array self)
      /\ shaped (pressure_array self) (vd_pressure_data vis_data)
      /\ vd_analysis_results vis_data =
           Some {| res_distribution := distribution self;
                   res_foot_types := foot_types self;
                   res_final_bbox := final_bbox self;
                   res_zones := _get_foot_zone_indices (final_bbox self)
                                  (Z.of_nat (nrows (pressure_array self)));
                   res_cop := cop self |}
  else get_visualization_data self = None.
Proof.
  destruct (run_analysis (__init__ json_data filename)) as [ok self] eqn:Hrun.
  cbn [fst snd]. destruct ok.
  - destruct (run_analysis_state _ _ _ Hrun)
      as (Hrect & _ & Hclean & _ & _ & _ & _ & _ & _ & Hres & Herr).
    unfold get_visualization_data. rewrite Herr. cbn [str_truthy].
    eexists. split; [reflexivity|]. cbn [vd_pressure_data vd_analysis_results].
    split; [exact Hclean|]. split; [|exact Hres].
    rewrite Hclean. apply filter_array_shaped. exact Hrect.
  - unfold get_visualization_data.
    destruct (run_analysis_failure _ _ _ Hrun) as [-> | [e ->]].
    + rewrite no_data_message_truthy. reflexivity.
    + rewrite failure_message_truthy. reflexivity.
Qed.

(** ** Drawing *)

(** X15: on the visualization data of a successful run,
    [_draw_visualization_details] draws the vertical line at
    [cols // 2 - 0.5] and the horizontal line at [rows / 2 - 0.5], then
    the two zone lines exactly when zones are defined, then the marker
    of the centre of pressure exactly when there is one; the zone lines
    lie at [mid.start - 0.5] and [fore.start - 0.5], whose rows are
    inside the bounding box and the first strictly before the second. *)
Theorem drawn_details_of_a_run (json_data : json) (filename : string)
    (self : Analyzer) :
  run_analysis (__init__ json_data filename) = (true, self) ->
  let rows := Z.of_nat (nrows (pressure_array self)) in
  let cols := Z.of_nat (ncols (pressure_array self)) in
  exists vis_data,
    get_visualization_data self = Some vis_data
    /\ _draw_visualization_details vis_data
       = [axvline (Qminus (inject_Z (cols / 2)) (1 # 2))
            Style.CENTER_LINE_COLOR Style.CENTER_LINE_STYLE Style.CENTER_LINE_WIDTH;
          axhline (Qminus (Qdiv (inject_Z rows) (inject_Z 2)) (1 # 2))
            Style.CENTER_LINE_COLOR Style.CENTER_LINE_STYLE Style.CENTER_LINE_WIDTH]
         ++ match _get_foot_zone_indices (final_bbox self) rows with
            | Some zones => zone_lines zones
            | None => []
            end
         ++ match cop self with
            | Some p => cop_marker p
            | None => []
            end
    /\ (forall zones lo hi,
          _get_foot_zone_indices (final_bbox self) rows = Some zones ->
          final_bbox self = Some (lo, hi) ->
          lo <= Ndimage.start (mid zones) < Ndimage.start (fore zones)
          /\ Ndimage.start (fore zones) <= hi).
Proof.
  intros Hrun rows cols.
  destruct (run_analysis_state _ _ _ Hrun)
    as (Hrect & Hsize & Hclean & Hcop & _ & _ & _ & _ & _ & Hres & Herr).
  unfold get_visualization_data. rewrite Herr. cbn [str_truthy].
  eexists. split; [reflexivity|].
  pose proof (filter_array_shaped _ Hrect) as (Hcr & Hnr & Hnc).
  rewrite <- Hclean in Hcr, Hnr, Hnc.
  split.
  - unfold _draw_visualization_details.
    cbn [vd_pressure_data vd_analysis_results]. rewrite Hres.
    assert (Hs : Nat.eqb (np_size (cleaned_array self)) 0 = false).
    { apply Nat.eqb_neq. unfold np_size in *. rewrite Hnr, Hnc. exact Hsize. }
    rewrite Hs. cbn [res_final_bbox res_zones res_cop]. rewrite Hnr, Hnc.
    fold rows. fold cols. f_equal. f_equal. f_equal.
    + destruct (final_bbox self) as [[lo hi]|] eqn:Eb; [|reflexivity].
      destruct (_get_foot_zone_indices (Some (lo, hi)) rows); reflexivity.
    + destruct (cop self) as [[y x]|]; reflexivity.
  - intros zones lo hi Hz Hb. rewrite Hb in Hz.
    destruct (Z.ltb_spec (hi - lo + 1) 3) as [Hh | Hh].
    { unfold _get_foot_zone_indices in Hz.
      destruct (Z.ltb_spec (hi - lo + 1) 3); [discriminate | lia]. }
    rewrite (zones_of_bbox lo hi rows Hh) in Hz. inversion Hz; subst zones.
    cbn [mid fore Ndimage.start].
    destruct (zone_bounds (hi - lo + 1) Hh) as (H3 & H4 & Hlt & _). lia.
Qed.

Lemma drawn_details_of_a_run_witness :
  exists vis_data,
    get_visualization_data (run_analysis (__init__ two_feet_document "frame.json")).2
    = Some vis_data
    /\ _draw_visualization_details vis_data
       = [axvline (Qminus (inject_Z (6 / 2)) (1 # 2))
            Style.CENTER_LINE_COLOR Style.CENTER_LINE_STYLE Style.CENTER_LINE_WIDTH;
          axhline (Qminus (Qdiv (inject_Z 6) (inject_Z 2)) (1 # 2))
            Style.CENTER_LINE_COLOR Style.CENTER_LINE_STYLE Style.CENTER_LINE_WIDTH]
         ++ match _get_foot_zone_indices
                    (final_bbox (run_analysis (__init__ two_feet_document "frame.json")).2) 6
            with
            | Some zones => zone_lines zones
            | None => []
            end
         ++ match cop (run_analysis (__init__ two_feet_document "frame.json")).2 with
            | Some p => cop_marker p
            | None => []
            end
    /\ (forall zones lo hi,
          _get_foot_zone_indices
            (final_bbox (run_analysis (__init__ two_feet_document "frame.json")).2) 6
          = Some zones ->
          final_bbox (run_analysis (__init__ two_feet_document "frame.json")).2
          = Some (lo, hi) ->
          lo <= Ndimage.start (mid zones) < Ndimage.start (fore zones)
          /\ Ndimage.start (fore zones) <= hi).
Proof.
  apply (drawn_details_of_a_run two_feet_document "frame.json").
  vm_compute. reflexivity.
Defined.

(** ** The upload endpoint *)

Lemma no_data_message_head (filename : string) :
  exists rest, no_data_message filename = String "'" rest.
Proof. unfold no_data_message. eexists. reflexivity. Qed.

Lemma failure_message_head (e : exn) :
  exists rest, failure_message e = String "235" (String "182" rest).
Proof. unfold failure_message. eexists. reflexivity. Qed.

(** X16: the outcomes of the upload handler.  A response is returned
    only for a file name ending in [.json] whose contents parse and
    whose run succeeds, with a non-empty image; its body holds the
    converted analysis results and that image, and contains no numpy
    scalar or array.  A file name not ending in [.json] is refused with
    status 400; every other failure has status 500, and its detail is
    never the fallback text for a missing error message nor the text for
    missing visualization data: a failed run always carries its own
    message, and a successful run always has visualization data. *)
Theorem upload_outcomes (json_loads : string -> option json)
    (render : VisData -> option (option string))
    (results_value : option Results -> pyval)
    (filename : option string) (contents : string) :
  match analyze_pressure_data json_loads render results_value filename contents with
  | Response body =>
      is_native body = true
      /\ exists name json_data image,
           filename = Some name /\ endswith name ".json" = true
           /\ json_loads contents = Some json_data
           /\ (run_analysis (__init__ json_data name)).1 = true
           /\ image <> ""%string
           /\ body = PyDict
                       [("analysis_results"%string,
                         convert_numpy_to_native
                           (results_value
                              (analysis_results (run_analysis (__init__ json_data name)).2)));
                        ("image_base64"%string, PyStr image)]
  | HTTPException status_code detail =>
      (status_code = 400 /\ detail = BAD_FILE_TYPE
       /\ exists name, filename = Some name /\ endswith name ".json" = false)
      \/ (status_code = 500
          /\ (forall name, filename = Some name -> endswith name ".json" = true)
          /\ detail <> UNKNOWN_ANALYSIS_ERROR
          /\ detail <> NO_VISUALIZATION_DATA)
  end.
Proof.
  unfold analyze_pressure_data.
  destruct filename as [name|].
  2:{ right. split; [reflexivity|]. split; [intros name H; discriminate H|].
      split; discriminate. }
  destruct (endswith name ".json") eqn:Eend; cbn [negb].
  2:{ left. split; [reflexivity|]. split; [reflexivity|]. exists name.
      split; [reflexivity | exact Eend]. }
  assert (Hname : forall n, Some name = Some n -> endswith n ".json" = true)
    by (intros n H; inversion H; subst; exact Eend).
  destruct (json_loads contents) as [json_data|] eqn:Eload.
  2:{ right. split; [reflexivity|]. split; [exact Hname|]. split; discriminate. }
  destruct (run_analysis (__init__ json_data name)) as [ok analyzer] eqn:Hrun.
  destruct ok; cbn [negb].
  - destruct (run_analysis_state _ _ _ Hrun)
      as (_ & _ & _ & _ & _ & _ & _ & _ & _ & _ & Herr).
    unfold get_visualization_data. rewrite Herr. cbn [str_truthy].
    match goal with
    | |- context [render ?v] => destruct (render v) as [[image|]|]
    end.
    + cbn [str_truthy default]. destruct (String.eqb_spec image "") as [-> | Hne]; cbn [negb].
      * right. split; [reflexivity|]. split; [exact Hname|]. split; discriminate.
      * split; [apply convert_native|].
        exists name, json_data, image.
        split; [reflexivity|]. split; [exact Eend|]. split; [reflexivity|].
        rewrite Hrun. cbn [fst snd].
        split; [reflexivity|]. split; [exact Hne|]. reflexivity.
    + cbn [str_truthy]. right. split; [reflexivity|]. split; [exact Hname|].
      split; discriminate.
    + right. split; [reflexivity|]. split; [exact Hname|]. split; discriminate.
  - right. split; [reflexivity|]. split; [exact Hname|].
    destruct (run_analysis_failure _ _ _ Hrun) as [E | [e E]]; rewrite E.
    + rewrite no_data_message_truthy. cbn [default].
      destruct (no_data_message_head name) as [rest ->]. split; discriminate.
    + rewrite failure_message_truthy. cbn [default].
      destruct (failure_message_head e) as [rest ->]. split; discriminate.
Qed.

(** ** The desktop converter *)

(** X17: the converter of the desktop engine returns a tuple unchanged,
    numpy scalars included; on values without tuples it agrees with the
    converter of the web backend and leaves no numpy scalar or array. *)
Theorem desktop_converter_skips_tuples :
  (forall l, Desktop.convert_numpy_to_native (PyTuple l) = PyTuple l)
  /\ (forall data, tuple_free data = true ->
        Desktop.convert_numpy_to_native data = convert_numpy_to_native data)
  /\ (forall data, tuple_free data = true ->
        is_native (Desktop.convert_numpy_to_native data) = true).
Proof.
  assert (Hagree : forall data, tuple_free data = true ->
            Desktop.convert_numpy_to_native data = convert_numpy_to_native data).
  { intros data.
    induction data as [| b | z | q | s | l IH | l IH | items IH | x | a]
      using pyval_induction; try reflexivity; try discriminate.
    - cbn [tuple_free Desktop.convert_numpy_to_native convert_numpy_to_native].
      intros H. f_equal. apply map_ext_in. intros v Hv.
      rewrite List.Forall_forall in IH. rewrite forallb_forall in H. apply IH; auto.
    - cbn [tuple_free Desktop.convert_numpy_to_native convert_numpy_to_native].
      intros H. f_equal. apply map_ext_in. intros [k v] Hv.
      rewrite List.Forall_forall in IH. rewrite forallb_forall in H.
      f_equal. apply (IH (k, v) Hv). exact (H (k, v) Hv). }
  split; [reflexivity|]. split; [exact Hagree|].
  intros data H. rewrite (Hagree data H). apply convert_native.
Qed.

Lemma desktop_converter_skips_tuples_witness :
  Desktop.convert_numpy_to_native numpy_results = convert_numpy_to_native numpy_results
  /\ is_native (Desktop.convert_numpy_to_native numpy_results) = true.
Proof.
  destruct desktop_converter_skips_tuples as (_ & Hagree & Hnative).
  split; [apply Hagree | apply Hnative]; reflexivity.
Defined.

(** ** Failures of ingestion *)

Lemma mapM_first_error {A B} (f : A -> result B) (x : A) (l : list A) (e : exn) :
  f x = Raise e -> mapM f (x :: l) = Raise e.
Proof. intros H. cbn. rewrite H. reflexivity. Qed.

(** Ingestion lets only [IndexError] and [AttributeError] through. *)
Lemma process_input_data_raises (self : Analyzer) (e : exn) :
  _process_input_data self = Raise e -> e = IndexError \/ e = AttributeError.
Proof.
  unfold _process_input_data.
  destruct (dict_get (json_data self) "RawPressureByRows") as [rows|e'].
  - destruct (negb (truthy rows)); [discriminate|].
    destruct (parse_rows rows) as [a|e'']; [discriminate|].
    destruct e''; cbn [caught]; intros H; inversion H; auto.
  - destruct e'; cbn [caught]; intros H; inversion H; auto.
Qed.

(** A run on a document that is not a JSON object. *)
Lemma run_analysis_not_a_dict (v : json) (filename : string) :
  (forall items, v <> JDict items) ->
  run_analysis (__init__ v filename)
  = (false, set_error_message (Some (failure_message AttributeError))
              (__init__ v filename)).
Proof.
  intros Hnot. unfold run_analysis, _process_input_data. cbn [__init__ json_data].
  destruct v; try reflexivity. exfalso. exact (Hnot items eq_refl).
Qed.

(** A run on rows whose first identifier has no underscore. *)
Lemma run_analysis_key_without_underscore (filename : string)
    (items rows : list (string * json)) (key : string) (keys : list string) :
  assoc "RawPressureByRows" items = Some (JDict rows) ->
  map fst rows = key :: keys ->
  py_split key "_" = [key] ->
  run_analysis (__init__ (JDict items) filename)
  = (false, set_error_message (Some (failure_message IndexError))
              (__init__ (JDict items) filename)).
Proof.
  intros Hrows Hkeys Hsplit.
  unfold run_analysis, _process_input_data. cbn [__init__ json_data dict_get].
  rewrite Hrows. cbn [default]. unfold id.
  assert (Ht : truthy (JDict rows) = true).
  { destruct rows; [discriminate Hkeys | reflexivity]. }
  rewrite Ht. cbn [negb].
  assert (Hp : parse_rows (JDict rows) = Raise IndexError).
  { unfold parse_rows. cbn [dict_keys mbind result_bind]. rewrite Hkeys.
    rewrite (mapM_first_error _ key keys IndexError); [reflexivity|].
    unfold sort_key. rewrite Hsplit. reflexivity. }
  rewrite Hp. reflexivity.
Qed.



(** ** Scaling the readings *)

Lemma at2_scale (k : Z) (a : grid) r c : at2 0 (scale k a) r c = at2 0 a r c * k.
Proof. exact (at2_map (fun v => v * k) 0 a r c). Qed.

Lemma nrows_scale (k : Z) (a : grid) : nrows (scale k a) = nrows a.
Proof. apply nrows_map. Qed.

Lemma ncols_scale (k : Z) (a : grid) : ncols (scale k a) = ncols a.
Proof. apply ncols_map. Qed.

Lemma rectangular_scale (k : Z) (a : grid) :
  rectangular a = true -> rectangular (scale k a) = true.
Proof. apply rectangular_map. Qed.

Lemma zsum_cons (x : Z) (l : list Z) : zsum (x :: l) = x + zsum l.
Proof. reflexivity. Qed.

Lemma zsum_scale (k : Z) (l : list Z) : zsum (map (fun v => v * k) l) = zsum l * k.
Proof.
  induction l as [|x l IH]; [reflexivity|].
  cbn [map]. rewrite !zsum_cons, IH. ring.
Qed.

Lemma np_sum_scale (k : Z) (a : grid) : np_sum (scale k a) = np_sum a * k.
Proof.
  unfold np_sum, scale.
  induction a as [|row a IH]; [reflexivity|].
  cbn [map]. rewrite !zsum_cons, IH, zsum_scale. ring.
Qed.

Lemma np_sum_scale_zero (k : Z) (a : grid) :
  0 < k -> (np_sum (scale k a) =? 0) = (np_sum a =? 0).
Proof.
  intros Hk. rewrite np_sum_scale.
  destruct (Z.eqb_spec (np_sum a * k) 0), (Z.eqb_spec (np_sum a) 0); try reflexivity; nia.
Qed.

Lemma np_sum_scale_pos (k : Z) (a : grid) :
  0 < k -> (0 <? np_sum (scale k a)) = (0 <? np_sum a).
Proof.
  intros Hk. rewrite np_sum_scale.
  destruct (Z.ltb_spec 0 (np_sum a * k)), (Z.ltb_spec 0 (np_sum a)); try reflexivity; nia.
Qed.

Lemma gt_zero_scale (k : Z) (a : grid) : 0 < k -> gt_zero (scale k a) = gt_zero a.
Proof.
  intros Hk. unfold gt_zero, scale. rewrite map_map. apply map_ext. intros row.
  rewrite map_map. apply map_ext. intros v.
  destruct (Z.ltb_spec 0 (v * k)), (Z.ltb_spec 0 v); try reflexivity; nia.
Qed.

Lemma mul_mask_scale (k : Z) (a : grid) (m : mask) :
  mul_mask (scale k a) m = scale k (mul_mask a m).
Proof.
  unfold mul_mask, scale. revert m.
  induction a as [|row a IH]; intros [|mrow m]; try reflexivity.
  cbn [map zip_with]. f_equal; [|apply IH].
  clear. revert mrow. induction row as [|v row IH]; intros [|b mrow]; try reflexivity.
  cbn [map zip_with]. f_equal; [ring | apply IH].
Qed.

Lemma row_slice_scale (k : Z) (a : grid) (start stop : Z) :
  row_slice (scale k a) start stop = scale k (row_slice a start stop).
Proof.
  unfold row_slice, scale. rewrite List.skipn_map, List.firstn_map. reflexivity.
Qed.

(** A quotient does not change in value when both sums are scaled. *)
Lemma Qdiv_scale (n d k : Z) :
  k <> 0 ->
  (Qdiv (inject_Z (n * k)) (inject_Z (d * k)) == Qdiv (inject_Z n) (inject_Z d))%Q.
Proof.
  intros Hk. destruct (Z.eq_dec d 0) as [-> | Hd].
  - simpl. unfold Qdiv, Qinv. simpl. rewrite !Qmult_0_r. reflexivity.
  - rewrite !inject_Z_mult. field. split.
    + intros H. apply Hd. apply (proj1 (inject_Z_injective d 0)). exact H.
    + intros H. apply Hk. apply (proj1 (inject_Z_injective k 0)). exact H.
Qed.

Lemma Qltb_comp (x y b : Q) : (x == y)%Q -> Qltb x b = Qltb y b.
Proof.
  intros H. unfold Qltb. f_equal.
  destruct (Qle_bool b x) eqn:E1, (Qle_bool b y) eqn:E2; try reflexivity.
  - apply Qle_bool_iff in E1. rewrite H in E1. apply Qle_bool_iff in E1. congruence.
  - apply Qle_bool_iff in E2. rewrite <- H in E2. apply Qle_bool_iff in E2. congruence.
Qed.

(** The centroid of a scaled array has the same value. *)
Lemma centroid_scale (k : Z) (a : grid) (sel : Z -> Z -> bool) :
  k <> 0 ->
  ((Ndimage.centroid (scale k a) sel).1 == (Ndimage.centroid a sel).1)%Q
  /\ ((Ndimage.centroid (scale k a) sel).2 == (Ndimage.centroid a sel).2)%Q.
Proof.
  intros Hk. unfold Ndimage.centroid. rewrite nrows_scale, ncols_scale. cbn [fst snd].
  set (cells := List.filter _ _).
  assert (Hw : forall g : Z * Z -> Z,
            zsum (map (fun p : Z * Z => g p * at2 0 (scale k a) p.1 p.2) cells)
            = zsum (map (fun p : Z * Z => g p * at2 0 a p.1 p.2) cells) * k).
  { intros g. clear. induction cells as [|p cells IH]; [reflexivity|].
    cbn [map]. rewrite !zsum_cons, IH, at2_scale. ring. }
  assert (Hn : zsum (map (fun p : Z * Z => at2 0 (scale k a) p.1 p.2) cells)
               = zsum (map (fun p : Z * Z => at2 0 a p.1 p.2) cells) * k).
  { clear. induction cells as [|p cells IH]; [reflexivity|].
    cbn [map]. rewrite !zsum_cons, IH, at2_scale. ring. }
  rewrite Hn, (Hw (fun p => p.1)), (Hw (fun p => p.2)).
  split; apply Qdiv_scale; exact Hk.
Qed.

Lemma fold_left_map_ext {A B C} (step : A -> B -> A) (g1 g2 : C -> B) (l : list C) :
  (forall acc x, In x l -> step acc (g1 x) = step acc (g2 x)) ->
  forall init, fold_left step (map g1 l) init = fold_left step (map g2 l) init.
Proof.
  induction l as [|x l IH]; intros H init; [reflexivity|].
  cbn [map fold_left]. rewrite (H init x (or_introl eq_refl)).
  apply IH. intros acc y Hy. apply H. right. exact Hy.
Qed.

(** The general case of the separation on a scaled array. *)
Lemma assign_by_centroid_scale (k : Z) (array : grid) (lab : labels) (n : nat) (mid_col : Z) :
  k <> 0 ->
  assign_by_centroid (scale k array) lab n mid_col
  = (scale k (assign_by_centroid array lab n mid_col).1,
     scale k (assign_by_centroid array lab n mid_col).2).
Proof.
  intros Hk. unfold assign_by_centroid.
  rewrite nrows_scale, ncols_scale, !zip_seq_map.
  rewrite (fold_left_map_ext (assign_step lab mid_col)
             (fun i => (i, Ndimage.center_of_mass_label (scale k array) lab (S i)))
             (fun i => (i, Ndimage.center_of_mass_label array lab (S i)))).
  - destruct (fold_left _ _ _) as [left_mask right_mask]. cbn [fst snd].
    rewrite !mul_mask_scale. reflexivity.
  - intros acc i _. unfold assign_step.
    rewrite (Qltb_comp _ (Ndimage.center_of_mass_label array lab (S i)).2); [reflexivity|].
    apply (centroid_scale k array _ Hk).
Qed.

Lemma forced_split_scale (k : Z) (array : grid) (lab : labels) (mid_col : Z) :
  forced_split (scale k array) lab mid_col
  = (scale k (forced_split array lab mid_col).1,
     scale k (forced_split array lab mid_col).2).
Proof.
  unfold forced_split. rewrite nrows_scale, ncols_scale. cbn [fst snd].
  rewrite !mul_mask_scale. reflexivity.
Qed.

(** Separation commutes with scaling. *)
Lemma separate_feet_scale (k : Z) (array : grid) :
  0 < k ->
  _separate_feet (scale k array)
  = (scale k (_separate_feet array).1, scale k (_separate_feet array).2).
Proof.
  intros Hk. unfold _separate_feet.
  rewrite (np_sum_scale_zero k array Hk).
  destruct (np_sum array =? 0); [reflexivity|].
  rewrite (gt_zero_scale k array Hk), ncols_scale.
  destruct (Ndimage.label (gt_zero array)) as [lab n].
  rewrite assign_by_centroid_scale by lia.
  destruct (Nat.eqb n 1); [|reflexivity].
  destruct (Ndimage.find_objects lab 1) as [[obj_rows obj_cols]|]; [|reflexivity].
  destruct (spans_center _ _ _ _); [|reflexivity].
  rewrite forced_split_scale.
  destruct (forced_split array lab (Z.of_nat (ncols array) / 2)) as [lf rf]. cbn [fst snd].
  rewrite !np_sum_scale_pos by exact Hk.
  destruct ((0 <? np_sum lf) && (0 <? np_sum rf)); reflexivity.
Qed.

(** The footprint of a scaled foot. *)
Lemma get_virtual_footprint_scale (k : Z) (f : grid) :
  0 < k -> get_virtual_footprint (scale k f) = get_virtual_footprint f.
Proof.
  intros Hk. unfold get_virtual_footprint.
  rewrite (np_sum_scale_zero k f Hk), nrows_scale.
  destruct (np_sum f =? 0); [reflexivity|].
  assert (E : forall r : Z,
            existsb (fun v => 0 <? v) (nth (Z.to_nat r) (scale k f) [])
            = existsb (fun v => 0 <? v) (nth (Z.to_nat r) f [])).
  { intros r. unfold scale.
    change (@nil Z) with (map (fun v => v * k) []) at 1. rewrite map_nth.
    induction (nth (Z.to_nat r) f []) as [|v row IH]; [reflexivity|].
    cbn [map existsb]. rewrite IH. f_equal.
    destruct (Z.ltb_spec 0 (v * k)), (Z.ltb_spec 0 v); try reflexivity; nia. }
  rewrite (filter_ext _ _ E). reflexivity.
Qed.

Lemma clear_of_noise_spec (a : grid) :
  clear_of_noise a = true ->
  forall r c, at2 0 a r c <= 0 \/ Config.noise_threshold < at2 0 a r c.
Proof.
  unfold clear_of_noise. rewrite forallb_forall. intros H.
  apply (at2_forall (fun v => v <= 0 \/ Config.noise_threshold < v) 0 a); [left; lia|].
  intros row Hrow v Hv. specialize (H row Hrow). rewrite forallb_forall in H.
  specialize (H v Hv). apply orb_true_iff in H.
  destruct H as [H | H]; [left; apply Z.leb_le | right; apply Z.ltb_lt]; exact H.
Qed.

Lemma max_scale (k x : Z) (xs : list Z) :
  0 <= k ->
  foldr Z.max (x * k) (map (fun v => v * k) xs) = foldr Z.max x xs * k.
Proof.
  intros Hk. induction xs as [|y xs IH]; [reflexivity|].
  cbn [map foldr]. rewrite IH. apply Z.mul_max_distr_nonneg_r. exact Hk.
Qed.

Lemma np_max_scale (k : Z) (a : grid) : 0 <= k -> np_max (scale k a) = np_max a * k.
Proof.
  intros Hk. unfold np_max, scale. rewrite <- concat_map.
  destruct (concat a) as [|x xs]; [reflexivity|].
  cbn [map]. apply max_scale. exact Hk.
Qed.

(** The noise filter commutes with scaling up a frame whose readings are
    zero or above the threshold. *)
Lemma filter_array_scale (k : Z) (a : grid) :
  rectangular a = true ->
  1 <= k ->
  (forall r c, at2 0 a r c <= 0 \/ Config.noise_threshold < at2 0 a r c) ->
  filter_array (scale k a) = scale k (filter_array a).
Proof.
  intros Ha Hk Hcells. unfold filter_array.
  rewrite np_max_scale by lia.
  destruct (Z.eqb_spec (np_max a * k) 0) as [E | E], (Z.eqb_spec (np_max a) 0) as [E' | E'];
    try reflexivity; try nia.
  assert (Hw : np_where_gt Config.noise_threshold (scale k a)
               = scale k (np_where_gt Config.noise_threshold a)).
  { apply (array_ext 0).
    - apply rectangular_map. apply rectangular_scale. exact Ha.
    - apply rectangular_scale. apply rectangular_map. exact Ha.
    - unfold np_where_gt. rewrite nrows_scale, !nrows_map, nrows_scale. reflexivity.
    - unfold np_where_gt. rewrite ncols_scale, !ncols_map, ncols_scale. reflexivity.
    - intros r c _. rewrite at2_np_where_gt, !at2_scale, at2_np_where_gt.
      unfold Config.noise_threshold in *.
      destruct (Hcells r c) as [H | H];
        destruct (Z.ltb_spec 5 (at2 0 a r c * k)), (Z.ltb_spec 5 (at2 0 a r c));
        try reflexivity; try nia. }
  rewrite Hw, gt_zero_scale by lia. apply mul_mask_scale.
Qed.

Lemma percentage_scale (k : Z) (f : grid) (idx : Ndimage.slice) :
  k <> 0 ->
  (percentage (scale k f) idx (np_sum (scale k f)) == percentage f idx (np_sum f))%Q.
Proof.
  intros Hk. unfold percentage. rewrite row_slice_scale, !np_sum_scale.
  rewrite (Qdiv_scale _ _ k Hk). reflexivity.
Qed.

Lemma insert_related {V} (R : V -> V -> Prop) (m1 m2 : gmap string V)
    (i key : string) (v1 v2 : V) :
  R v1 v2 ->
  option_Forall2 R (m1 !! key) (m2 !! key) ->
  option_Forall2 R (<[i := v1]> m1 !! key) (<[i := v2]> m2 !! key).
Proof.
  intros Hv Hm. destruct (decide (i = key)) as [-> | Hne].
  - rewrite !lookup_insert_eq. constructor. exact Hv.
  - rewrite !lookup_insert_ne by exact Hne. exact Hm.
Qed.

Lemma Qle_bool_comp (x y b : Q) : (x == y)%Q -> Qle_bool x b = Qle_bool y b.
Proof.
  intros H.
  destruct (Qle_bool x b) eqn:E1, (Qle_bool y b) eqn:E2; try reflexivity.
  - apply Qle_bool_iff in E1. rewrite H in E1. apply Qle_bool_iff in E1. congruence.
  - apply Qle_bool_iff in E2. rewrite <- H in E2. apply Qle_bool_iff in E2. congruence.
Qed.

Lemma classify_arch_comp (x y : Q) : (x == y)%Q -> _classify_arch x = _classify_arch y.
Proof.
  intros H. unfold _classify_arch.
  rewrite (Qle_bool_comp x y _ H), (Qle_bool_comp x y Config.normal H). reflexivity.
Qed.

Lemma arch_score_comp (x y : Q) :
  (x == y)%Q -> _calculate_arch_score x = _calculate_arch_score y.
Proof.
  intros H.
  destruct (arch_score_raw x) as [r1 [H1 ->]], (arch_score_raw y) as [r2 [H2 ->]].
  assert (Hr : (r1 == r2)%Q) by (rewrite H1, H2, H; reflexivity).
  apply round1_comp.
  destruct (clamp_cases r1) as [[R1 ->] | [R1 ->]],
           (clamp_cases r2) as [[R2 ->] | [R2 ->]];
    first [exact Hr | reflexivity | exfalso; lra].
Qed.

(** The distribution of two scaled feet. *)
Lemma fill_distribution_scale (k : Z) (zones : Zones) (l r : grid) (key : string) :
  0 < k ->
  option_Forall2 Qeq
    (fill_distribution zones [("L"%string, l); ("R"%string, r)] ∅ !! key)
    (fill_distribution zones [("L"%string, scale k l); ("R"%string, scale k r)] ∅ !! key).
Proof.
  intros Hk. rewrite !fill_distribution_sides. cbv zeta.
  rewrite !(np_sum_scale_zero k) by exact Hk.
  assert (Hp : forall f idx,
            (percentage f idx (np_sum f) == percentage (scale k f) idx (np_sum (scale k f)))%Q).
  { intros f idx. symmetry. apply percentage_scale. lia. }
  assert (H0 : option_Forall2 Qeq ((∅ : gmap string Q) !! key) ((∅ : gmap string Q) !! key)).
  { rewrite lookup_empty. constructor. }
  destruct (np_sum l =? 0), (np_sum r =? 0);
    repeat (apply insert_related; [apply Hp|]); exact H0.
Qed.

(** The foot types of two scaled feet. *)
Lemma fill_foot_types_scale (k : Z) (zones : Zones) (l r : grid) (name : string) :
  0 < k ->
  option_Forall2 same_entry
    (fill_foot_types zones l r ∅ !! name)
    (fill_foot_types zones (scale k l) (scale k r) ∅ !! name).
Proof.
  intros Hk. rewrite !fill_foot_types_sides. cbv zeta.
  rewrite !(np_sum_scale_zero k) by exact Hk.
  assert (He : forall f : grid,
    same_entry
      (if np_sum f =? 0
       then {| ft_type := NO_DATA; ft_value := inject_Z 0; ft_score := inject_Z 0 |}
       else {| ft_type := _classify_arch
                            (Qdiv (inject_Z (np_sum (row_slice f (Ndimage.start (mid zones))
                                                       (Ndimage.stop (mid zones)))))
                                  (inject_Z (np_sum f)));
               ft_value := Qdiv (inject_Z (np_sum (row_slice f (Ndimage.start (mid zones))
                                                     (Ndimage.stop (mid zones)))))
                                (inject_Z (np_sum f));
               ft_score := _calculate_arch_score
                             (Qdiv (inject_Z (np_sum (row_slice f (Ndimage.start (mid zones))
                                                        (Ndimage.stop (mid zones)))))
                                   (inject_Z (np_sum f))) |})
      (if np_sum f =? 0
       then {| ft_type := NO_DATA; ft_value := inject_Z 0; ft_score := inject_Z 0 |}
       else {| ft_type := _classify_arch
                            (Qdiv (inject_Z (np_sum (row_slice (scale k f)
                                                       (Ndimage.start (mid zones))
                                                       (Ndimage.stop (mid zones)))))
                                  (inject_Z (np_sum (scale k f))));
               ft_value := Qdiv (inject_Z (np_sum (row_slice (scale k f)
                                                     (Ndimage.start (mid zones))
                                                     (Ndimage.stop (mid zones)))))
                                (inject_Z (np_sum (scale k f)));
               ft_score := _calculate_arch_score
                             (Qdiv (inject_Z (np_sum (row_slice (scale k f)
                                                        (Ndimage.start (mid zones))
                                                        (Ndimage.stop (mid zones)))))
                                   (inject_Z (np_sum (scale k f)))) |})).
  { intros f. destruct (np_sum f =? 0).
    - split; [reflexivity|]. split; reflexivity.
    - rewrite row_slice_scale, !np_sum_scale.
      assert (E : (Qdiv (inject_Z (np_sum (row_slice f (Ndimage.start (mid zones))
                                             (Ndimage.stop (mid zones)))))
                        (inject_Z (np_sum f))
                   == Qdiv (inject_Z (np_sum (row_slice f (Ndimage.start (mid zones))
                                                (Ndimage.stop (mid zones))) * k))
                           (inject_Z (np_sum f * k)))%Q).
      { symmetry. apply Qdiv_scale. lia. }
      unfold same_entry. cbn [ft_type ft_value ft_score].
      split; [apply classify_arch_comp; exact E|]. split; [exact E|].
      rewrite (arch_score_comp _ _ E). reflexivity. }
  apply insert_related; [apply He|]. apply insert_related; [apply He|].
  rewrite lookup_empty. constructor.
Qed.



(** ** Agreement of the exact arithmetic with float64 *)

(** For every height up to 1024 rows, [int(height * 0.3)] and
    [int(height * 0.4)] computed in float64 are the numbers of rows that
    [_get_foot_zone_indices] computes above. *)
Lemma zone_rows_agree_with_float64 :
  forallb (fun h =>
             (Float64.hind_rows h
              =? int_of_Q (Qmult (inject_Z h) Config.hindfoot_ratio))
             && (Float64.mid_rows h
                 =? int_of_Q (Qmult (inject_Z h) Config.midfoot_ratio)))
    (zrange 1025) = true.
Proof. vm_compute. reflexivity. Qed.

(** For every pair of sums [0 <= m <= t <= 100], the float64 quotient
    [m / t] is classified as [_classify_arch] classifies the exact
    quotient. *)
Lemma classification_agrees_with_float64 :
  forallb (fun t =>
             forallb (fun m =>
                        String.eqb
                          (Float64.classify
                             (PrimFloat.div (Float64.of_Z m) (Float64.of_Z (t + 1))))
                          (_classify_arch (Qdiv (inject_Z m) (inject_Z (t + 1)))))
               (zrange (Z.to_nat (t + 2))))
    (zrange 100) = true.
Proof. vm_compute. reflexivity. Qed.

(** The float64 classifier at the three values of the specification. *)
Lemma classification_boundaries_float64 :
  Float64.classify 0.21%float = HIGH_ARCH
  /\ Float64.classify 0.26%float = NORMAL
  /\ Float64.classify 0.2600001%float = FLAT_FOOT.
Proof. repeat split; vm_compute; reflexivity. Qed.

(** The width test of [spans_center] agrees with its float64 form for
    every width and column count up to 100. *)
Lemma width_test_agrees_with_float64 :
  forallb (fun cols =>
             forallb (fun width =>
                        Bool.eqb (Float64.wider_than_third width cols)
                                 (Qltb (Qdiv (inject_Z cols) (inject_Z 3))
                                       (inject_Z width)))
               (zrange 101))
    (zrange 101) = true.
Proof. vm_compute. reflexivity. Qed.

(** For every split of a total of at most 40 into three zone sums, the
    float64 percentages lie in [0, 100] and add up to 100 within 1e-6. *)
Lemma percentages_ok_in_float64 :
  forallb (fun t =>
             forallb (fun a =>
                        forallb (fun b => Float64.percentages_ok a b (t + 1 - a - b))
                          (zrange (Z.to_nat (t + 2 - a))))
               (zrange (Z.to_nat (t + 2))))
    (zrange 40) = true.
Proof. vm_compute. reflexivity. Qed.

(** ** Worked examples *)

Example label_u_shape :
  Ndimage.label u_shape = ([[1; 0; 1]; [1; 0; 1]; [1; 1; 1]]%nat, 1%nat).
Proof. vm_compute. reflexivity. Qed.

Example label_corner_blocks :
  Ndimage.label corner_blocks
  = ([[1; 1; 0; 0]; [1; 1; 0; 0]; [0; 0; 2; 2]; [0; 0; 2; 2]]%nat, 2%nat).
Proof. vm_compute. reflexivity. Qed.

Example filter_noisy_frame :
  filter_array noisy_frame
  = [[9; 9; 9; 0; 0; 0]; [9; 9; 9; 0; 0; 0]; [9; 9; 9; 0; 0; 0]; [0; 0; 0; 0; 0; 0]].
Proof. vm_compute. reflexivity. Qed.

Example separate_merged_blob :
  _separate_feet merged_blob
  = ([[0; 0; 0; 0; 0; 0]; [0; 9; 8; 0; 0; 0]; [0; 9; 8; 0; 0; 0];
      [0; 9; 8; 0; 0; 0]; [0; 9; 8; 0; 0; 0]; [0; 0; 0; 0; 0; 0]],
     [[0; 0; 0; 0; 0; 0]; [0; 0; 0; 7; 9; 0]; [0; 0; 0; 7; 9; 0];
      [0; 0; 0; 7; 9; 0]; [0; 0; 0; 7; 9; 0]; [0; 0; 0; 0; 0; 0]]).
Proof. vm_compute. reflexivity. Qed.

Example split_row : py_split "12, 0, 7" ", " = ["12"; "0"; "7"]%string.
Proof. reflexivity. Qed.

Example split_row_key : py_split "Row_12" "_" = ["Row"; "12"]%string.
Proof. reflexivity. Qed.

Example int_of_cell : py_int "12" = Ok 12 /\ py_int "1.5" = Raise ValueError
                      /\ py_int "" = Raise ValueError.
Proof. repeat split; reflexivity. Qed.

Example run_without_mapping :
  (run_analysis (__init__ (JDict []) "frame.json")).1 = false
  /\ error_message (run_analysis (__init__ (JDict []) "frame.json")).2
     = Some (no_data_message "frame.json").
Proof. split; reflexivity. Qed.

Example run_with_a_letter_in_a_cell :
  (run_analysis (__init__ (document ["9, 9"; "9, x"]%string) "frame.json")).1 = false
  /\ error_message (run_analysis (__init__ (document ["9, 9"; "9, x"]%string) "frame.json")).2
     = Some (no_data_message "frame.json").
Proof. split; vm_compute; reflexivity. Qed.

Example run_on_a_list :
  (run_analysis (__init__ (JList [JInt 1]) "frame.json")).1 = false
  /\ error_message (run_analysis (__init__ (JList [JInt 1]) "frame.json")).2
     = Some (failure_message AttributeError).
Proof. split; reflexivity. Qed.

Example run_on_two_feet :
  (run_analysis (__init__ two_feet_document "frame.json")).1 = true
  /\ map_to_list (distribution (run_analysis (__init__ two_feet_document "frame.json")).2)
     = [("RM", 1600 # 64); ("RF", 3200 # 64); ("RH", 1600 # 64);
        ("LM", 1700 # 68); ("LF", 3400 # 68); ("LH", 1700 # 68)]%string.
Proof. split; vm_compute; reflexivity. Qed.
